(** * ICT pre-market pipeline: detectors, day-type scoring, scenarios, plan status

    A shallow embedding of the numeric core of the repository
    (backend/app/services/ict/*.py and the plan validator and context
    cache of backend/app/services/langchain/coach.py).

    Conventions of the embedding.
    - Prices, strengths and sizes are Python floats in the source.  They are
      embedded as exact rationals [Q]; comparisons are the boolean tests the
      source performs, arithmetic is exact.  Binary rounding of IEEE doubles
      is outside the model.
    - A pandas DataFrame of OHLCV rows is a [list Bar], oldest row first.
    - Python [int] counters and scores are [Z]; list lengths and row indices
      are [nat].
    - Python strings that the code compares or returns are [string].
    - A [datetime] is a count of microseconds in [Z]; the dictionary that
      serves as cache is an association list in insertion order. *)

From Stdlib Require Import String.
From Stdlib Require Import QArith Qabs ZArith List Bool Lia Lqa Qround.
From Stdlib Require Import Sorting.Sorted.
Import ListNotations.
Open Scope string_scope.
Open Scope list_scope.
Open Scope Q_scope.

(** ** Numeric helpers: the comparisons of the source as boolean tests *)

Definition Qleb (a b : Q) : bool := Qle_bool a b.
Definition Qltb (a b : Q) : bool := negb (Qle_bool b a).
Definition Qgeb (a b : Q) : bool := Qle_bool b a.
Definition Qgtb (a b : Q) : bool := negb (Qle_bool a b).

(** ** Data model *)

(** One OHLCV row.  [bar_timestamp] is the row's time stamp as an integer. *)
Record Bar : Type := mkBar {
  bar_timestamp : Z;
  bar_open : Q;
  bar_high : Q;
  bar_low : Q;
  bar_close : Q;
  bar_volume : Q
}.

(** [app.schemas.trading.FVG].  The detector reads the time stamp from the
    frame's [timestamp] column, taken to be present. *)
Record FVG : Type := mkFVG {
  fvg_high : Q;
  fvg_low : Q;
  fvg_timestamp : Z;
  fvg_gap_size : Q;
  fvg_direction : string;
  fvg_filled : bool;
  fvg_mitigated : bool;
  fvg_invalidated : bool
}.

(** [app.schemas.trading.OrderBlock]. *)
Record OrderBlock : Type := mkOrderBlock {
  ob_high : Q;
  ob_low : Q;
  ob_timestamp : Z;
  ob_direction : string;
  ob_strength : Q
}.

(** [app.schemas.trading.LiquidityZone]. *)
Record LiquidityZone : Type := mkLiquidityZone {
  lz_price : Q;
  lz_zone_type : string;
  lz_strength : Q
}.

(** [DataFrame.tail(n)]: the last [n] rows; no row for [n = 0]; for a
    negative [n] every row but the first [-n]. *)
Definition df_tail {A : Type} (n : Z) (df : list A) : list A :=
  if (n =? 0)%Z then []
  else if (0 <? n)%Z then skipn (length df - Z.to_nat n) df
  else skipn (Z.to_nat (- n)) df.

(** ** fvg.py *)

Module Fvg.

(** The body of the loop of [detect_fvgs] at row index [i] of the trimmed
    frame [df]: the FVG appended at that iteration, if any. *)
Definition fvg_at (df : list Bar) (i : nat) : option FVG :=
  match nth_error df (i - 2), nth_error df i with
  | Some candle_1, Some candle_3 =>
      if Qltb (bar_high candle_1) (bar_low candle_3) then
        let gap_high := bar_low candle_3 in
        let gap_low := bar_high candle_1 in
        let gap_size := gap_high - gap_low in
        let subsequent_candles :=
          if (i <? length df - 1)%nat then skipn (i + 1) df else [] in
        let mitigated :=
          existsb (fun c => Qleb (bar_low c) gap_high) subsequent_candles in
        let invalidated :=
          existsb (fun c => Qltb (bar_close c) gap_low) subsequent_candles in
        Some (mkFVG gap_high gap_low (bar_timestamp candle_3) gap_size
                    "bullish" invalidated mitigated invalidated)
      else if Qgtb (bar_low candle_1) (bar_high candle_3) then
        let gap_high := bar_low candle_1 in
        let gap_low := bar_high candle_3 in
        let gap_size := gap_high - gap_low in
        let subsequent_candles :=
          if (i <? length df - 1)%nat then skipn (i + 1) df else [] in
        let mitigated :=
          existsb (fun c => Qgeb (bar_high c) gap_low) subsequent_candles in
        let invalidated :=
          existsb (fun c => Qgtb (bar_close c) gap_high) subsequent_candles in
        Some (mkFVG gap_high gap_low (bar_timestamp candle_3) gap_size
                    "bearish" invalidated mitigated invalidated)
      else None
  | _, _ => None
  end.

(** [for i in range(2, len(df))], appending what each iteration emits. *)
Definition scan (df : list Bar) : list FVG :=
  flat_map (fun i => match fvg_at df i with Some f => [f] | None => [] end)
           (seq 2 (length df - 2)).

Definition detect_fvgs (df : list Bar) (lookback : Z) : list FVG :=
  if (length df <? 10)%nat then []
  else scan (df_tail lookback df).

(** The explicit three-bar sequence of the specification's first example
    (the middle bar and the closes are free in the example). *)
Definition example_bars : list Bar :=
  [ mkBar 1 9.9 10 9.8 9.95 1000;
    mkBar 2 10 10.8 9.95 10.7 1000;
    mkBar 3 11 16 10.5 15 1000 ].

(** Seven quiet bars in front of the example's three. *)
Definition quiet_bar (t : Z) : Bar := mkBar t 9.9 10 9.8 9.9 1000.

Definition padded_example_bars : list Bar :=
  map quiet_bar [-6; -5; -4; -3; -2; -1; 0]%Z ++ example_bars.

(** Ten bars: a bullish gap [10, 10.5] formed by rows 6..8, then a row that
    trades wholly below the gap. *)
Definition gap_down_bars : list Bar :=
  map quiet_bar [1; 2; 3; 4; 5; 6; 7]%Z ++
  [ mkBar 8 10 10.8 9.95 10.7 1000;
    mkBar 9 10.6 10.9 10.5 10.8 1000;
    mkBar 10 9.97 9.98 9.6 9.7 1000 ].

End Fvg.

(** ** Python built-ins used by the detectors *)

(** [sorted(xs, key=...)] is a stable sort.  [before y x] says that [y] must
    stay in front of [x]: [key y < key x] for an ascending sort,
    [key y > key x] for [reverse=True].  Elements with equal keys keep their
    input order in both cases, as in Python. *)
Fixpoint insert_sorted {A : Type} (before : A -> A -> bool) (x : A) (l : list A)
  : list A :=
  match l with
  | [] => [x]
  | y :: l' => if before y x then y :: insert_sorted before x l' else x :: y :: l'
  end.

Definition sorted_by {A : Type} (before : A -> A -> bool) (l : list A) : list A :=
  fold_right (insert_sorted before) [] l.

(** [max(xs, key=...)] and [min(xs, key=...)]: the first extremal element. *)
Definition max_by {A : Type} (key : A -> Q) (l : list A) : option A :=
  match l with
  | [] => None
  | x :: r => Some (fold_left (fun best y => if Qgtb (key y) (key best) then y else best) r x)
  end.

Definition min_by {A : Type} (key : A -> Q) (l : list A) : option A :=
  match l with
  | [] => None
  | x :: r => Some (fold_left (fun best y => if Qltb (key y) (key best) then y else best) r x)
  end.

(** [xs[a:b]] for [0 <= a]. *)
Definition slice {A : Type} (a b : nat) (l : list A) : list A :=
  firstn (b - a) (skipn a l).

(** Exceptions the embedded functions can raise. *)
Inductive exn : Type :=
| ZeroDivisionError
| TypeError
| IndexError.

Inductive result (A : Type) : Type :=
| Ok (a : A)
| Raise (e : exn).
Arguments Ok {A} a.
Arguments Raise {A} e.

(** ** order_blocks.py *)

Module OrderBlocks.

Definition _obs_overlap (ob1 ob2 : OrderBlock) : bool :=
  negb (Qltb (ob_high ob1) (ob_low ob2) || Qgtb (ob_low ob1) (ob_high ob2)).

(** One iteration of the pruning loop: [ob] is appended to [filtered] unless
    it overlaps a block already there. *)
Definition prune_step (filtered : list OrderBlock) (ob : OrderBlock)
  : list OrderBlock :=
  if existsb (fun existing_ob => _obs_overlap ob existing_ob) filtered
  then filtered
  else filtered ++ [ob].

Definition _remove_overlapping_obs (order_blocks : list OrderBlock)
  : list OrderBlock :=
  match order_blocks with
  | [] => []
  | _ =>
      let sorted_obs :=
        sorted_by (fun y x => Qgtb (ob_strength y) (ob_strength x)) order_blocks in
      fold_left prune_step sorted_obs []
  end.

(** Three blocks: the strongest overlaps the second, the third stands
    apart. *)
Definition strongest_block : OrderBlock := mkOrderBlock 102 100 1 "bullish" 0.9.

Definition example_blocks : list OrderBlock :=
  [ mkOrderBlock 103 101 2 "bullish" 0.6;
    strongest_block;
    mkOrderBlock 106 105 3 "bearish" 0.5 ].



End OrderBlocks.

(** ** liquidity.py *)

Module Liquidity.

(** [merged[-1] = zone]. *)
Definition set_last {A : Type} (l : list A) (x : A) : list A :=
  removelast l ++ [x].

(** One iteration of the merging loop over the price-sorted zones.  The
    relative distance divides by the price of the last merged zone, a Python
    float: a zero price raises. *)
Definition merge_step (tolerance : Q) (merged : list LiquidityZone)
  (zone : LiquidityZone) : result (list LiquidityZone) :=
  match rev merged with
  | [] => Raise IndexError
  | last_merged :: _ =>
      if Qeq_bool (lz_price last_merged) 0 then Raise ZeroDivisionError
      else if Qleb (Qabs (lz_price zone - lz_price last_merged) / lz_price last_merged)
                   tolerance
              && String.eqb (lz_zone_type zone) (lz_zone_type last_merged)
      then
        if Qgtb (lz_strength zone) (lz_strength last_merged)
        then Ok (set_last merged zone)
        else Ok merged
      else Ok (merged ++ [zone])
  end.

Fixpoint merge_loop (tolerance : Q) (merged : list LiquidityZone)
  (rest : list LiquidityZone) : result (list LiquidityZone) :=
  match rest with
  | [] => Ok merged
  | zone :: rest' =>
      match merge_step tolerance merged zone with
      | Ok merged' => merge_loop tolerance merged' rest'
      | Raise e => Raise e
      end
  end.

Definition _merge_nearby_zones (zones : list LiquidityZone) (tolerance : Q)
  : result (list LiquidityZone) :=
  match sorted_by (fun y x => Qltb (lz_price y) (lz_price x)) zones with
  | [] => Ok []
  | first :: rest => merge_loop tolerance [first] rest
  end.

(** The default of the source: [tolerance = 0.002]. *)
Definition default_tolerance : Q := 0.002.

(** Relative price distance of [b] from [a], as the merging step measures it
    against the lower-priced zone. *)
Definition rel_distance (a b : LiquidityZone) : Q :=
  Qabs (lz_price b - lz_price a) / lz_price a.

(** Three zones: two buy-side levels 0.1 % apart with a sell-side level
    between them. *)
Definition interleaved_zones : list LiquidityZone :=
  [ mkLiquidityZone 100 "buy_side" 0.5;
    mkLiquidityZone 100.1 "buy_side" 0.6;
    mkLiquidityZone 100.05 "sell_side" 0.7 ].

End Liquidity.

(** ** structure.py *)

Module Structure.

(** [_identify_swings(data, mode, window)]: the values [data[i]] that are
    extremal over [window] rows on either side. *)
Definition is_swing (mode : string) (window : nat) (data : list Q) (i : nat)
  : bool :=
  let d := nth i data 0 in
  if String.eqb mode "high" then
    forallb (fun x => Qgeb d x) (slice (i - window) i data)
    && forallb (fun x => Qgeb d x) (slice (i + 1) (i + window + 1) data)
  else
    forallb (fun x => Qleb d x) (slice (i - window) i data)
    && forallb (fun x => Qleb d x) (slice (i + 1) (i + window + 1) data).

Definition _identify_swings (data : list Q) (mode : string) (window : nat)
  : list Q :=
  flat_map (fun i => if is_swing mode window data i then [nth i data 0] else [])
           (seq window (length data - window - window)).

(** [xs[-5:] if len(xs) >= 5 else xs]. *)
Definition last5 (xs : list Q) : list Q :=
  if (5 <=? length xs)%nat then skipn (length xs - 5) xs else xs.

(** [all(xs[i] < xs[i+1] for i in range(len(xs)-1))] and its mirror. *)
Definition all_rising (xs : list Q) : bool :=
  forallb (fun i => Qltb (nth i xs 0) (nth (i + 1) xs 0)) (seq 0 (length xs - 1)).

Definition all_falling (xs : list Q) : bool :=
  forallb (fun i => Qgtb (nth i xs 0) (nth (i + 1) xs 0)) (seq 0 (length xs - 1)).

(** [Series.max()] and [Series.min()] of a non-empty column. *)
Definition series_max (xs : list Q) : Q :=
  match xs with
  | [] => 0
  | x :: r => fold_left (fun m y => if Qgtb y m then y else m) r x
  end.

Definition series_min (xs : list Q) : Q :=
  match xs with
  | [] => 0
  | x :: r => fold_left (fun m y => if Qltb y m then y else m) r x
  end.

(** [_is_ranging(df, threshold)].  The quotient is a numpy float: a zero
    [range_low] yields an infinity or a NaN rather than an exception, and
    only the negative infinity passes [<= threshold]. *)
Definition _is_ranging (df : list Bar) (threshold : Q) : bool :=
  let recent := df_tail 30 df in
  let range_high := series_max (map bar_high recent) in
  let range_low := series_min (map bar_low recent) in
  if Qeq_bool range_low 0 then Qltb (range_high - range_low) 0
  else Qleb ((range_high - range_low) / range_low) threshold.

Definition analyze_market_structure (df : list Bar) : string :=
  if (length df <? 30)%nat then "insufficient_data"
  else
    let swing_highs := _identify_swings (map bar_high df) "high" 5 in
    let swing_lows := _identify_swings (map bar_low df) "low" 5 in
    let recent_highs := last5 swing_highs in
    let recent_lows := last5 swing_lows in
    let enough := (2 <=? length recent_highs)%nat && (2 <=? length recent_lows)%nat in
    if enough && all_rising recent_highs && all_rising recent_lows
    then "higher_highs_higher_lows"
    else if enough && all_rising recent_highs
    then "higher_highs"
    else if enough && all_falling recent_highs && all_falling recent_lows
    then "lower_highs_lower_lows"
    else if enough && all_falling recent_lows
    then "lower_lows"
    else if _is_ranging df 0.03 then "ranging"
    else "choppy".

(** The labels other than the sentinel. *)
Definition structure_labels : list string :=
  [ "higher_highs_higher_lows"; "higher_highs"; "lower_highs_lower_lows";
    "lower_lows"; "ranging"; "choppy" ].

(** [n] identical rows. *)
Definition flat_bars (n : nat) : list Bar :=
  repeat (mkBar 0 100 101 99 100 1000) n.

End Structure.

(** ** pre_market_routine.py *)

Module Routine.

(** [app.models.trading.BiasType]. *)
Inductive BiasType : Type := BULLISH | BEARISH | NEUTRAL.

Definition bias_eqb (a b : BiasType) : bool :=
  match a, b with
  | BULLISH, BULLISH | BEARISH, BEARISH | NEUTRAL, NEUTRAL => true
  | _, _ => false
  end.

(** An entry of [session_data['sweeps']]. *)
Record Sweep : Type := mkSweep {
  sweep_type : string;
  sweep_level : string
}.

(** *** Step 5: day type *)

Record Scores : Type := mkScores {
  trend_score : Z;
  reversal_score : Z;
  consolidation_score : Z
}.

Definition add_trend (n : Z) (s : Scores) : Scores :=
  mkScores (trend_score s + n) (reversal_score s) (consolidation_score s).
Definition add_reversal (n : Z) (s : Scores) : Scores :=
  mkScores (trend_score s) (reversal_score s + n) (consolidation_score s).
Definition add_consolidation (n : Z) (s : Scores) : Scores :=
  mkScores (trend_score s) (reversal_score s) (consolidation_score s + n).

Definition bsl_swept (sweeps : list Sweep) : bool :=
  existsb (fun s => String.eqb (sweep_type s) "BSL") sweeps.
Definition ssl_swept (sweeps : list Sweep) : bool :=
  existsb (fun s => String.eqb (sweep_type s) "SSL") sweeps.

Definition strong_obs (order_blocks : list OrderBlock) : list OrderBlock :=
  filter (fun ob => Qgtb (ob_strength ob) 0.7) order_blocks.

Definition unfilled_fvgs (fvgs : list FVG) : list FVG :=
  filter (fun fvg => negb (fvg_filled fvg)) fvgs.

(** The three counters after the four scoring blocks, in source order. *)
Definition day_type_scores (htf_bias : BiasType) (sweeps : list Sweep)
  (order_blocks : list OrderBlock) (fvgs : list FVG) : Scores :=
  let s0 := mkScores 0 0 0 in
  let s1 := if negb (bias_eqb htf_bias NEUTRAL)
            then add_trend 2 s0 else add_consolidation 2 s0 in
  let s2 := if bsl_swept sweeps && ssl_swept sweeps then add_reversal 3 s1
            else if bsl_swept sweeps || ssl_swept sweeps then add_trend 2 s1
            else add_consolidation 2 s1 in
  let s3 := if (0 <? length (strong_obs order_blocks))%nat
            then add_reversal 1 s2 else s2 in
  let s4 := if (2 <? length (unfilled_fvgs fvgs))%nat
            then add_trend 1 s3 else s3 in
  s4.

(** What the reasoning string of each branch interpolates. *)
Inductive Reasoning : Type :=
| TrendReasoning (bias : BiasType) (n_unfilled : nat)
| ReversalReasoning (n_strong : nat)
| ConsolidationReasoning.

Definition _step5_day_type (htf_bias : BiasType) (sweeps : list Sweep)
  (order_blocks : list OrderBlock) (fvgs : list FVG) : string * Reasoning :=
  let s := day_type_scores htf_bias sweeps order_blocks fvgs in
  if (Z.max (reversal_score s) (consolidation_score s) + 1 <=? trend_score s)%Z
  then ("trend", TrendReasoning htf_bias (length (unfilled_fvgs fvgs)))
  else if (Z.max (trend_score s) (consolidation_score s) + 1 <=? reversal_score s)%Z
  then ("reversal", ReversalReasoning (length (strong_obs order_blocks)))
  else ("consolidation", ConsolidationReasoning).

(** The additive terms as the specification words them, one indicator per
    term. *)
Definition ind (b : bool) (n : Z) : Z := if b then n else 0%Z.

Definition both_sides (sweeps : list Sweep) : bool :=
  bsl_swept sweeps && ssl_swept sweeps.
Definition one_side (sweeps : list Sweep) : bool :=
  xorb (bsl_swept sweeps) (ssl_swept sweeps).
Definition no_side (sweeps : list Sweep) : bool :=
  negb (bsl_swept sweeps) && negb (ssl_swept sweeps).
Definition has_strong_ob (order_blocks : list OrderBlock) : bool :=
  existsb (fun ob => Qgtb (ob_strength ob) 0.7) order_blocks.
Definition count_unfilled (fvgs : list FVG) : nat :=
  length (filter (fun f => negb (fvg_filled f)) fvgs).

Definition spec_trend (htf_bias : BiasType) (sweeps : list Sweep)
  (fvgs : list FVG) : Z :=
  (ind (negb (bias_eqb htf_bias NEUTRAL)) 2 + ind (one_side sweeps) 2
   + ind (2 <? count_unfilled fvgs)%nat 1)%Z.

Definition spec_reversal (sweeps : list Sweep) (order_blocks : list OrderBlock)
  : Z :=
  (ind (both_sides sweeps) 3 + ind (has_strong_ob order_blocks) 1)%Z.

Definition spec_consolidation (htf_bias : BiasType) (sweeps : list Sweep) : Z :=
  (ind (bias_eqb htf_bias NEUTRAL) 2 + ind (no_side sweeps) 2)%Z.

Definition spec_day_type (t r c : Z) : string :=
  if (Z.max r c + 1 <=? t)%Z then "trend"
  else if (Z.max t c + 1 <=? r)%Z then "reversal"
  else "consolidation".

(** *** Step 3: dealing range *)

Record DealingRange : Type := mkDealingRange {
  dr_high : Q;
  dr_low : Q;
  dr_equilibrium : Q;
  dr_premium : Q;
  dr_discount : Q;
  dr_source : string
}.

(** The block "Calculate zones" of [_step3_dealing_range]. *)
Definition calculate_zones (high low : Q) (range_source : string) : DealingRange :=
  let range_size := high - low in
  let equilibrium := low + (range_size * 0.50) in
  let premium := low + (range_size * 0.618) in
  let discount := low + (range_size * 0.382) in
  mkDealingRange high low equilibrium premium discount range_source.

(** Calendar day of a time stamp given in seconds. *)
Definition date_of (ts : Z) : Z := (ts / 86400)%Z.

(** The preferred source: the high and low of the last completed daily row.
    [dfd = None] stands for a fetch that raised; every exception inside the
    [try] block leaves both values unset. *)
Definition prev_day_high_low (dfd : option (list Bar)) (today_ny : Z)
  : option (Q * Q) :=
  match dfd with
  | None => None
  | Some rows =>
      let rows := sorted_by (fun y x => (bar_timestamp y <? bar_timestamp x)%Z) rows in
      match rev rows with
      | [] => None
      | last_row :: before =>
          if (today_ny <=? date_of (bar_timestamp last_row))%Z then
            match before with
            | prev_row :: _ => Some (bar_high prev_row, bar_low prev_row)
            | [] => None
            end
          else Some (bar_high last_row, bar_low last_row)
      end
  end.

(** [_step3_dealing_range]: the three sources in priority order, then the
    zones.  [htf_range] is [htf_data.get('dealing_range')] when it carries
    both keys; [recent] is the 50-row daily frame of the last fallback, whose
    extremes are NaN when it has no row ([None] here). *)
Definition _step3_dealing_range (dfd : option (list Bar)) (today_ny : Z)
  (htf_range : option (Q * Q)) (recent : list Bar) : option DealingRange :=
  match prev_day_high_low dfd today_ny with
  | Some (high, low) => Some (calculate_zones high low "prev_day")
  | None =>
      match htf_range with
      | Some (high, low) => Some (calculate_zones high low "htf")
      | None =>
          match recent with
          | [] => None
          | _ => Some (calculate_zones
                         (Structure.series_max (map bar_high recent))
                         (Structure.series_min (map bar_low recent))
                         "recent_1D")
          end
      end
  end.

(** *** Step 6: the two scenarios *)

(** [round(x, 2)]: to the nearest hundredth, ties to the even one. *)
Definition round_half_even (x : Q) : Z :=
  let f := Qfloor x in
  let d := x - inject_Z f in
  if Qltb d (1 # 2) then f
  else if Qgtb d (1 # 2) then (f + 1)%Z
  else if Z.even f then f else (f + 1)%Z.

Definition round2 (x : Q) : Q := inject_Z (round_half_even (x * 100)) / 100.

(** The entry-type text: a label, the gap size it interpolates (if any) and
    whether [" [RECLAIM]"] was appended. *)
Record EntryType : Type := mkEntryType {
  et_label : string;
  et_pts : option Q;
  et_reclaim : bool
}.

Inductive Confluence : Type :=
| CText (s : string)
| CAligned (e : EntryType).

Definition _is_statistically_reachable (target_price current_price adr : Q)
  : bool :=
  if Qleb adr 0 then true
  else
    let max_reach := adr * 0.5 in
    let distance := Qabs (target_price - current_price) in
    if Qgtb distance max_reach then false else true.

(** The FVG chosen by stages 1 and 2, with what those stages set. *)
Record Selection : Type := mkSelection {
  sel_fvg : option FVG;
  sel_is_continuation : bool;
  sel_entry_type : EntryType;
  sel_setup_quality : string
}.

(** [if xs:] on a list that may be [None]. *)
Definition truthy_list {A : Type} (l : option (list A)) : bool :=
  match l with
  | Some (_ :: _) => true
  | _ => false
  end.

(** The scenario before the final rounding. *)
Record RawScenario : Type := mkRawScenario {
  raw_entry_high : Q;
  raw_entry_low : Q;
  raw_entry_type : EntryType;
  raw_condition_note : bool;
  raw_stop_loss : Q;
  raw_targets : list Q;
  raw_invalidation : Q;
  raw_rr : Q;
  raw_confluence : list Confluence;
  raw_setup_quality : string
}.

(** The returned dictionary. *)
Record TradeScenario : Type := mkTradeScenario {
  sc_entry_high : Q;
  sc_entry_low : Q;
  sc_entry_type : EntryType;
  sc_condition_note : bool;
  sc_stop_loss : Q;
  sc_targets : list Q;
  sc_invalidation : Q;
  sc_risk_reward : Q;
  sc_confluence_factors : list Confluence;
  sc_valid_time_window : string;
  sc_setup_quality : string
}.

Definition finalize (r : RawScenario) : TradeScenario :=
  mkTradeScenario
    (round2 (raw_entry_high r)) (round2 (raw_entry_low r))
    (raw_entry_type r) (raw_condition_note r)
    (round2 (raw_stop_loss r))
    (map round2 (raw_targets r))
    (round2 (raw_invalidation r))
    (round2 (raw_rr r))
    (raw_confluence r)
    "08:30-11:00 NY"
    (raw_setup_quality r).

(** What stage 4 ("finalize entry parameters") fixes. *)
Record Entry : Type := mkEntry {
  en_high : Q;
  en_low : Q;
  en_stop_loss : Q;
  en_type : EntryType;
  en_quality : string;
  en_market : bool
}.

(** [while len(targets) < 3: targets.append(targets[-1] + step)]; three
    rounds of fuel cover every list, and a non-empty one needs at most two. *)
Fixpoint pad_targets (fuel : nat) (step : Q) (targets : list Q) : list Q :=
  match fuel with
  | O => targets
  | S k =>
      if (length targets <? 3)%nat
      then pad_targets k step (targets ++ [last targets 0 + step])
      else targets
  end.

(** The risk/reward grading shared by both directions: [first] and [second]
    are the rewards to [targets[0]] and [targets[1]]. *)
Definition grade (risk first : Q) (second : option Q) (is_continuation : bool)
  (setup_quality : string) : string * Q :=
  let reward := first in
  let rr := if Qgtb risk 0 then reward / risk else 0 in
  let '(setup_quality, reward) :=
    if Qgtb risk 0 && Qltb rr 1.0 then ("INVALID", reward)
    else if Qgtb risk 0 && Qltb rr 2.0 then
      match second with
      | Some reward2 =>
          (if Qltb (reward2 / risk) 1.5 then "C-" else setup_quality, reward2)
      | None => (setup_quality, reward)
      end
    else (setup_quality, reward) in
  let setup_quality :=
    if is_continuation && Qgtb risk 0 && negb (String.eqb setup_quality "INVALID")
    then if Qltb (first / risk) 1.5 then "C-" else setup_quality
    else setup_quality in
  (setup_quality, if Qgtb risk 0 then reward / risk else 0).

Definition adr : Q := 5.0.

Definition long_ideal (current_price : Q) (dealing_range : DealingRange)
  (f : FVG) : bool :=
  String.eqb (fvg_direction f) "bullish" && negb (fvg_invalidated f)
  && Qltb (fvg_high f) (dr_equilibrium dealing_range)
  && _is_statistically_reachable (fvg_high f) current_price adr.

Definition long_select (current_price : Q) (dealing_range : DealingRange)
  (fvgs : list FVG) (intraday_fvgs : option (list FVG)) : Selection :=
  let none := mkSelection None false
                (mkEntryType "Discount Level (Math)" None false) "C" in
  let ideal_fvgs := filter (long_ideal current_price dealing_range) fvgs in
  match ideal_fvgs with
  | _ :: _ =>
      let mitigated_fvgs := filter fvg_mitigated ideal_fvgs in
      match max_by fvg_high mitigated_fvgs with
      | Some selected_fvg =>
          mkSelection (Some selected_fvg) false
            (mkEntryType "Bullish HTF FVG (Retest)" (Some (fvg_gap_size selected_fvg)) false)
            "A"
      | None =>
          match max_by fvg_high ideal_fvgs with
          | Some selected_fvg =>
              mkSelection (Some selected_fvg) false
                (mkEntryType "Bullish HTF FVG" (Some (fvg_gap_size selected_fvg)) false)
                "A"
          | None => none
          end
      end
  | [] =>
      if truthy_list intraday_fvgs then
        let continuation_fvgs :=
          filter (fun f => String.eqb (fvg_direction f) "bullish"
                           && negb (fvg_invalidated f)
                           && Qltb (fvg_high f) current_price)
                 (match intraday_fvgs with Some l => l | None => [] end) in
        match max_by fvg_high continuation_fvgs with
        | Some nearest_fvg =>
            mkSelection (Some nearest_fvg) true
              (mkEntryType "Intraday Continuation FVG" (Some (fvg_gap_size nearest_fvg)) false)
              "B"
        | None => none
        end
      else none
  end.

(** Stage 3 ("trigger switch"): no FVG was selected although a
    bullish one lies on the right side of equilibrium. *)
Definition long_market_execution (dealing_range : DealingRange)
  (fvgs : list FVG) (sel : Selection) : bool :=
  match sel_fvg sel with
  | Some _ => false
  | None =>
      match filter (fun f => String.eqb (fvg_direction f) "bullish"
                             && negb (fvg_invalidated f)
                             && Qltb (fvg_high f) (dr_equilibrium dealing_range))
                   fvgs with
      | _ :: _ => true
      | [] => false
      end
  end.

(** Stage 4: the entry zone, the stop and what goes with them. *)
Definition long_entry (current_price : Q) (dealing_range : DealingRange)
  (fvgs : list FVG) (sel : Selection) : Entry :=
  let market_execution_mode := long_market_execution dealing_range fvgs sel in
  match sel_fvg sel with
  | Some selected_fvg =>
      mkEntry (fvg_high selected_fvg) (fvg_low selected_fvg)
              (fvg_low selected_fvg - 1.0)
              (sel_entry_type sel) (sel_setup_quality sel) market_execution_mode
  | None =>
      if market_execution_mode then
        mkEntry current_price current_price (current_price - 2.0)
                (mkEntryType "Market Execution (Wait for MSS)" None false) "C+"
                market_execution_mode
      else
        let entry_level := dr_discount dealing_range in
        mkEntry (entry_level + 1.0) (entry_level - 1.0) (entry_level - 1.0 - 2.5)
                (sel_entry_type sel) (sel_setup_quality sel) market_execution_mode
  end.

(** The target ladder before rounding. *)
Definition long_targets (dealing_range : DealingRange)
  (entry_high stop_loss : Q) : list Q :=
  let potential_targets :=
    [dr_equilibrium dealing_range; dr_premium dealing_range; dr_high dealing_range] in
  let valid_targets := filter (fun t => Qgtb t entry_high) potential_targets in
  let valid_targets :=
    match valid_targets with
    | [] => [entry_high + (entry_high - stop_loss) * 2.0]
    | _ => valid_targets
    end in
  let targets := sorted_by Qltb valid_targets in
  pad_targets 3 1.0 targets.

Definition long_raw (current_price : Q) (htf_bias : BiasType)
  (dealing_range : DealingRange) (fvgs : list FVG)
  (intraday_fvgs : option (list FVG)) : RawScenario :=
  let sel := long_select current_price dealing_range fvgs intraday_fvgs in
  let e := long_entry current_price dealing_range fvgs sel in
  let reclaim := Qltb current_price (en_low e) && negb (en_market e) in
  let entry_type :=
    if reclaim then mkEntryType (et_label (en_type e)) (et_pts (en_type e)) true
    else en_type e in
  let targets := long_targets dealing_range (en_high e) (en_stop_loss e) in
  let invalidation := dr_low dealing_range - 1.0 in
  let risk := en_high e - en_stop_loss e in
  let graded :=
    grade risk (nth 0 targets 0 - en_high e)
          (if (1 <? length targets)%nat then Some (nth 1 targets 0 - en_high e) else None)
          (sel_is_continuation sel) (en_quality e) in
  let confluence :=
    (if bias_eqb htf_bias BULLISH then [CText "HTF bias bullish"] else [])
    ++ (if Qltb current_price (dr_equilibrium dealing_range)
        then [CText "Price in discount"] else [])
    ++ (match sel_fvg sel with Some _ => [CAligned entry_type] | None => [] end)
    ++ [CText "NY killzone 8:30-11:00 AM"] in
  mkRawScenario (en_high e) (en_low e) entry_type reclaim (en_stop_loss e) targets
                invalidation (snd graded) confluence (fst graded).

Definition _build_long_scenario (current_price : Q) (htf_bias : BiasType)
  (dealing_range : DealingRange) (fvgs : list FVG)
  (intraday_fvgs : option (list FVG)) : TradeScenario :=
  finalize (long_raw current_price htf_bias dealing_range fvgs intraday_fvgs).

Definition short_ideal (current_price : Q) (dealing_range : DealingRange)
  (f : FVG) : bool :=
  String.eqb (fvg_direction f) "bearish" && negb (fvg_invalidated f)
  && Qgtb (fvg_low f) (dr_equilibrium dealing_range)
  && _is_statistically_reachable (fvg_low f) current_price adr.

Definition short_select (current_price : Q) (dealing_range : DealingRange)
  (fvgs : list FVG) (intraday_fvgs : option (list FVG)) : Selection :=
  let none := mkSelection None false
                (mkEntryType "Premium Level (Math)" None false) "C" in
  let ideal_fvgs := filter (short_ideal current_price dealing_range) fvgs in
  match ideal_fvgs with
  | _ :: _ =>
      let mitigated_fvgs := filter fvg_mitigated ideal_fvgs in
      match min_by fvg_low mitigated_fvgs with
      | Some selected_fvg =>
          mkSelection (Some selected_fvg) false
            (mkEntryType "Bearish HTF FVG (Retest)" (Some (fvg_gap_size selected_fvg)) false)
            "A"
      | None =>
          match min_by fvg_low ideal_fvgs with
          | Some selected_fvg =>
              mkSelection (Some selected_fvg) false
                (mkEntryType "Bearish HTF FVG" (Some (fvg_gap_size selected_fvg)) false)
                "A"
          | None => none
          end
      end
  | [] =>
      if truthy_list intraday_fvgs then
        let continuation_fvgs :=
          filter (fun f => String.eqb (fvg_direction f) "bearish"
                           && negb (fvg_invalidated f)
                           && Qgtb (fvg_low f) current_price)
                 (match intraday_fvgs with Some l => l | None => [] end) in
        match min_by fvg_low continuation_fvgs with
        | Some nearest_fvg =>
            mkSelection (Some nearest_fvg) true
              (mkEntryType "Intraday Continuation FVG" (Some (fvg_gap_size nearest_fvg)) false)
              "B"
        | None => none
        end
      else none
  end.

(** Stage 3 ("trigger switch"): no FVG was selected although a
    bearish one lies on the right side of equilibrium. *)
Definition short_market_execution (dealing_range : DealingRange)
  (fvgs : list FVG) (sel : Selection) : bool :=
  match sel_fvg sel with
  | Some _ => false
  | None =>
      match filter (fun f => String.eqb (fvg_direction f) "bearish"
                             && negb (fvg_invalidated f)
                             && Qgtb (fvg_low f) (dr_equilibrium dealing_range))
                   fvgs with
      | _ :: _ => true
      | [] => false
      end
  end.

(** Stage 4: the entry zone, the stop and what goes with them. *)
Definition short_entry (current_price : Q) (dealing_range : DealingRange)
  (fvgs : list FVG) (sel : Selection) : Entry :=
  let market_execution_mode := short_market_execution dealing_range fvgs sel in
  match sel_fvg sel with
  | Some selected_fvg =>
      mkEntry (fvg_high selected_fvg) (fvg_low selected_fvg)
              (fvg_high selected_fvg + 1.0)
              (sel_entry_type sel) (sel_setup_quality sel) market_execution_mode
  | None =>
      if market_execution_mode then
        mkEntry current_price current_price (current_price + 2.0)
                (mkEntryType "Market Execution (Wait for MSS)" None false) "C+"
                market_execution_mode
      else
        let entry_level := dr_premium dealing_range in
        mkEntry (entry_level + 1.0) (entry_level - 1.0) (entry_level + 1.0 + 2.5)
                (sel_entry_type sel) (sel_setup_quality sel) market_execution_mode
  end.

(** The target ladder before rounding. *)
Definition short_targets (dealing_range : DealingRange)
  (entry_low stop_loss : Q) : list Q :=
  let potential_targets :=
    [dr_equilibrium dealing_range; dr_discount dealing_range; dr_low dealing_range] in
  let valid_targets := filter (fun t => Qltb t entry_low) potential_targets in
  let valid_targets :=
    match valid_targets with
    | [] => [entry_low - (stop_loss - entry_low) * 2.0]
    | _ => valid_targets
    end in
  let targets := sorted_by Qgtb valid_targets in
  pad_targets 3 (- 1.0) targets.

Definition short_raw (current_price : Q) (htf_bias : BiasType)
  (dealing_range : DealingRange) (fvgs : list FVG)
  (intraday_fvgs : option (list FVG)) : RawScenario :=
  let sel := short_select current_price dealing_range fvgs intraday_fvgs in
  let e := short_entry current_price dealing_range fvgs sel in
  let reclaim := Qgtb current_price (en_high e) && negb (en_market e) in
  let entry_type :=
    if reclaim then mkEntryType (et_label (en_type e)) (et_pts (en_type e)) true
    else en_type e in
  let targets := short_targets dealing_range (en_low e) (en_stop_loss e) in
  let invalidation := dr_high dealing_range + 1.0 in
  let risk := en_stop_loss e - en_low e in
  let graded :=
    grade risk (en_low e - nth 0 targets 0)
          (if (1 <? length targets)%nat then Some (en_low e - nth 1 targets 0) else None)
          (sel_is_continuation sel) (en_quality e) in
  let confluence :=
    (if bias_eqb htf_bias BEARISH then [CText "HTF bias bearish"] else [])
    ++ (if Qgtb current_price (dr_equilibrium dealing_range)
        then [CText "Price in premium"] else [])
    ++ (match sel_fvg sel with Some _ => [CAligned entry_type] | None => [] end)
    ++ [CText "NY killzone 8:30-11:00 AM"] in
  mkRawScenario (en_high e) (en_low e) entry_type reclaim (en_stop_loss e) targets
                invalidation (snd graded) confluence (fst graded).

Definition _build_short_scenario (current_price : Q) (htf_bias : BiasType)
  (dealing_range : DealingRange) (fvgs : list FVG)
  (intraday_fvgs : option (list FVG)) : TradeScenario :=
  finalize (short_raw current_price htf_bias dealing_range fvgs intraday_fvgs).

(** A two-cent dealing range and a reachable bullish gap below it. *)
Definition narrow_range : DealingRange := calculate_zones 100.02 100 "prev_day".

Definition gap_below : FVG :=
  mkFVG 99.9 99.6 0 0.3 "bullish" false false false.

(** A reachable bearish gap above the same range. *)
Definition gap_above : FVG :=
  mkFVG 100.4 100.1 0 0.3 "bearish" false false false.

(** A dealing range whose high and low coincide. *)
Definition flat_range : DealingRange := calculate_zones 100 100 "prev_day".

(** An ordinary dealing range. *)
Definition wide_range : DealingRange := calculate_zones 110 100 "prev_day".

End Routine.

(** ** langchain/coach.py: the plan validator *)

Module Coach.

(** The stored scenario as the validator reads it: a dictionary whose keys
    may be absent ([None], as [dict.get] returns). *)
Record EntryZone : Type := mkEntryZone {
  ez_high : option Q;
  ez_low : option Q
}.

Record Plan : Type := mkPlan {
  plan_entry_zone : option EntryZone;
  plan_stop_loss : option Q;
  plan_invalidation : option Q;
  plan_targets : list Q
}.

(** Truth value of [dict.get(key)] on a numeric entry: [None] and zero are
    false. *)
Definition truthy (v : option Q) : bool :=
  match v with
  | None => false
  | Some q => negb (Qeq_bool q 0)
  end.

(** The message returned next to the status, with the number it
    interpolates. *)
Inductive Message : Type :=
| NoPlan
| IncompletePlanData
| HitInvalidation (invalidation : Q)
| HitStopLoss (stop_loss : Q)
| InEntryZone
| AboveZoneWaiting (entry_high : Q)
| BelowZoneHoldingStop
| BelowZoneWaiting (entry_low : Q)
| AboveZoneHoldingStop.

(** [a <= b] where [b] may be [None]: comparing a float with [None] raises. *)
Definition le_opt (a : Q) (b : option Q) : result bool :=
  match b with
  | Some q => Ok (Qleb a q)
  | None => Raise TypeError
  end.

Definition ge_opt (a : Q) (b : option Q) : result bool :=
  match b with
  | Some q => Ok (Qgeb a q)
  | None => Raise TypeError
  end.

Definition bind {A B : Type} (r : result A) (k : A -> result B) : result B :=
  match r with
  | Ok a => k a
  | Raise e => Raise e
  end.

Notation "x <- r ;; k" := (bind r (fun x => k))
  (at level 61, r at next level, right associativity).

(** [plan = None] stands for a missing or empty dictionary. *)
Definition _validate_plan_status (plan : option Plan) (current_price : Q)
  (direction : string) : result (string * Message) :=
  match plan with
  | None => Ok ("N/A", NoPlan)
  | Some plan =>
      let entry_zone :=
        match plan_entry_zone plan with
        | Some z => z
        | None => mkEntryZone None None
        end in
      let entry_high := ez_high entry_zone in
      let entry_low := ez_low entry_zone in
      let stop_loss := plan_stop_loss plan in
      let invalidation := plan_invalidation plan in
      match entry_high, entry_low, stop_loss with
      | Some eh, Some el, Some sl =>
          if negb (truthy entry_high && truthy entry_low && truthy stop_loss)
          then Ok ("N/A", IncompletePlanData)
          else if String.eqb direction "long" then
            hit_inv <- le_opt current_price invalidation ;;
            if hit_inv
            then Ok ("INVALIDATED",
                     HitInvalidation (match invalidation with Some v => v | None => 0 end))
            else if Qleb current_price sl then Ok ("INVALIDATED", HitStopLoss sl)
            else if Qleb el current_price && Qleb current_price eh
            then Ok ("ACTIVE", InEntryZone)
            else if Qgtb current_price eh then Ok ("WAITING", AboveZoneWaiting eh)
            else Ok ("ACTIVE", BelowZoneHoldingStop)
          else
            hit_inv <- ge_opt current_price invalidation ;;
            if hit_inv
            then Ok ("INVALIDATED",
                     HitInvalidation (match invalidation with Some v => v | None => 0 end))
            else if Qgeb current_price sl then Ok ("INVALIDATED", HitStopLoss sl)
            else if Qleb el current_price && Qleb current_price eh
            then Ok ("ACTIVE", InEntryZone)
            else if Qltb current_price el then Ok ("WAITING", BelowZoneWaiting el)
            else Ok ("ACTIVE", AboveZoneHoldingStop)
      | _, _, _ => Ok ("N/A", IncompletePlanData)
      end
  end.

(** The rule as the specification words it, for a plan whose four levels
    are given. *)
Definition spec_status (direction : string)
  (entry_high entry_low stop_loss invalidation price : Q) : string :=
  if String.eqb direction "long" then
    if Qleb price invalidation || Qleb price stop_loss then "INVALIDATED"
    else if Qleb entry_low price && Qleb price entry_high then "ACTIVE"
    else if Qgtb price entry_high then "WAITING"
    else "ACTIVE"
  else
    if Qgeb price invalidation || Qgeb price stop_loss then "INVALIDATED"
    else if Qleb entry_low price && Qleb price entry_high then "ACTIVE"
    else if Qltb price entry_low then "WAITING"
    else "ACTIVE".

Definition full_plan (entry_high entry_low stop_loss invalidation : Q) : Plan :=
  mkPlan (Some (mkEntryZone (Some entry_high) (Some entry_low)))
         (Some stop_loss) (Some invalidation) [].

(** The scenario of the specification's examples 3 and 4, with an
    invalidation level below the stop. *)
Definition example_plan : Plan := full_plan 101 100 98 97.


(** The statuses the validator's docstring lists. *)
Definition returned_statuses : list string :=
  [ "N/A"; "INVALIDATED"; "ACTIVE"; "WAITING" ].

End Coach.

(** * Further functions of the cited files *)

(** ** fvg.py: the significance filter; analyzer.py: the FVGs it keeps *)

Module FvgFilter.

(** [filter_significant_fvgs(fvgs, min_size)].  The ratio divides two Python
    floats, so a gap whose low edge is zero raises; the comprehension stops
    at the first such gap. *)
Fixpoint filter_significant_fvgs (fvgs : list FVG) (min_size : Q)
  : result (list FVG) :=
  match fvgs with
  | [] => Ok []
  | fvg :: rest =>
      if Qeq_bool (fvg_low fvg) 0 then Raise ZeroDivisionError
      else
        match filter_significant_fvgs rest min_size with
        | Ok kept =>
            if Qgeb (fvg_gap_size fvg / fvg_low fvg) min_size
            then Ok (fvg :: kept) else Ok kept
        | Raise e => Raise e
        end
  end.

(** What [ICTAnalyzer.analyze] keeps of the detector's output:
    [[fvg for fvg in fvgs if not fvg.filled][:5]]. *)
Definition analyzer_fvgs (df : list Bar) : list FVG :=
  firstn 5 (filter (fun fvg => negb (fvg_filled fvg)) (Fvg.detect_fvgs df 100)).

End FvgFilter.

(** ** structure.py: break of structure *)

Module StructureBos.
Import Structure.

(** [detect_break_of_structure(df)]. *)
Definition detect_break_of_structure (df : list Bar) : bool * string :=
  if (length df <? 20)%nat then (false, "none")
  else
    let swing_highs := _identify_swings (map bar_high df) "high" 5 in
    let swing_lows := _identify_swings (map bar_low df) "low" 5 in
    match rev swing_highs, rev swing_lows with
    | recent_swing_high :: _, recent_swing_low :: _ =>
        let current_price := last (map bar_close df) 0 in
        if Qgtb current_price recent_swing_high then (true, "bullish")
        else if Qltb current_price recent_swing_low then (true, "bearish")
        else (false, "none")
    | _, _ => (false, "none")
    end.

End StructureBos.

(** ** liquidity.py: detection *)

Module LiquidityDetect.
Import Liquidity.

(** [_find_swing_points(data, mode, window)]: as the swing test of
    structure.py, with the row index kept. *)
Definition _find_swing_points (data : list Q) (mode : string) (window : nat)
  : list (nat * Q) :=
  flat_map (fun i => if Structure.is_swing mode window data i
                     then [(i, nth i data 0)] else [])
           (seq window (length data - window - window)).

(** The test of [_find_equal_levels] on one earlier price.  The quotient is
    a numpy float: a zero [prev_price] gives an infinity or a NaN, which
    fail the comparison. *)
Definition close_to (tolerance current_price prev_price : Q) : bool :=
  if Qeq_bool prev_price 0 then false
  else Qleb (Qabs (current_price - prev_price) / prev_price) tolerance.

(** [_find_equal_levels(data, tolerance)]. *)
Definition _find_equal_levels (data : list Q) (tolerance : Q)
  : list (nat * Q) :=
  flat_map (fun i =>
              let current_price := nth i data 0 in
              let nearby := slice (i - 10) i data in
              if existsb (close_to tolerance current_price) nearby
              then [(i, current_price)] else [])
           (seq 5 (length data - 5 - 5)).

(** [Series.sum()] and [Series.mean()] of a non-empty column. *)
Definition series_sum (xs : list Q) : Q := fold_left Qplus xs 0.

Definition series_mean (xs : list Q) : Q :=
  series_sum xs / inject_Z (Z.of_nat (length xs)).

(** [_calculate_liquidity_strength(df, idx, price, price_type)].
    [has_volume] stands for ['volume' in df.columns].  [idx / len(df)]
    divides two Python ints and raises on an empty frame. *)
Definition _calculate_liquidity_strength (has_volume : bool) (df : list Bar)
  (idx : nat) (price : Q) (price_type : string) : result Q :=
  match df with
  | [] => Raise ZeroDivisionError
  | _ =>
      let strength := 0.3 in
      let recency := inject_Z (Z.of_nat idx) / inject_Z (Z.of_nat (length df)) in
      let strength := strength + recency * 0.3 in
      let column := if String.eqb price_type "high"
                    then map bar_high df else map bar_low df in
      let nearby_touches :=
        length (filter (fun v => Qgeb v (price * 0.999) && Qleb v (price * 1.001))
                       column) in
      let strength :=
        if (3 <=? nearby_touches)%nat then strength + 0.3
        else if (nearby_touches =? 2)%nat then strength + 0.2
        else strength in
      let strength :=
        if has_volume && (idx <? length df)%nat then
          let avg_volume := series_mean (map bar_volume df) in
          let current_volume := nth idx (map bar_volume df) 0 in
          if Qgtb current_volume (avg_volume * 1.5) then strength + 0.1
          else strength
        else strength in
      Ok (if Qltb 1.0 strength then 1.0 else strength)
  end.

(** One of the four loops of [detect_liquidity_zones]: a zone per reported
    level whose index lies in the frame; [bonus] adds the 0.2 (capped at 1)
    of the equal-level loops. *)
Fixpoint zones_of_levels (has_volume : bool) (df : list Bar) (zone_type : string)
  (price_type : string) (bonus : bool) (levels : list (nat * Q))
  : result (list LiquidityZone) :=
  match levels with
  | [] => Ok []
  | (idx, price) :: rest =>
      if (idx <? length df)%nat then
        match _calculate_liquidity_strength has_volume df idx price price_type with
        | Raise e => Raise e
        | Ok s =>
            let strength :=
              if bonus then (if Qltb 1.0 (s + 0.2) then 1.0 else s + 0.2) else s in
            match zones_of_levels has_volume df zone_type price_type bonus rest with
            | Raise e => Raise e
            | Ok zones => Ok (mkLiquidityZone price zone_type strength :: zones)
            end
        end
      else zones_of_levels has_volume df zone_type price_type bonus rest
  end.

(** The zones collected by the four loops, before merging. *)
Definition collect_zones (has_volume : bool) (df : list Bar)
  : result (list LiquidityZone) :=
  let highs := map bar_high df in
  let lows := map bar_low df in
  match zones_of_levels has_volume df "buy_side" "high" false
          (_find_swing_points highs "high" 5) with
  | Raise e => Raise e
  | Ok z1 =>
  match zones_of_levels has_volume df "sell_side" "low" false
          (_find_swing_points lows "low" 5) with
  | Raise e => Raise e
  | Ok z2 =>
  match zones_of_levels has_volume df "buy_side" "high" true
          (_find_equal_levels highs 0.001) with
  | Raise e => Raise e
  | Ok z3 =>
  match zones_of_levels has_volume df "sell_side" "low" true
          (_find_equal_levels lows 0.001) with
  | Raise e => Raise e
  | Ok z4 => Ok (z1 ++ z2 ++ z3 ++ z4)
  end end end end.

(** [detect_liquidity_zones(df, lookback)]. *)
Definition detect_liquidity_zones (has_volume : bool) (df : list Bar)
  (lookback : Z) : result (list LiquidityZone) :=
  if (length df <? 20)%nat then Ok []
  else
    let df := df_tail lookback df in
    match collect_zones has_volume df with
    | Raise e => Raise e
    | Ok liquidity_zones =>
        match _merge_nearby_zones liquidity_zones default_tolerance with
        | Raise e => Raise e
        | Ok merged =>
            Ok (sorted_by (fun y x => Qgtb (lz_strength y) (lz_strength x)) merged)
        end
    end.

(** A frame of [n] rows that zigzags between two price levels. *)
Definition zigzag_bars (n : nat) : list Bar :=
  map (fun i => if Nat.even i
                then mkBar (Z.of_nat i) 100 101 99 100 1000
                else mkBar (Z.of_nat i) 102 103 101 102 1500)
      (seq 0 n).

End LiquidityDetect.

(** ** numpy and pandas floats *)

(** Where the source computes on numpy or pandas floats, a division by zero
    or an empty window yields an infinity or a NaN instead of an exception.
    Such values are a finite rational, an infinity or NaN; a zero divisor is
    taken as [+0.0], the only zero the modelled code divides by. *)
Inductive npfloat : Type :=
| Fin (q : Q)
| PInf
| NInf
| NaN.

Definition np_neg (a : npfloat) : npfloat :=
  match a with
  | Fin x => Fin (- x)
  | PInf => NInf
  | NInf => PInf
  | NaN => NaN
  end.

Definition np_add (a b : npfloat) : npfloat :=
  match a, b with
  | NaN, _ | _, NaN => NaN
  | Fin x, Fin y => Fin (x + y)
  | PInf, NInf | NInf, PInf => NaN
  | PInf, _ | _, PInf => PInf
  | NInf, _ | _, NInf => NInf
  end.

Definition np_sub (a b : npfloat) : npfloat := np_add a (np_neg b).

(** The sign of a finite value as an infinity-preserving factor. *)
Definition np_scale_inf (inf : npfloat) (x : Q) : npfloat :=
  if Qltb 0 x then inf else if Qltb x 0 then np_neg inf else NaN.

Definition np_mul (a b : npfloat) : npfloat :=
  match a, b with
  | NaN, _ | _, NaN => NaN
  | Fin x, Fin y => Fin (x * y)
  | Fin x, PInf | PInf, Fin x => np_scale_inf PInf x
  | Fin x, NInf | NInf, Fin x => np_scale_inf NInf x
  | PInf, PInf | NInf, NInf => PInf
  | PInf, NInf | NInf, PInf => NInf
  end.

Definition np_div (a b : npfloat) : npfloat :=
  match a, b with
  | NaN, _ | _, NaN => NaN
  | Fin x, Fin y =>
      if Qeq_bool y 0 then np_scale_inf PInf x else Fin (x / y)
  | Fin _, PInf | Fin _, NInf => Fin 0
  | PInf, Fin y => if Qltb y 0 then NInf else PInf
  | NInf, Fin y => if Qltb y 0 then PInf else NInf
  | _, _ => NaN
  end.

(** [a > b] and [a < b]: false as soon as a NaN is involved. *)
Definition np_gt (a b : npfloat) : bool :=
  match a, b with
  | NaN, _ | _, NaN => false
  | Fin x, Fin y => Qgtb x y
  | PInf, PInf | NInf, NInf => false
  | PInf, _ | _, NInf => true
  | _, _ => false
  end.

Definition np_lt (a b : npfloat) : bool := np_gt b a.

(** Python's [min(a, b)]: [b] if [b < a], else [a]. *)
Definition py_min (a b : npfloat) : npfloat := if np_lt b a then b else a.

(** [Series.rolling(window).mean()] at row [i]: NaN until [window] rows are
    available. *)
Definition rolling_mean (window : nat) (xs : list Q) (i : nat) : npfloat :=
  if (i + 1 <? window)%nat then NaN
  else Fin (LiquidityDetect.series_mean (slice (i + 1 - window) (i + 1) xs)).

(** ** order_blocks.py: detection *)

Module OrderBlockDetect.
Import OrderBlocks.

(** A constructor call of a validated schema either gives the object or
    raises a validation error. *)
Inductive validated (A : Type) : Type :=
| Valid (a : A)
| ValidationError.
Arguments Valid {A} a.
Arguments ValidationError {A}.

Definition body_size (c : Bar) : Q := Qabs (bar_close c - bar_open c).
Definition candle_range (c : Bar) : Q := bar_high c - bar_low c.
Definition body_ratio (c : Bar) : npfloat :=
  np_div (Fin (body_size c)) (Fin (candle_range c)).

(** The strength expression of the loop, before validation. *)
Definition raw_strength (current : Bar) (avg_body : npfloat) : npfloat :=
  py_min
    (np_add
       (np_add
          (np_mul (np_sub (np_div (Fin (body_size current)) avg_body) (Fin 1))
                  (Fin 0.5))
          (np_mul (body_ratio current) (Fin 0.3)))
       (Fin 0.2))
    (Fin 1.0).

(** [OrderBlock(..., strength=float(strength))] with the field constraint
    [ge=0, le=1]. *)
Definition make_order_block (current : Bar) (direction : string)
  (strength : npfloat) : validated OrderBlock :=
  match strength with
  | Fin s =>
      if Qleb 0 s && Qleb s 1
      then Valid (mkOrderBlock (bar_high current) (bar_low current)
                               (bar_timestamp current) direction s)
      else ValidationError
  | _ => ValidationError
  end.

(** The body of the loop at row [i] of the trimmed frame: nothing, or the
    constructor call for a confirmed candidate. *)
Definition order_block_at (df : list Bar) (i : nat)
  : option (validated OrderBlock) :=
  match nth_error df i with
  | None => None
  | Some current =>
      let avg_body := rolling_mean 20 (map body_size df) i in
      let next_candles := slice (i + 1) (i + 6) df in
      let is_strong :=
        np_gt (Fin (body_size current)) (np_mul avg_body (Fin 1.5)) in
      let is_directional := np_gt (body_ratio current) (Fin 0.6) in
      if negb (is_strong && is_directional) then None
      else
        let is_bullish := Qgtb (bar_close current) (bar_open current) in
        let direction := if is_bullish then "bullish" else "bearish" in
        let structure_break :=
          if is_bullish
          then Qgtb (Structure.series_max (map bar_close next_candles))
                    (bar_high current)
          else Qltb (Structure.series_min (map bar_close next_candles))
                    (bar_low current) in
        if negb structure_break then None
        else Some (make_order_block current direction
                                    (raw_strength current avg_body))
  end.

(** The loop [for i in range(10, len(df) - 5)]: the first failing
    constructor call aborts it. *)
Fixpoint collect_blocks (df : list Bar) (rows : list nat)
  : validated (list OrderBlock) :=
  match rows with
  | [] => Valid []
  | i :: rest =>
      match order_block_at df i with
      | None => collect_blocks df rest
      | Some ValidationError => ValidationError
      | Some (Valid ob) =>
          match collect_blocks df rest with
          | Valid obs => Valid (ob :: obs)
          | ValidationError => ValidationError
          end
      end
  end.

(** [detect_order_blocks(df, lookback)]. *)
Definition detect_order_blocks (df : list Bar) (lookback : Z)
  : validated (list OrderBlock) :=
  if (length df <? 20)%nat then Valid []
  else
    let df := df_tail lookback df in
    match collect_blocks df (seq 10 (length df - 5 - 10)) with
    | Valid order_blocks => Valid (_remove_overlapping_obs order_blocks)
    | ValidationError => ValidationError
    end.

(** Thirty rows: quiet bars, then at row 22 a wide bullish candle that the
    following rows close above. *)
Definition impulse_bars : list Bar :=
  map (fun i => if (i =? 22)%nat then mkBar (Z.of_nat i) 100 104.2 99.9 104 3000
                else if (i <? 22)%nat then mkBar (Z.of_nat i) 100 100.6 99.8 100.4 1000
                else mkBar (Z.of_nat i) 104.5 105.2 104.3 105 1000)
      (seq 0 30).

End OrderBlockDetect.

(** ** analyzer.py *)

Module Analyzer.
Import Routine.

(** [Series.max()] and [Series.min()] of a column that may be empty. *)
Definition np_max (xs : list Q) : npfloat :=
  match xs with
  | [] => NaN
  | _ => Fin (Structure.series_max xs)
  end.

Definition np_min (xs : list Q) : npfloat :=
  match xs with
  | [] => NaN
  | _ => Fin (Structure.series_min xs)
  end.

(** What [_determine_bias] reads off the frame. *)
Record BiasInputs : Type := mkBiasInputs {
  current_price : npfloat;
  sma_20 : npfloat;
  sma_50 : npfloat;
  recent_high : npfloat;
  recent_low : npfloat;
  prev_high : npfloat;
  prev_low : npfloat;
  price_change : npfloat
}.

Definition bias_inputs (df : list Bar) : BiasInputs :=
  let n := length df in
  let closes := map bar_close df in
  let highs := map bar_high df in
  let lows := map bar_low df in
  let current_price := Fin (last closes 0) in
  let close_10 := Fin (nth (n - 10) closes 0) in
  mkBiasInputs
    current_price
    (rolling_mean 20 closes (n - 1))
    (rolling_mean 50 closes (n - 1))
    (np_max (slice (n - 20) n highs))
    (np_min (slice (n - 20) n lows))
    (np_max (slice (n - 40) (n - 20) highs))
    (np_min (slice (n - 40) (n - 20) lows))
    (np_div (np_sub current_price close_10) close_10).

(** The three criteria, each for the bullish and for the bearish side. *)
Definition ma_bullish (b : BiasInputs) : bool :=
  np_gt (current_price b) (sma_20 b) && np_gt (sma_20 b) (sma_50 b).
Definition ma_bearish (b : BiasInputs) : bool :=
  np_lt (current_price b) (sma_20 b) && np_lt (sma_20 b) (sma_50 b).
Definition swings_bullish (b : BiasInputs) : bool :=
  np_gt (recent_high b) (prev_high b) && np_gt (recent_low b) (prev_low b).
Definition swings_bearish (b : BiasInputs) : bool :=
  np_lt (recent_high b) (prev_high b) && np_lt (recent_low b) (prev_low b).
Definition momentum_bullish (b : BiasInputs) : bool :=
  np_gt (price_change b) (Fin 0.02).
Definition momentum_bearish (b : BiasInputs) : bool :=
  np_lt (price_change b) (Fin (- 0.02)).

(** The two scores after the three scoring blocks, in source order. *)
Definition bias_scores (b : BiasInputs) : Z * Z :=
  let bullish_score := 0%Z in
  let bearish_score := 0%Z in
  let '(bullish_score, bearish_score) :=
    if ma_bullish b then ((bullish_score + 2)%Z, bearish_score)
    else if ma_bearish b then (bullish_score, (bearish_score + 2)%Z)
    else (bullish_score, bearish_score) in
  let '(bullish_score, bearish_score) :=
    if swings_bullish b then ((bullish_score + 2)%Z, bearish_score)
    else if swings_bearish b then (bullish_score, (bearish_score + 2)%Z)
    else (bullish_score, bearish_score) in
  let '(bullish_score, bearish_score) :=
    if momentum_bullish b then ((bullish_score + 1)%Z, bearish_score)
    else if momentum_bearish b then (bullish_score, (bearish_score + 1)%Z)
    else (bullish_score, bearish_score) in
  (bullish_score, bearish_score).

(** [_determine_bias(df)]; [None] is Python's [None]. *)
Definition _determine_bias (df : option (list Bar)) : BiasType :=
  match df with
  | None => NEUTRAL
  | Some df =>
      if (length df <? 20)%nat then NEUTRAL
      else
        let '(bullish_score, bearish_score) := bias_scores (bias_inputs df) in
        if (bearish_score + 2 <=? bullish_score)%Z then BULLISH
        else if (bullish_score + 2 <=? bearish_score)%Z then BEARISH
        else NEUTRAL
  end.

(** [_find_dealing_range(df)]: the pair is the dictionary's ["high"] and
    ["low"]. *)
Definition _find_dealing_range (df : list Bar) : option (Q * Q) :=
  if (length df <? 50)%nat then None
  else
    let recent := df_tail 50 df in
    Some (Structure.series_max (map bar_high recent),
          Structure.series_min (map bar_low recent)).



(** Sixty rows climbing by one point a row. *)
Definition rising_bars (n : nat) : list Bar :=
  map (fun i => let p := inject_Z (Z.of_nat i) + 100 in
                mkBar (Z.of_nat i) p (p + 1) (p - 1) (p + 0.5) 1000)
      (seq 0 n).

End Analyzer.

(** ** pre_market_routine.py: session structure, sweeps, confidence *)

Module RoutineSession.
Import Routine.

(** A sweep dictionary: the sell-side one carries no ['price']. *)
Record SweepDict : Type := mkSweepDict {
  sd_type : string;
  sd_level : string;
  sd_price : option Q
}.











(** Python's [max(a, b)] and [min(a, b)] on floats. *)
Definition py_max_q (a b : Q) : Q := if Qgtb b a then b else a.
Definition py_min_q (a b : Q) : Q := if Qltb b a then b else a.

(** [PreMarketRoutineService._calculate_confidence]. *)
Definition _calculate_confidence (htf_bias : BiasType) (day_type : string)
  (order_blocks : list OrderBlock) (sweeps : list SweepDict) : Q :=
  let confidence := 0.5 in
  let confidence :=
    if negb (bias_eqb htf_bias NEUTRAL) then confidence + 0.2 else confidence in
  let confidence :=
    if String.eqb day_type "trend" then confidence + 0.15
    else if String.eqb day_type "consolidation" then confidence - 0.15
    else confidence in
  let confidence :=
    if (2 <? length order_blocks)%nat then confidence + 0.1 else confidence in
  let confidence :=
    if (0 <? length sweeps)%nat then confidence + 0.05 else confidence in
  py_min_q (py_max_q confidence 0.0) 1.0.


End RoutineSession.

(** ** pre_market_routine.py: step 6 and the stored plan *)

Module RoutinePlan.
Import Routine.

(** [analysis.fvgs] of [ICTAnalyzer.analyze] on the frame fetched for the
    primary timeframe: the early return on an empty frame, otherwise the
    unfilled gaps the analyzer keeps. *)
Definition analysis_fvgs (df : list Bar) : list FVG :=
  match df with
  | [] => []
  | _ :: _ => FvgFilter.analyzer_fvgs df
  end.

(** The price step 6 works with: the last close of the 5-minute frame cut at
    [cutoff_ny], or [0.0] when no row is left. *)
Definition current_price (df : list Bar) (cutoff_ny : option Z) : Q :=
  let df :=
    match cutoff_ny with
    | Some cutoff_local => filter (fun c => (bar_timestamp c <=? cutoff_local)%Z) df
    | None => df
    end in
  if (0 <? length df)%nat then last (map bar_close df) 0 else 0.0.

(** [_step6_trade_plan]: [htf_fvgs] is [htf_data['fvgs']] of step 1, [df]
    the 5-minute frame and [df_15m] the frame of the intraday analysis. *)
Definition _step6_trade_plan (htf_bias : BiasType) (dealing_range : DealingRange)
  (htf_fvgs : list FVG) (df df_15m : list Bar) (cutoff_ny : option Z)
  : TradeScenario * TradeScenario :=
  let current_price := current_price df cutoff_ny in
  let intraday_fvgs := analysis_fvgs df_15m in
  let all_fvgs := intraday_fvgs ++ htf_fvgs in
  let long_scenario :=
    _build_long_scenario current_price htf_bias dealing_range all_fvgs
                         (Some intraday_fvgs) in
  let short_scenario :=
    _build_short_scenario current_price htf_bias dealing_range all_fvgs
                          (Some intraday_fvgs) in
  (long_scenario, short_scenario).

(** The scenario as the coach reads it back from the report.  Step 6.5 only
    adds [ai_rating] and [ai_reasoning] and prepends to [entry_conditions],
    and the JSON round trip keeps the numbers, so the keys the validator
    reads are the ones the builder wrote. *)
Definition stored_plan (scenario : TradeScenario) : Coach.Plan :=
  Coach.mkPlan
    (Some (Coach.mkEntryZone (Some (sc_entry_high scenario))
                             (Some (sc_entry_low scenario))))
    (Some (sc_stop_loss scenario))
    (Some (sc_invalidation scenario))
    (sc_targets scenario).

End RoutinePlan.

(** ** langchain/coach.py: the context cache *)

Module CoachCache.

Definition CONTEXT_CACHE_TTL_SECONDS : Z := 60.

(** [timedelta(seconds=n)] in microseconds, the resolution of [datetime]. *)
Definition timedelta_seconds (n : Z) : Z := (n * 1000000)%Z.

Section Cache.
Context {Meta : Type}.

(** The dataclass [ContextSection]; [Meta] stands for the metadata
    dictionary and [generated_at] counts microseconds. *)
Record ContextSection : Type := mkContextSection {
  cs_name : string;
  cs_text : string;
  cs_metadata : Meta;
  cs_source : string;
  cs_generated_at : Z
}.

(** [self.context_cache]: a dictionary in insertion order. *)
Definition context_cache : Type := list (string * ContextSection).

(** [d.get(key)]. *)
Definition dict_get (key : string) (d : context_cache) : option ContextSection :=
  match find (fun kv => String.eqb (fst kv) key) d with
  | Some kv => Some (snd kv)
  | None => None
  end.

(** [d[key] = value]: an existing key keeps its place. *)
Fixpoint dict_set (key : string) (value : ContextSection) (d : context_cache)
  : context_cache :=
  match d with
  | [] => [(key, value)]
  | kv :: rest =>
      if String.eqb (fst kv) key then (key, value) :: rest
      else kv :: dict_set key value rest
  end.

(** [d.pop(key, None)], the popped value dropped. *)
Definition dict_pop (key : string) (d : context_cache) : context_cache :=
  filter (fun kv => negb (String.eqb (fst kv) key)) d.

Definition _cache_key (session_id identifier : string) : string :=
  session_id ++ ":" ++ identifier.

(** [_get_cached_section]: the value returned and the cache it leaves;
    [utcnow] is the clock reading.  A dataclass instance is always truthy, so
    [if not entry] tests for [None]. *)
Definition _get_cached_section (cache : context_cache) (utcnow : Z)
  (session_id identifier : string) : option ContextSection * context_cache :=
  let key := _cache_key session_id identifier in
  match dict_get key cache with
  | None => (None, cache)
  | Some entry =>
      if (timedelta_seconds CONTEXT_CACHE_TTL_SECONDS <? utcnow - cs_generated_at entry)%Z
      then (None, dict_pop key cache)
      else (Some entry, cache)
  end.

Definition _store_section (cache : context_cache)
  (session_id identifier : string) (section : ContextSection) : context_cache :=
  let key := _cache_key session_id identifier in
  dict_set key section cache.

(** [_get_or_build_section]; [builder] is awaited only on a miss. *)
Definition _get_or_build_section (cache : context_cache) (utcnow : Z)
  (session_id identifier : string) (builder : unit -> option ContextSection)
  : option ContextSection * context_cache :=
  let '(cached, cache) := _get_cached_section cache utcnow session_id identifier in
  match cached with
  | Some cached => (Some cached, cache)
  | None =>
      match builder tt with
      | Some section =>
          (Some section, _store_section cache session_id identifier section)
      | None => (None, cache)
      end
  end.

End Cache.

Arguments ContextSection : clear implicits.
Arguments context_cache : clear implicits.

(** A section generated at second 10. *)
Definition example_section : ContextSection unit :=
  mkContextSection "trades" "two trades" tt "db.trades" 10000000.

End CoachCache.

(** ** pre_market_routine.py: range helpers *)

Module RoutineHelpers.
Import Routine RoutineSession.

(** The dictionary [_calculate_intraday_range] returns. *)
Record IntradayRange : Type := mkIntradayRange {
  ir_high : Q;
  ir_low : Q;
  ir_equilibrium : Q;
  ir_premium : Q;
  ir_discount : Q
}.

Definition _calculate_intraday_range (anchor_price current_high current_low : Q)
  (direction : string) : IntradayRange :=
  let '(range_high, range_low) :=
    if String.eqb direction "long"
    then (current_high, py_min_q anchor_price current_low)
    else (py_max_q anchor_price current_high, current_low) in
  let range_size := range_high - range_low in
  let equilibrium := range_low + (range_size * 0.5) in
  mkIntradayRange range_high range_low equilibrium
                  (range_low + (range_size * 0.618))
                  (range_low + (range_size * 0.382)).

(** [Series.mean()]: NaN on an empty series. *)
Definition np_mean (xs : list Q) : npfloat :=
  match xs with
  | [] => NaN
  | _ :: _ => Fin (LiquidityDetect.series_mean xs)
  end.

(** [_calculate_adr(df_daily, period)]. *)
Definition _calculate_adr (df_daily : list Bar) (period : Z) : npfloat :=
  if (Z.of_nat (length df_daily) <? period)%Z then Fin 0.0
  else
    let df := df_tail period df_daily in
    np_mean (map (fun c => bar_high c - bar_low c) df).

(** Three daily rows with ranges 2, 4 and 6. *)
Definition daily_rows : list Bar :=
  [ mkBar 1 100 102 100 101 1000;
    mkBar 2 101 105 101 104 1000;
    mkBar 3 104 108 102 103 1000 ].

End RoutineHelpers.

(** ** analyzer.py: the confidence score *)

Module AnalyzerConfidence.
Import Routine.

(** [str.lower()] on ASCII text: the letters A..Z move to a..z, every other
    character stays. *)
Definition lower_char (c : Ascii.ascii) : Ascii.ascii :=
  let n := Ascii.nat_of_ascii c in
  if ((65 <=? n) && (n <=? 90))%nat then Ascii.ascii_of_nat (n + 32) else c.

Fixpoint lower (s : string) : string :=
  match s with
  | EmptyString => EmptyString
  | String c rest => String (lower_char c) (lower rest)
  end.

(** [sub in s]. *)
Definition contains (sub s : string) : bool :=
  match String.index 0 sub s with
  | Some _ => true
  | None => false
  end.

(** The test "market structure clarity". *)
Definition structure_is_clear (market_structure : string) : bool :=
  contains "higher" (lower market_structure)
  || contains "lower" (lower market_structure).

(** [sum(ob.strength for ob in order_blocks[:3]) / min(len(order_blocks), 3)]. *)
Definition avg_strength (order_blocks : list OrderBlock) : Q :=
  LiquidityDetect.series_sum (map ob_strength (firstn 3 order_blocks))
  / inject_Z (Z.of_nat (Nat.min (length order_blocks) 3)).

(** [ICTAnalyzer._calculate_confidence]. *)
Definition _calculate_confidence (bias : BiasType) (order_blocks : list OrderBlock)
  (fvgs : list FVG) (market_structure : string) : Q :=
  let confidence := 0.5 in
  let confidence :=
    if negb (bias_eqb bias NEUTRAL) then confidence + 0.15 else confidence in
  let confidence :=
    match order_blocks with
    | _ :: _ => confidence + avg_strength order_blocks * 0.2
    | [] => confidence
    end in
  let confidence :=
    if structure_is_clear market_structure then confidence + 0.1 else confidence in
  let confidence :=
    match fvgs with
    | _ :: _ => confidence + 0.05
    | [] => confidence
    end in
  if Qltb 1.0 confidence then 1.0 else confidence.

End AnalyzerConfidence.

(** * Vocabulary of the statements *)

(** What one forming triple [(c1, _, c3)] at row [i] makes of an FVG. *)
Definition bullish_from (c1 c3 : Bar) (f : FVG) : Prop :=
  fvg_direction f = "bullish" /\ fvg_low f = bar_high c1
  /\ fvg_high f = bar_low c3
  /\ fvg_gap_size f = bar_low c3 - bar_high c1
  /\ fvg_timestamp f = bar_timestamp c3.

Definition bearish_from (c1 c3 : Bar) (f : FVG) : Prop :=
  fvg_direction f = "bearish" /\ fvg_high f = bar_low c1
  /\ fvg_low f = bar_high c3
  /\ fvg_gap_size f = bar_low c1 - bar_high c3
  /\ fvg_timestamp f = bar_timestamp c3.

(** The scan over the trimmed frame [d], complete and sound. *)
Definition scan_spec (d : list Bar) (out : list FVG) : Prop :=
  (forall i c1 c3, (2 <= i)%nat ->
     nth_error d (i - 2) = Some c1 -> nth_error d i = Some c3 ->
     (bar_high c1 < bar_low c3 -> exists f, In f out /\ bullish_from c1 c3 f)
     /\ (~ bar_high c1 < bar_low c3 -> bar_high c3 < bar_low c1 ->
         exists f, In f out /\ bearish_from c1 c3 f))
  /\ (forall f, In f out ->
        exists i c1 c3, (2 <= i)%nat
          /\ nth_error d (i - 2) = Some c1 /\ nth_error d i = Some c3
          /\ ((bar_high c1 < bar_low c3 /\ bullish_from c1 c3 f)
              \/ (~ bar_high c1 < bar_low c3 /\ bar_high c3 < bar_low c1
                  /\ bearish_from c1 c3 f))).

(** A bar's range [[low, high]] meets the gap [[fvg_low, fvg_high]]. *)
Definition touches_gap (f : FVG) (c : Bar) : Prop :=
  bar_low c <= fvg_high f /\ fvg_low f <= bar_high c.

(** The flags of an FVG against the rows [later] that follow its forming
    triple, as the detector sets them. *)
Definition flags_spec (later : list Bar) (f : FVG) : Prop :=
  (fvg_direction f = "bullish" ->
     (fvg_mitigated f = true <-> exists c, In c later /\ bar_low c <= fvg_high f)
     /\ (fvg_invalidated f = true <-> exists c, In c later /\ bar_close c < fvg_low f))
  /\ (fvg_direction f = "bearish" ->
     (fvg_mitigated f = true <-> exists c, In c later /\ fvg_low f <= bar_high c)
     /\ (fvg_invalidated f = true <-> exists c, In c later /\ fvg_high f < bar_close c))
  /\ ((exists c, In c later /\ touches_gap f c) -> fvg_mitigated f = true)
  /\ fvg_filled f = fvg_invalidated f.

(** The same gap seen again after more rows arrived: same triple, same
    edges, and no flag that was set is cleared. *)
Definition flags_kept (f f' : FVG) : Prop :=
  fvg_direction f' = fvg_direction f
  /\ fvg_high f' = fvg_high f /\ fvg_low f' = fvg_low f
  /\ fvg_timestamp f' = fvg_timestamp f
  /\ (fvg_mitigated f = true -> fvg_mitigated f' = true)
  /\ (fvg_invalidated f = true -> fvg_invalidated f' = true)
  /\ fvg_filled f' = fvg_invalidated f'.



(** Price ranges of two order blocks share no price. *)
Definition disjoint_ranges (a b : OrderBlock) : Prop :=
  forall x : Q,
    ~ ((ob_low a <= x /\ x <= ob_high a) /\ (ob_low b <= x /\ x <= ob_high b)).

(** A gap whose low edge does not exceed its high edge, as the detector
    emits them. *)
Definition wf_gap (f : FVG) : Prop := fvg_low f <= fvg_high f.

(** The three levels of a dealing range are the stated fractions of its
    own high and low, as step 3 computes them. *)
Definition zones_of (dr : Routine.DealingRange) : Prop :=
  Routine.dr_equilibrium dr
    == Routine.dr_low dr + (Routine.dr_high dr - Routine.dr_low dr) * 0.5
  /\ Routine.dr_premium dr
     == Routine.dr_low dr + (Routine.dr_high dr - Routine.dr_low dr) * 0.618
  /\ Routine.dr_discount dr
     == Routine.dr_low dr + (Routine.dr_high dr - Routine.dr_low dr) * 0.382.

(** Target ladders: at least three prices, all beyond the entry bound, in
    order; strictly or weakly. *)
Definition rising_above (bound : Q) (ts : list Q) : Prop :=
  (3 <= length ts)%nat /\ Forall (fun t => bound < t) ts
  /\ StronglySorted Qlt ts.

Definition falling_below (bound : Q) (ts : list Q) : Prop :=
  (3 <= length ts)%nat /\ Forall (fun t => t < bound) ts
  /\ StronglySorted (fun a b => b < a) ts.

Definition nondecreasing_from (bound : Q) (ts : list Q) : Prop :=
  (3 <= length ts)%nat /\ Forall (fun t => bound <= t) ts
  /\ StronglySorted Qle ts.

Definition nonincreasing_from (bound : Q) (ts : list Q) : Prop :=
  (3 <= length ts)%nat /\ Forall (fun t => t <= bound) ts
  /\ StronglySorted (fun a b => b <= a) ts.

(** The pool a scenario may draw its gap from. *)
Definition gap_pool (fvgs : list FVG) (intraday_fvgs : option (list FVG))
  : list FVG :=
  fvgs ++ match intraday_fvgs with Some l => l | None => [] end.

(** The merged zones read from the last one backwards: prices do not
    increase, and two neighbours of one type are more than [tol] apart
    relative to the lower one. *)
Inductive apart_chain (tol : Q) : list LiquidityZone -> Prop :=
| apart_one (z : LiquidityZone) : apart_chain tol [z]
| apart_cons (y x : LiquidityZone) (l : list LiquidityZone) :
    lz_price x <= lz_price y ->
    (lz_zone_type y = lz_zone_type x -> tol < Liquidity.rel_distance x y) ->
    apart_chain tol (x :: l) ->
    apart_chain tol (y :: x :: l).

(** A row whose close lies between its low and its high. *)
Definition wf_bar (c : Bar) : Prop :=
  bar_low c <= bar_close c /\ bar_close c <= bar_high c.

(** Row [i] of [data] is a local maximum (minimum) over [window] rows on
    either side: no row of [[i - window, i + window]] exceeds (undercuts)
    it. *)
Definition local_max (window : nat) (data : list Q) (i : nat) (x : Q) : Prop :=
  (window <= i < length data - window)%nat /\ nth_error data i = Some x
  /\ forall j y, (i - window <= j <= i + window)%nat ->
                 nth_error data j = Some y -> y <= x.

Definition local_min (window : nat) (data : list Q) (i : nat) (x : Q) : Prop :=
  (window <= i < length data - window)%nat /\ nth_error data i = Some x
  /\ forall j y, (i - window <= j <= i + window)%nat ->
                 nth_error data j = Some y -> x <= y.

(** Every zone of [l] is matched in [out] by a zone of its type that is at
    least as strong. *)
Definition zones_covered (out l : list LiquidityZone) : Prop :=
  forall z, In z l ->
    exists k, In k out /\ lz_zone_type k = lz_zone_type z
              /\ lz_strength z <= lz_strength k.

(** A zone as the detector builds them from the frame [df]: a buy-side
    zone at some row's high or a sell-side zone at some row's low, with a
    strength between 0.3 and 1. *)
Definition zone_of_frame (df : list Bar) (z : LiquidityZone) : Prop :=
  0.3 <= lz_strength z /\ lz_strength z <= 1
  /\ ((lz_zone_type z = "buy_side" /\ exists c, In c df /\ lz_price z = bar_high c)
      \/ (lz_zone_type z = "sell_side"
          /\ exists c, In c df /\ lz_price z = bar_low c)).

(** An order block as the detector builds them from the frame [df]: the
    high, low and time stamp of one row, a direction, and a strength above
    0.63 and at most 1. *)
Definition block_of_frame (df : list Bar) (ob : OrderBlock) : Prop :=
  0.63 < ob_strength ob /\ ob_strength ob <= 1
  /\ (ob_direction ob = "bullish" \/ ob_direction ob = "bearish")
  /\ exists c, In c df /\ ob_high ob = bar_high c /\ ob_low ob = bar_low c
               /\ ob_timestamp ob = bar_timestamp c.


(** The five levels of a dealing range in ascending order. *)
Definition levels_ascending (dr : Routine.DealingRange) : Prop :=
  Routine.dr_low dr <= Routine.dr_discount dr
  /\ Routine.dr_discount dr <= Routine.dr_equilibrium dr
  /\ Routine.dr_equilibrium dr <= Routine.dr_premium dr
  /\ Routine.dr_premium dr <= Routine.dr_high dr.




(** The six grades a scenario can carry. *)
Definition setup_grades : list string :=
  [ "A"; "B"; "C+"; "C"; "C-"; "INVALID" ].

(** An "ideal" gap for a long: bullish, not invalidated, below equilibrium
    and within half the average daily range (2.5 points) of the price; and a
    "continuation" gap: bullish, not invalidated, below the price.  The
    short candidates mirror them on the gap's low edge. *)
Definition long_candidate (price : Q) (dr : Routine.DealingRange) (f : FVG) : Prop :=
  fvg_direction f = "bullish" /\ fvg_invalidated f = false
  /\ fvg_high f < Routine.dr_equilibrium dr /\ Qabs (fvg_high f - price) <= 2.5.

Definition long_continuation (price : Q) (f : FVG) : Prop :=
  fvg_direction f = "bullish" /\ fvg_invalidated f = false /\ fvg_high f < price.

Definition short_candidate (price : Q) (dr : Routine.DealingRange) (f : FVG) : Prop :=
  fvg_direction f = "bearish" /\ fvg_invalidated f = false
  /\ Routine.dr_equilibrium dr < fvg_low f /\ Qabs (fvg_low f - price) <= 2.5.

Definition short_continuation (price : Q) (f : FVG) : Prop :=
  fvg_direction f = "bearish" /\ fvg_invalidated f = false /\ price < fvg_low f.

(** [if xs:] then [xs], else nothing. *)
Definition intraday_list (intraday_fvgs : option (list FVG)) : list FVG :=
  match intraday_fvgs with Some l => l | None => [] end.

(** What the analyzer hands to step 6: a gap that is neither filled nor
    invalidated, with its low edge strictly below its high edge. *)
Definition open_gap (f : FVG) : Prop :=
  fvg_filled f = false /\ fvg_invalidated f = false /\ fvg_low f < fvg_high f.

(** An entry is fresh at [utcnow] when it is at most the time-to-live old. *)
Definition fresh {Meta : Type} (utcnow : Z) (entry : CoachCache.ContextSection Meta)
  : Prop :=
  (utcnow - CoachCache.cs_generated_at entry <= 60 * 1000000)%Z.

(** A string without a colon. *)
Fixpoint colon_free (s : string) : bool :=
  match s with
  | EmptyString => true
  | String c rest => negb (String.eqb (String c EmptyString) ":") && colon_free rest
  end.


(** A sweep of the given type is among the session's sweeps. *)
Definition sweep_listed (side : string) (sweeps : list Routine.Sweep) : Prop :=
  exists s, In s sweeps /\ Routine.sweep_type s = side.

(** Sweeps on both sides, on exactly one side, on no side. *)
Definition swept_both (sweeps : list Routine.Sweep) : Prop :=
  sweep_listed "BSL" sweeps /\ sweep_listed "SSL" sweeps.

Definition swept_one (sweeps : list Routine.Sweep) : Prop :=
  (sweep_listed "BSL" sweeps /\ ~ sweep_listed "SSL" sweeps)
  \/ (~ sweep_listed "BSL" sweeps /\ sweep_listed "SSL" sweeps).

Definition swept_none (sweeps : list Routine.Sweep) : Prop :=
  ~ sweep_listed "BSL" sweeps /\ ~ sweep_listed "SSL" sweeps.

(** An order block of strength above 0.7 is among the order blocks. *)
Definition strong_block_listed (order_blocks : list OrderBlock) : Prop :=
  exists ob, In ob order_blocks /\ 0.7 < ob_strength ob.

(** A term of a score: [n] points when the condition holds, none
    otherwise. *)
Definition scores_term (condition : Prop) (n points : Z) : Prop :=
  (condition -> points = n) /\ (~ condition -> points = 0%Z).




(** * Properties *)

(** ** The boolean comparisons decide the order of [Q] *)

Lemma Qleb_le (a b : Q) : Qleb a b = true <-> a <= b.
Proof. unfold Qleb. apply Qle_bool_iff. Qed.

Lemma Qltb_lt (a b : Q) : Qltb a b = true <-> a < b.
Proof.
  unfold Qltb. rewrite negb_true_iff, <- not_true_iff_false, Qle_bool_iff.
  split; intro H; [apply Qnot_le_lt | apply Qlt_not_le]; exact H.
Qed.

Lemma Qgeb_ge (a b : Q) : Qgeb a b = true <-> b <= a.
Proof. unfold Qgeb. apply Qle_bool_iff. Qed.

Lemma Qgtb_gt (a b : Q) : Qgtb a b = true <-> b < a.
Proof. unfold Qgtb. apply (Qltb_lt b a). Qed.

Lemma Qltb_nlt (a b : Q) : Qltb a b = false <-> ~ a < b.
Proof. rewrite <- Qltb_lt. destruct (Qltb a b); intuition congruence. Qed.

Lemma Qleb_nle (a b : Q) : Qleb a b = false <-> ~ a <= b.
Proof. rewrite <- Qleb_le. destruct (Qleb a b); intuition congruence. Qed.

Lemma Qgtb_ngt (a b : Q) : Qgtb a b = false <-> ~ b < a.
Proof. rewrite <- Qgtb_gt. destruct (Qgtb a b); intuition congruence. Qed.

Lemma Qgeb_nge (a b : Q) : Qgeb a b = false <-> ~ b <= a.
Proof. rewrite <- Qgeb_ge. destruct (Qgeb a b); intuition congruence. Qed.

Lemma Qeq_bool_false (a b : Q) : Qeq_bool a b = false <-> ~ a == b.
Proof.
  rewrite <- Qeq_bool_iff. destruct (Qeq_bool a b); intuition congruence.
Qed.

Ltac qbool :=
  repeat match goal with
  | H : Qltb _ _ = true |- _ => apply Qltb_lt in H
  | H : Qltb _ _ = false |- _ => apply Qltb_nlt in H
  | H : Qleb _ _ = true |- _ => apply Qleb_le in H
  | H : Qleb _ _ = false |- _ => apply Qleb_nle in H
  | H : Qgtb _ _ = true |- _ => apply Qgtb_gt in H
  | H : Qgtb _ _ = false |- _ => apply Qgtb_ngt in H
  | H : Qgeb _ _ = true |- _ => apply Qgeb_ge in H
  | H : Qgeb _ _ = false |- _ => apply Qgeb_nge in H
  | H : Qeq_bool _ _ = true |- _ => apply Qeq_bool_iff in H
  | H : Qeq_bool _ _ = false |- _ => apply Qeq_bool_false in H
  end.

(** ** The stable sort *)

Section SortedBy.
Context {A : Type} (before : A -> A -> bool) (R : A -> A -> Prop).
Hypothesis R_trans : forall a b c, R a b -> R b c -> R a c.
Hypothesis before_true : forall y x, before y x = true -> R y x.

Lemma insert_sorted_In (x z : A) (l : list A) :
  In z (insert_sorted before x l) <-> z = x \/ In z l.
Proof.
  induction l as [|y l IH]; simpl.
  - intuition congruence.
  - destruct (before y x); simpl; rewrite ?IH; intuition congruence.
Qed.

Lemma sorted_by_In (z : A) (l : list A) :
  In z (sorted_by before l) <-> In z l.
Proof.
  induction l as [|x l IH]; simpl; [tauto|].
  rewrite insert_sorted_In, IH. intuition congruence.
Qed.

Lemma sorted_by_length (l : list A) : length (sorted_by before l) = length l.
Proof.
  induction l as [|x l IH]; simpl; [reflexivity|]. rewrite <- IH.
  generalize (sorted_by before l). intros m.
  induction m as [|y m IHm]; simpl; [reflexivity|].
  destruct (before y x); simpl; [rewrite IHm|]; reflexivity.
Qed.

Lemma insert_sorted_sorted (x : A) (l : list A) :
  StronglySorted R l ->
  Forall (fun y => before y x = false -> R x y) l ->
  StronglySorted R (insert_sorted before x l).
Proof.
  induction l as [|y l IH]; intros Hs Hf; simpl.
  - constructor; constructor.
  - inversion Hs as [|? ? Hs' Hy]; subst.
    inversion Hf as [|? ? Hxy Hf']; subst.
    destruct (before y x) eqn:Hb.
    + constructor; [apply IH; assumption|].
      apply Forall_forall. intros z Hz. apply insert_sorted_In in Hz.
      destruct Hz as [->|Hz]; [apply before_true; exact Hb|].
      rewrite Forall_forall in Hy. apply Hy. exact Hz.
    + constructor; [exact Hs|].
      constructor; [apply Hxy; reflexivity|].
      apply Forall_forall. intros z Hz. rewrite Forall_forall in Hy.
      apply R_trans with y; [apply Hxy; reflexivity | apply Hy; exact Hz].
Qed.

(** If every element relates by [R] to each later element that the sort
    does not move in front of it, the sorted list is sorted by [R]. *)
Lemma sorted_by_sorted (l : list A) :
  ForallOrdPairs (fun a b => before b a = false -> R a b) l ->
  StronglySorted R (sorted_by before l).
Proof.
  induction l as [|x l IH]; intros Hp; simpl; [constructor|].
  inversion Hp as [|? ? Hx Hp']; subst.
  apply insert_sorted_sorted; [apply IH; exact Hp'|].
  apply Forall_forall. intros y Hy. apply (proj1 (sorted_by_In y l)) in Hy.
  rewrite Forall_forall in Hx. apply Hx. exact Hy.
Qed.

End SortedBy.

Lemma sorted_by_nonempty {A : Type} (before : A -> A -> bool) (l : list A) :
  l <> [] -> sorted_by before l <> [].
Proof.
  intros Hne H. apply (f_equal (@length A)) in H.
  rewrite sorted_by_length in H. destruct l; [congruence | discriminate].
Qed.

Lemma sorted_by_Forall {A : Type} (before : A -> A -> bool) (P : A -> Prop)
  (l : list A) : Forall P l -> Forall P (sorted_by before l).
Proof.
  rewrite !Forall_forall. intros H x Hx. apply H.
  apply (proj1 (sorted_by_In before x l)). exact Hx.
Qed.

Lemma ForallOrdPairs_all {A : Type} (P : A -> A -> Prop) (l : list A) :
  (forall a b, P a b) -> ForallOrdPairs P l.
Proof.
  intros H. induction l; constructor; [|assumption].
  apply Forall_forall. intros; apply H.
Qed.

Lemma ForallOrdPairs_impl {A : Type} (P P' : A -> A -> Prop) (l : list A) :
  (forall a b, P a b -> P' a b) -> ForallOrdPairs P l -> ForallOrdPairs P' l.
Proof.
  intros H Hp. induction Hp as [|a l Ha Hp IH]; constructor; [|exact IH].
  apply Forall_forall. intros b Hb. rewrite Forall_forall in Ha.
  apply H, Ha, Hb.
Qed.

Lemma ForallOrdPairs_snoc {A : Type} (P : A -> A -> Prop) (l : list A) (x : A) :
  ForallOrdPairs P l -> Forall (fun e => P e x) l ->
  ForallOrdPairs P (l ++ [x]).
Proof.
  induction l as [|y l IH]; intros Hp Hf; simpl.
  - constructor; [constructor | constructor].
  - inversion Hp as [|? ? Hy Hp']; subst. inversion Hf as [|? ? Hyx Hf']; subst.
    constructor; [|apply IH; assumption].
    apply Forall_app. split; [exact Hy|]. constructor; [exact Hyx | constructor].
Qed.

(** ** fvg.py *)

Section FvgFacts.
Import Fvg.

Lemma in_scan (d : list Bar) (f : FVG) :
  In f (scan d) <-> exists i, (2 <= i < length d)%nat /\ fvg_at d i = Some f.
Proof.
  unfold scan. rewrite in_flat_map. split.
  - intros (i & Hi & Hf). apply in_seq in Hi. exists i. split; [lia|].
    destruct (fvg_at d i) as [g|]; simpl in Hf; [|contradiction].
    destruct Hf as [->|[]]. reflexivity.
  - intros (i & Hi & Hf). exists i. split.
    + apply in_seq. lia.
    + rewrite Hf. left. reflexivity.
Qed.

Lemma fvg_at_bullish (d : list Bar) (i : nat) (c1 c3 : Bar) :
  nth_error d (i - 2) = Some c1 -> nth_error d i = Some c3 ->
  bar_high c1 < bar_low c3 ->
  exists f, fvg_at d i = Some f /\ bullish_from c1 c3 f.
Proof.
  intros H1 H3 Hlt. unfold fvg_at. rewrite H1, H3.
  apply Qltb_lt in Hlt. rewrite Hlt.
  eexists. split; [reflexivity|]. unfold bullish_from. simpl. tauto.
Qed.

Lemma fvg_at_bearish (d : list Bar) (i : nat) (c1 c3 : Bar) :
  nth_error d (i - 2) = Some c1 -> nth_error d i = Some c3 ->
  ~ bar_high c1 < bar_low c3 -> bar_high c3 < bar_low c1 ->
  exists f, fvg_at d i = Some f /\ bearish_from c1 c3 f.
Proof.
  intros H1 H3 Hn Hgt. unfold fvg_at. rewrite H1, H3.
  apply Qltb_nlt in Hn. rewrite Hn.
  apply Qgtb_gt in Hgt. rewrite Hgt.
  eexists. split; [reflexivity|]. unfold bearish_from. simpl. tauto.
Qed.

Lemma fvg_at_inv (d : list Bar) (i : nat) (f : FVG) :
  fvg_at d i = Some f ->
  exists c1 c3, nth_error d (i - 2) = Some c1 /\ nth_error d i = Some c3
    /\ ((bar_high c1 < bar_low c3 /\ bullish_from c1 c3 f)
        \/ (~ bar_high c1 < bar_low c3 /\ bar_high c3 < bar_low c1
            /\ bearish_from c1 c3 f)).
Proof.
  unfold fvg_at. intros H.
  destruct (nth_error d (i - 2)) as [c1|] eqn:H1; [|discriminate].
  destruct (nth_error d i) as [c3|] eqn:H3; [|discriminate].
  exists c1, c3. split; [reflexivity|]. split; [reflexivity|].
  destruct (Qltb (bar_high c1) (bar_low c3)) eqn:Hb.
  - left. injection H as <-. qbool. unfold bullish_from. simpl. tauto.
  - destruct (Qgtb (bar_low c1) (bar_high c3)) eqn:Hs; [|discriminate].
    right. injection H as <-. qbool. unfold bearish_from. simpl. tauto.
Qed.

Lemma scan_meets_spec (d : list Bar) : scan_spec d (scan d).
Proof.
  split.
  - intros i c1 c3 Hi H1 H3.
    assert (Hlen : (i < length d)%nat)
      by (apply nth_error_Some; rewrite H3; discriminate).
    split.
    + intros Hlt. destruct (fvg_at_bullish d i c1 c3 H1 H3 Hlt) as (f & Hf & Hs).
      exists f. split; [|exact Hs]. apply in_scan. exists i. split; [lia|exact Hf].
    + intros Hn Hgt.
      destruct (fvg_at_bearish d i c1 c3 H1 H3 Hn Hgt) as (f & Hf & Hs).
      exists f. split; [|exact Hs]. apply in_scan. exists i. split; [lia|exact Hf].
  - intros f Hin. apply in_scan in Hin. destruct Hin as (i & Hi & Hf).
    destruct (fvg_at_inv d i f Hf) as (c1 & c3 & H1 & H3 & Hc).
    exists i, c1, c3. repeat split; try assumption; lia.
Qed.

(** Every emitted gap has its low edge strictly below its high edge and a
    positive size. *)
Lemma detect_fvgs_wf (df : list Bar) (lookback : Z) (f : FVG) :
  In f (detect_fvgs df lookback) ->
  fvg_low f < fvg_high f /\ 0 < fvg_gap_size f /\ wf_gap f.
Proof.
  unfold detect_fvgs. destruct (length df <? 10)%nat; [contradiction|].
  intros Hin. apply in_scan in Hin. destruct Hin as (i & _ & Hf).
  destruct (fvg_at_inv _ _ _ Hf) as (c1 & c3 & _ & _ & [[Hlt Hs]|(_ & Hlt & Hs)]);
    destruct Hs as (_ & Hl & Hh & Hg & _); unfold wf_gap;
    rewrite Hl, Hh, Hg; repeat split; lra.
Qed.

(** A bar whose low does not exceed its high cannot satisfy both tests. *)
Lemma tests_exclusive (c1 c3 : Bar) :
  bar_low c1 <= bar_high c1 -> bar_low c3 <= bar_high c3 ->
  bar_high c1 < bar_low c3 -> ~ bar_high c3 < bar_low c1.
Proof. intros. lra. Qed.

(** C1, as the claim states it, fails on the three-bar example: the frame
    has three rows and [high[0] < low[2]], yet nothing is emitted because the
    detector returns early below ten rows. *)
Lemma C1_three_bar_example_emits_nothing :
  (3 <= length example_bars)%nat
  /\ (exists c1 c3, nth_error example_bars 0 = Some c1
        /\ nth_error example_bars 2 = Some c3 /\ bar_high c1 < bar_low c3)
  /\ detect_fvgs example_bars 100 = [].
Proof.
  split; [simpl; lia|]. split; [|reflexivity].
  eexists. eexists. split; [reflexivity|]. split; [reflexivity|].
  simpl. reflexivity.
Qed.

(** C1 (amended): for a frame of at least ten rows the detector scans every
    triple [(i-2, i-1, i)] of the last [lookback] rows and emits, for each,
    a bullish FVG with [low = high[i-2]], [high = low[i]],
    [gap_size = low[i] - high[i-2]] when [high[i-2] < low[i]], else a
    bearish one with [high = low[i-2]], [low = high[i]] when
    [low[i-2] > high[i]], and nothing else; the example's three bars behind
    seven quiet ones give exactly one bullish FVG with low 10, high 10.5 and
    gap size 0.5. *)
Theorem C1_detect_fvgs_scans_triples :
  (forall (df : list Bar) (lookback : Z),
      (10 <= length df)%nat ->
      scan_spec (df_tail lookback df) (detect_fvgs df lookback))
  /\ (exists f, detect_fvgs padded_example_bars 100 = [f]
        /\ fvg_direction f = "bullish"
        /\ fvg_low f == 10 /\ fvg_high f == 10.5 /\ fvg_gap_size f == 0.5).
Proof.
  split.
  - intros df lookback Hlen. unfold detect_fvgs.
    destruct (length df <? 10)%nat eqn:Hc.
    + apply Nat.ltb_lt in Hc. lia.
    + apply scan_meets_spec.
  - eexists. split; [vm_compute; reflexivity|].
    repeat split; reflexivity.
Qed.

Lemma C1_witness :
  (10 <= length padded_example_bars)%nat
  /\ scan_spec (df_tail 100 padded_example_bars)
               (detect_fvgs padded_example_bars 100).
Proof.
  split.
  - simpl. lia.
  - apply (proj1 C1_detect_fvgs_scans_triples). simpl. lia.
Defined.

Lemma subsequent_rows (d : list Bar) (i : nat) :
  (if (i <? length d - 1)%nat then skipn (i + 1) d else []) = skipn (S i) d.
Proof.
  replace (i + 1)%nat with (S i) by lia.
  destruct (i <? length d - 1)%nat eqn:Hc; [reflexivity|].
  apply Nat.ltb_ge in Hc. symmetry. apply skipn_all2. lia.
Qed.

(** The loop body with the guarded slice replaced by [df.iloc[i+1:]]. *)
Lemma fvg_at_unfold (d : list Bar) (i : nat) :
  fvg_at d i =
  match nth_error d (i - 2), nth_error d i with
  | Some c1, Some c3 =>
      let later := skipn (S i) d in
      if Qltb (bar_high c1) (bar_low c3) then
        Some (mkFVG (bar_low c3) (bar_high c1) (bar_timestamp c3)
                (bar_low c3 - bar_high c1) "bullish"
                (existsb (fun c => Qltb (bar_close c) (bar_high c1)) later)
                (existsb (fun c => Qleb (bar_low c) (bar_low c3)) later)
                (existsb (fun c => Qltb (bar_close c) (bar_high c1)) later))
      else if Qgtb (bar_low c1) (bar_high c3) then
        Some (mkFVG (bar_low c1) (bar_high c3) (bar_timestamp c3)
                (bar_low c1 - bar_high c3) "bearish"
                (existsb (fun c => Qgtb (bar_close c) (bar_low c1)) later)
                (existsb (fun c => Qgeb (bar_high c) (bar_high c3)) later)
                (existsb (fun c => Qgtb (bar_close c) (bar_low c1)) later))
      else None
  | _, _ => None
  end.
Proof.
  unfold fvg_at.
  destruct (nth_error d (i - 2)) as [c1|]; [|reflexivity].
  destruct (nth_error d i) as [c3|]; [|reflexivity].
  cbv zeta. rewrite subsequent_rows. reflexivity.
Qed.

Lemma existsb_prop {A : Type} (p : A -> bool) (P : A -> Prop) (l : list A) :
  (forall x, p x = true <-> P x) ->
  existsb p l = true <-> exists x, In x l /\ P x.
Proof.
  intros Hp. rewrite existsb_exists. split; intros (x & Hx & Hpx); exists x;
    (split; [exact Hx | apply Hp; exact Hpx]).
Qed.

Lemma fvg_at_flags (d : list Bar) (i : nat) (f : FVG) :
  fvg_at d i = Some f -> flags_spec (skipn (S i) d) f.
Proof.
  rewrite fvg_at_unfold. intros H.
  destruct (nth_error d (i - 2)) as [c1|]; [|discriminate].
  destruct (nth_error d i) as [c3|]; [|discriminate].
  cbv zeta in H.
  destruct (Qltb (bar_high c1) (bar_low c3)) eqn:Hb.
  - injection H as <-. unfold flags_spec; simpl.
    split; [intros _|split; [discriminate|split; [|reflexivity]]].
    + split; apply existsb_prop; intros c; [apply Qleb_le | apply Qltb_lt].
    + intros (c & Hc & Ht & _). apply existsb_exists. exists c.
      split; [exact Hc|]. apply Qleb_le. exact Ht.
  - destruct (Qgtb (bar_low c1) (bar_high c3)) eqn:Hs; [|discriminate].
    injection H as <-. unfold flags_spec; simpl.
    split; [discriminate|split; [intros _|split; [|reflexivity]]].
    + split; apply existsb_prop; intros c; [apply Qgeb_ge | apply Qgtb_gt].
    + intros (c & Hc & _ & Ht). apply existsb_exists. exists c.
      split; [exact Hc|]. apply Qgeb_ge. exact Ht.
Qed.

Lemma existsb_app_l {A : Type} (p : A -> bool) (l l' : list A) :
  existsb p l = true -> existsb p (l ++ l') = true.
Proof. intros H. rewrite existsb_app, H. reflexivity. Qed.

Lemma fvg_at_extend (d extra : list Bar) (i : nat) (f : FVG) :
  fvg_at d i = Some f ->
  exists f', fvg_at (d ++ extra) i = Some f' /\ flags_kept f f'.
Proof.
  rewrite !fvg_at_unfold. intros H.
  destruct (nth_error d (i - 2)) as [c1|] eqn:H1; [|discriminate].
  destruct (nth_error d i) as [c3|] eqn:H3; [|discriminate].
  assert (Hi : (i < length d)%nat)
    by (apply nth_error_Some; rewrite H3; discriminate).
  rewrite !nth_error_app1 by lia. rewrite H1, H3.
  cbv zeta in *. rewrite skipn_app.
  destruct (Qltb (bar_high c1) (bar_low c3)).
  - injection H as <-. eexists. split; [reflexivity|].
    unfold flags_kept; simpl.
    repeat split; try reflexivity; apply existsb_app_l.
  - destruct (Qgtb (bar_low c1) (bar_high c3)); [|discriminate].
    injection H as <-. eexists. split; [reflexivity|].
    unfold flags_kept; simpl.
    repeat split; try reflexivity; apply existsb_app_l.
Qed.

(** C4, as the claim states it, fails: in [gap_down_bars] the gap
    [[10, 10.5]] is formed by rows 6..8; the only later row trades in
    [[9.6, 9.98]], wholly below the gap, and the FVG is marked mitigated. *)
Lemma C4_mitigated_without_touch :
  exists f, detect_fvgs gap_down_bars 100 = [f]
    /\ fvg_at gap_down_bars 8 = Some f
    /\ fvg_mitigated f = true
    /\ forall c, In c (skipn 9 gap_down_bars) -> ~ touches_gap f c.
Proof.
  eexists. split; [vm_compute; reflexivity|].
  split; [vm_compute; reflexivity|].
  split; [reflexivity|].
  intros c [<-|[]]. unfold touches_gap. simpl. intros [_ H].
  revert H. apply Qlt_not_le. reflexivity.
Qed.

(** C4 (amended): every emitted FVG comes from a row [i] of the trimmed
    frame, and against the rows after [i]: a bullish gap is mitigated iff
    some later low is at or below the gap's high and invalidated iff some
    later close is below the gap's low; a bearish gap is mitigated iff some
    later high is at or above the gap's low and invalidated iff some later
    close is above the gap's high; a later bar whose range meets the gap
    always sets mitigated; [filled] equals [invalidated]; and when further
    rows are appended to the frame the same gap is found with no set flag
    cleared. *)
Theorem C4_fvg_flags :
  forall (df : list Bar) (lookback : Z) (f : FVG),
    In f (detect_fvgs df lookback) ->
    exists i, (2 <= i < length (df_tail lookback df))%nat
      /\ fvg_at (df_tail lookback df) i = Some f
      /\ flags_spec (skipn (S i) (df_tail lookback df)) f
      /\ forall extra, exists f',
            fvg_at (df_tail lookback df ++ extra) i = Some f'
            /\ flags_kept f f'.
Proof.
  intros df lookback f Hin. unfold detect_fvgs in Hin.
  destruct (length df <? 10)%nat; [contradiction|].
  apply in_scan in Hin. destruct Hin as (i & Hi & Hf).
  exists i. split; [exact Hi|]. split; [exact Hf|].
  split; [apply fvg_at_flags; exact Hf|].
  intros extra. apply fvg_at_extend. exact Hf.
Qed.

Lemma C4_witness :
  exists f, In f (detect_fvgs gap_down_bars 100)
    /\ exists i, (2 <= i < length (df_tail 100 gap_down_bars))%nat
      /\ fvg_at (df_tail 100 gap_down_bars) i = Some f
      /\ flags_spec (skipn (S i) (df_tail 100 gap_down_bars)) f
      /\ forall extra, exists f',
            fvg_at (df_tail 100 gap_down_bars ++ extra) i = Some f'
            /\ flags_kept f f'.
Proof.
  eexists. split.
  - vm_compute. left. reflexivity.
  - apply (C4_fvg_flags gap_down_bars 100). vm_compute. left. reflexivity.
Defined.

End FvgFacts.

(** ** pre_market_routine.py: day type and dealing range *)

Section RoutineFacts.
Import Routine.

Lemma filter_nonempty_existsb {A : Type} (p : A -> bool) (l : list A) :
  (0 <? length (filter p l))%nat = existsb p l.
Proof.
  induction l as [|x l IH]; [reflexivity|].
  simpl. destruct (p x); simpl; [reflexivity | exact IH].
Qed.

Lemma day_type_scores_closed (htf_bias : BiasType) (sweeps : list Sweep)
  (order_blocks : list OrderBlock) (fvgs : list FVG) :
  let s := day_type_scores htf_bias sweeps order_blocks fvgs in
  trend_score s = spec_trend htf_bias sweeps fvgs
  /\ reversal_score s = spec_reversal sweeps order_blocks
  /\ consolidation_score s = spec_consolidation htf_bias sweeps.
Proof.
  unfold day_type_scores, spec_trend, spec_reversal, spec_consolidation,
    both_sides, one_side, no_side, has_strong_ob, count_unfilled,
    unfilled_fvgs, strong_obs.
  rewrite filter_nonempty_existsb.
  destruct (bias_eqb htf_bias NEUTRAL), (bsl_swept sweeps), (ssl_swept sweeps),
    (existsb (fun ob => Qgtb (ob_strength ob) 0.7) order_blocks),
    (2 <? length (filter (fun fvg => negb (fvg_filled fvg)) fvgs))%nat;
    cbn; repeat split; reflexivity.
Qed.

(** The code's sweep flags against the sweeps in the list. *)
Lemma bsl_swept_listed (sweeps : list Sweep) :
  bsl_swept sweeps = true <-> sweep_listed "BSL" sweeps.
Proof.
  unfold bsl_swept, sweep_listed. rewrite existsb_exists.
  split; intros (x & Hx & Ht); exists x; (split; [exact Hx|]);
    apply String.eqb_eq; exact Ht.
Qed.

Lemma ssl_swept_listed (sweeps : list Sweep) :
  ssl_swept sweeps = true <-> sweep_listed "SSL" sweeps.
Proof.
  unfold ssl_swept, sweep_listed. rewrite existsb_exists.
  split; intros (x & Hx & Ht); exists x; (split; [exact Hx|]);
    apply String.eqb_eq; exact Ht.
Qed.

Lemma has_strong_ob_listed (order_blocks : list OrderBlock) :
  has_strong_ob order_blocks = true <-> strong_block_listed order_blocks.
Proof.
  unfold has_strong_ob, strong_block_listed. rewrite existsb_exists.
  split; intros (x & Hx & Ht); exists x; (split; [exact Hx|]).
  - apply Qgtb_gt in Ht. exact Ht.
  - apply Qgtb_gt. exact Ht.
Qed.

Lemma ind_scores_term (b : bool) (condition : Prop) (n : Z) :
  (b = true <-> condition) -> scores_term condition n (ind b n).
Proof.
  intros H. unfold scores_term, ind. destruct b.
  - split; [reflexivity|]. intros Hn. exfalso. apply Hn, H. reflexivity.
  - split; [|reflexivity]. intros Hc. apply H in Hc. discriminate.
Qed.

Lemma sweep_sides (sweeps : list Sweep) :
  (both_sides sweeps = true <-> swept_both sweeps)
  /\ (one_side sweeps = true <-> swept_one sweeps)
  /\ (no_side sweeps = true <-> swept_none sweeps).
Proof.
  pose proof (bsl_swept_listed sweeps) as Hb.
  pose proof (ssl_swept_listed sweeps) as Hs.
  unfold both_sides, one_side, no_side, swept_both, swept_one, swept_none.
  destruct (bsl_swept sweeps), (ssl_swept sweeps); cbn;
    repeat split; intros; try discriminate; try reflexivity;
    try (apply Hb; reflexivity); try (apply Hs; reflexivity);
    intuition discriminate.
Qed.

(** C5: each score is the sum of its stated terms.  A sweep on a side means
    that a sweep of that type is in the list: both sides give reversal +3,
    exactly one side trend +2, no side consolidation +2; a non-neutral bias
    gives trend +2 and a neutral one consolidation +2; an order block of
    strength above 0.7 gives reversal +1; more than two unfilled FVGs give
    trend +1.  The label is ['trend'] iff
    [trend >= max(reversal, consolidation) + 1], else ['reversal'] iff
    [reversal >= max(trend, consolidation) + 1], else ['consolidation']. *)
Theorem C5_day_type_classifier :
  forall (htf_bias : BiasType) (sweeps : list Sweep)
         (order_blocks : list OrderBlock) (fvgs : list FVG),
    let s := day_type_scores htf_bias sweeps order_blocks fvgs in
    let t := trend_score s in
    let r := reversal_score s in
    let c := consolidation_score s in
    let day_type := fst (_step5_day_type htf_bias sweeps order_blocks fvgs) in
    (exists t_bias t_sweep t_fvg : Z,
        t = (t_bias + t_sweep + t_fvg)%Z
        /\ scores_term (htf_bias <> NEUTRAL) 2 t_bias
        /\ scores_term (swept_one sweeps) 2 t_sweep
        /\ scores_term (2 < count_unfilled fvgs)%nat 1 t_fvg)
    /\ (exists r_sweep r_block : Z,
          r = (r_sweep + r_block)%Z
          /\ scores_term (swept_both sweeps) 3 r_sweep
          /\ scores_term (strong_block_listed order_blocks) 1 r_block)
    /\ (exists c_bias c_sweep : Z,
          c = (c_bias + c_sweep)%Z
          /\ scores_term (htf_bias = NEUTRAL) 2 c_bias
          /\ scores_term (swept_none sweeps) 2 c_sweep)
    /\ (day_type = "trend" <-> (Z.max r c + 1 <= t)%Z)
    /\ (day_type = "reversal" <->
         (~ (Z.max r c + 1 <= t)%Z /\ (Z.max t c + 1 <= r)%Z))
    /\ (day_type = "consolidation" <->
         (~ (Z.max r c + 1 <= t)%Z /\ ~ (Z.max t c + 1 <= r)%Z))
    /\ day_type = spec_day_type t r c.
Proof.
  intros htf_bias sweeps order_blocks fvgs.
  pose proof (day_type_scores_closed htf_bias sweeps order_blocks fvgs) as Hs.
  cbv zeta in *. destruct Hs as (Ht & Hr & Hc).
  destruct (sweep_sides sweeps) as (Hboth & Hone & Hnone).
  split; [|split; [|split]].
  - rewrite Ht. unfold spec_trend. eexists _, _, _. split; [reflexivity|].
    split; [|split]; apply ind_scores_term.
    + destruct htf_bias; cbn; split; intros; try discriminate; try reflexivity;
        congruence.
    + exact Hone.
    + apply Nat.ltb_lt.
  - rewrite Hr. unfold spec_reversal. eexists _, _. split; [reflexivity|].
    split; apply ind_scores_term; [exact Hboth | apply has_strong_ob_listed].
  - rewrite Hc. unfold spec_consolidation. eexists _, _. split; [reflexivity|].
    split; apply ind_scores_term; [|exact Hnone].
    destruct htf_bias; cbn; split; intros; try discriminate; try reflexivity.
  - unfold _step5_day_type, spec_day_type.
    set (t := trend_score (day_type_scores htf_bias sweeps order_blocks fvgs)).
    set (r := reversal_score (day_type_scores htf_bias sweeps order_blocks fvgs)).
    set (c := consolidation_score (day_type_scores htf_bias sweeps order_blocks fvgs)).
    destruct (Z.max r c + 1 <=? t)%Z eqn:E1.
    + apply Z.leb_le in E1. simpl.
      repeat split; intros; try discriminate; try tauto.
    + apply Z.leb_gt in E1.
      destruct (Z.max t c + 1 <=? r)%Z eqn:E2.
      * apply Z.leb_le in E2. simpl.
        repeat split; intros; try discriminate; try lia; tauto.
      * apply Z.leb_gt in E2. simpl.
        repeat split; intros; try discriminate; try lia; tauto.
Qed.

(** The zones of a dealing range in terms of its own high and low. *)
Lemma calculate_zones_levels (high low : Q) (src : string) :
  let dr := calculate_zones high low src in
  dr_high dr = high /\ dr_low dr = low /\ dr_source dr = src
  /\ dr_equilibrium dr == low + 0.5 * (high - low)
  /\ dr_premium dr == low + 0.618 * (high - low)
  /\ dr_discount dr == low + 0.382 * (high - low).
Proof.
  unfold calculate_zones; simpl. repeat split; try reflexivity; ring.
Qed.

Lemma step3_is_calculate_zones (dfd : option (list Bar)) (today_ny : Z)
  (htf_range : option (Q * Q)) (recent : list Bar) (dr : DealingRange) :
  _step3_dealing_range dfd today_ny htf_range recent = Some dr ->
  dr = calculate_zones (dr_high dr) (dr_low dr) (dr_source dr).
Proof.
  unfold _step3_dealing_range. intros H.
  destruct (prev_day_high_low dfd today_ny) as [[h l]|].
  - injection H as <-. reflexivity.
  - destruct htf_range as [[h l]|].
    + injection H as <-. reflexivity.
    + destruct recent; [discriminate|]. injection H as <-. reflexivity.
Qed.

(** C6: the zones built from a high and a low are
    [equilibrium = low + 0.5*(high-low)], [premium = low + 0.618*(high-low)],
    [discount = low + 0.382*(high-low)], with
    [discount < equilibrium < premium] whenever [high > low].  Every range
    step 3 returns is built this way from the high and low of the source it
    reports: the previous day's row, else the HTF range, else the extremes
    of the recent daily rows; and it carries that high and low.  High 110
    and low 100 give 105, 106.18 and 103.82. *)
Theorem C6_dealing_range_zones :
  (forall (high low : Q) (src : string),
      let dr := calculate_zones high low src in
      dr_high dr = high /\ dr_low dr = low
      /\ dr_equilibrium dr == low + 0.5 * (high - low)
      /\ dr_premium dr == low + 0.618 * (high - low)
      /\ dr_discount dr == low + 0.382 * (high - low)
      /\ (low < high ->
          dr_discount dr < dr_equilibrium dr /\ dr_equilibrium dr < dr_premium dr))
  /\ (forall (dfd : option (list Bar)) (today_ny : Z) (htf_range : option (Q * Q))
             (recent : list Bar) (dr : DealingRange),
        _step3_dealing_range dfd today_ny htf_range recent = Some dr ->
        exists high low : Q,
          ((prev_day_high_low dfd today_ny = Some (high, low)
            /\ dr_source dr = "prev_day")
           \/ (prev_day_high_low dfd today_ny = None
               /\ htf_range = Some (high, low) /\ dr_source dr = "htf")
           \/ (prev_day_high_low dfd today_ny = None /\ htf_range = None
               /\ recent <> []
               /\ high = Structure.series_max (map bar_high recent)
               /\ low = Structure.series_min (map bar_low recent)
               /\ dr_source dr = "recent_1D"))
          /\ dr_high dr = high /\ dr_low dr = low
          /\ dr_equilibrium dr == low + 0.5 * (high - low)
          /\ dr_premium dr == low + 0.618 * (high - low)
          /\ dr_discount dr == low + 0.382 * (high - low)
          /\ (low < high ->
              dr_discount dr < dr_equilibrium dr
              /\ dr_equilibrium dr < dr_premium dr))
  /\ (forall src : string,
        let dr := calculate_zones 110 100 src in
        dr_equilibrium dr == 105 /\ dr_premium dr == 106.18
        /\ dr_discount dr == 103.82).
Proof.
  assert (Hzones : forall (high low : Q) (src : string),
             let dr := calculate_zones high low src in
             dr_high dr = high /\ dr_low dr = low
             /\ dr_equilibrium dr == low + 0.5 * (high - low)
             /\ dr_premium dr == low + 0.618 * (high - low)
             /\ dr_discount dr == low + 0.382 * (high - low)
             /\ (low < high ->
                 dr_discount dr < dr_equilibrium dr
                 /\ dr_equilibrium dr < dr_premium dr)).
  { intros high low src.
    destruct (calculate_zones_levels high low src) as (Hh & Hl & _ & He & Hp & Hd).
    cbv zeta. repeat split; try assumption; intros; lra. }
  split; [exact Hzones|]. split.
  - intros dfd today_ny htf_range recent dr H.
    unfold _step3_dealing_range in H.
    destruct (prev_day_high_low dfd today_ny) as [[h l]|] eqn:Hprev.
    + injection H as <-. exists h, l. split; [left; split; reflexivity|].
      apply Hzones.
    + destruct htf_range as [[h l]|].
      * injection H as <-. exists h, l.
        split; [right; left; repeat split; reflexivity|]. apply Hzones.
      * destruct recent as [|c recent]; [discriminate|]. injection H as <-.
        eexists _, _. split; [|apply Hzones].
        right; right. repeat split; try reflexivity. discriminate.
  - intros src. simpl. repeat split; reflexivity.
Qed.

Lemma C6_witness :
  _step3_dealing_range (Some [mkBar 0 104 110 100 108 1000]) 1 None []
    = Some wide_range
  /\ dr_high wide_range = 110 /\ dr_low wide_range = 100
  /\ dr_discount wide_range < dr_equilibrium wide_range
  /\ dr_equilibrium wide_range < dr_premium wide_range.
Proof.
  assert (H : _step3_dealing_range (Some [mkBar 0 104 110 100 108 1000]) 1 None []
              = Some wide_range) by reflexivity.
  destruct (proj1 (proj2 C6_dealing_range_zones) _ _ _ _ _ H)
    as (high & low & _ & Hh & Hl & _ & _ & _ & Hord).
  split; [exact H|]. split; [reflexivity|]. split; [reflexivity|].
  apply Hord. rewrite <- Hh, <- Hl. reflexivity.
Defined.

Lemma C5_witness :
  reversal_score
    (day_type_scores NEUTRAL
       [mkSweep "BSL" "Asian High"; mkSweep "SSL" "Asian Low"] [] []) = 3%Z
  /\ fst (_step5_day_type NEUTRAL
            [mkSweep "BSL" "Asian High"; mkSweep "SSL" "Asian Low"] [] [])
     = "reversal".
Proof.
  destruct (C5_day_type_classifier NEUTRAL
              [mkSweep "BSL" "Asian High"; mkSweep "SSL" "Asian Low"] [] [])
    as (_ & (r_sweep & r_block & Hr & [Hsweep _] & [_ Hblock]) & _ & _ & Hrev & _).
  assert (Hboth : swept_both [mkSweep "BSL" "Asian High"; mkSweep "SSL" "Asian Low"])
    by (split; [exists (mkSweep "BSL" "Asian High") | exists (mkSweep "SSL" "Asian Low")];
        (split; [simpl; tauto | reflexivity])).
  assert (Hnone : ~ strong_block_listed []) by (intros (ob & [] & _)).
  split.
  - rewrite Hr, (Hsweep Hboth), (Hblock Hnone). reflexivity.
  - apply Hrev. vm_compute. split; [intros H; apply H; reflexivity | discriminate].
Defined.

End RoutineFacts.

(** ** structure.py *)

Section StructureFacts.
Import Structure.

(** C9, as the claim states it, fails: twenty-five rows are not fewer than
    twenty, and the analyzer still answers with the sentinel. *)
Lemma C9_sentinel_at_25_bars :
  (20 <= length (flat_bars 25))%nat
  /\ analyze_market_structure (flat_bars 25) = "insufficient_data".
Proof. split; [simpl; lia | reflexivity]. Qed.

(** C9 (amended): the analyzer returns ["insufficient_data"] exactly when
    the frame has fewer than 30 rows; for 30 rows or more it returns one of
    the six structure labels. *)
Theorem C9_structure_sentinel :
  forall df : list Bar,
    (analyze_market_structure df = "insufficient_data" <-> (length df < 30)%nat)
    /\ ((30 <= length df)%nat ->
        In (analyze_market_structure df) structure_labels).
Proof.
  intros df. unfold analyze_market_structure.
  destruct (length df <? 30)%nat eqn:Hlen.
  - apply Nat.ltb_lt in Hlen. split; [tauto | lia].
  - apply Nat.ltb_ge in Hlen.
    repeat match goal with
    | |- context [if ?b then _ else _] => destruct b
    end;
    (split; [split; [discriminate | lia] | intros _; simpl; tauto]).
Qed.

Lemma C9_witness :
  (30 <= length (flat_bars 30))%nat
  /\ In (analyze_market_structure (flat_bars 30)) structure_labels.
Proof.
  split.
  - simpl. lia.
  - apply (proj2 (C9_structure_sentinel (flat_bars 30))). simpl. lia.
Defined.

End StructureFacts.

(** ** langchain/coach.py *)

Section CoachFacts.
Import Coach.


Lemma truthy_nonzero (q : Q) : ~ q == 0 -> truthy (Some q) = true.
Proof.
  intros H. unfold truthy. apply negb_true_iff. apply Qeq_bool_false. exact H.
Qed.

Lemma validate_full_plan (plan : Plan) (direction : string)
  (eh el sl inv price : Q) :
  plan_entry_zone plan = Some (mkEntryZone (Some eh) (Some el)) ->
  plan_stop_loss plan = Some sl ->
  plan_invalidation plan = Some inv ->
  ~ eh == 0 -> ~ el == 0 -> ~ sl == 0 ->
  exists msg, _validate_plan_status (Some plan) price direction
              = Ok (spec_status direction eh el sl inv price, msg).
Proof.
  intros Hz Hs Hi Heh Hel Hsl.
  unfold _validate_plan_status, spec_status. rewrite Hz, Hs, Hi. simpl ez_high.
  simpl ez_low. rewrite !truthy_nonzero by assumption. simpl negb. cbv iota.
  unfold le_opt, ge_opt, bind.
  destruct (String.eqb direction "long").
  - destruct (Qleb price inv); simpl; [eexists; reflexivity|].
    destruct (Qleb price sl); simpl; [eexists; reflexivity|].
    destruct (Qleb el price && Qleb price eh); [eexists; reflexivity|].
    destruct (Qgtb price eh); eexists; reflexivity.
  - destruct (Qgeb price inv); simpl; [eexists; reflexivity|].
    destruct (Qgeb price sl); simpl; [eexists; reflexivity|].
    destruct (Qleb el price && Qleb price eh); [eexists; reflexivity|].
    destruct (Qltb price el); eexists; reflexivity.
Qed.





Lemma validate_status_listed (plan : option Plan) (price : Q)
  (direction : string) (st : string) (msg : Message) :
  _validate_plan_status plan price direction = Ok (st, msg) ->
  In st returned_statuses.
Proof.
  unfold _validate_plan_status, returned_statuses, le_opt, ge_opt, bind.
  intros H.
  repeat match type of H with
  | context [match ?x with _ => _ end] => destruct x
  end;
  try discriminate; injection H as <- _; simpl; tauto.
Qed.

Lemma validate_returns (plan : option Plan) (price : Q) (direction : string) :
  (forall p, plan = Some p -> plan_invalidation p <> None) ->
  exists st msg, _validate_plan_status plan price direction = Ok (st, msg).
Proof.
  intros Hinv. destruct plan as [p|]; [|eexists; eexists; reflexivity].
  specialize (Hinv p eq_refl).
  unfold _validate_plan_status, le_opt, ge_opt, bind.
  destruct (plan_invalidation p) as [inv|]; [|congruence].
  repeat match goal with
  | |- context [match ?x with _ => _ end] => destruct x
  end; eexists; eexists; reflexivity.
Qed.

(** C10: whatever the scenario, the price and the direction, a returned
    status is one of N/A, INVALIDATED, ACTIVE, WAITING and never MISSED; and
    a status is returned whenever the plan is absent or carries an
    invalidation level. *)
Theorem C10_status_never_missed :
  (forall (plan : option Plan) (price : Q) (direction : string)
          (st : string) (msg : Message),
      _validate_plan_status plan price direction = Ok (st, msg) ->
      In st returned_statuses /\ st <> "MISSED")
  /\ (forall (plan : option Plan) (price : Q) (direction : string),
        (forall p, plan = Some p -> plan_invalidation p <> None) ->
        exists st msg, _validate_plan_status plan price direction = Ok (st, msg)).
Proof.
  split.
  - intros plan price direction st msg H.
    apply validate_status_listed in H. split; [exact H|].
    simpl in H. intuition (subst; discriminate).
  - apply validate_returns.
Qed.

Lemma C10_witness :
  In "INVALIDATED" returned_statuses /\ "INVALIDATED" <> "MISSED".
Proof.
  apply (proj1 C10_status_never_missed (Some example_plan) 97.5 "long"
               "INVALIDATED" (HitStopLoss 98)).
  reflexivity.
Defined.

End CoachFacts.

(** ** order_blocks.py *)

Section OrderBlockFacts.
Import OrderBlocks.

Lemma _obs_overlap_sym (a b : OrderBlock) : _obs_overlap a b = _obs_overlap b a.
Proof. unfold _obs_overlap, Qgtb, Qltb. rewrite orb_comm. reflexivity. Qed.

Lemma no_overlap_disjoint (a b : OrderBlock) :
  _obs_overlap a b = false -> disjoint_ranges a b.
Proof.
  unfold _obs_overlap. intros H. apply negb_false_iff, orb_true_iff in H.
  intros x [[Ha1 Ha2] [Hb1 Hb2]]. destruct H as [H|H]; qbool; lra.
Qed.



Lemma prune_loop_from_input (rest filtered : list OrderBlock) :
  incl (fold_left prune_step rest filtered) (filtered ++ rest).
Proof.
  revert filtered. induction rest as [|x rest IH]; intros filtered; simpl.
  - rewrite app_nil_r. apply incl_refl.
  - eapply incl_tran; [apply IH|]. unfold prune_step.
    destruct (existsb _ filtered).
    + intros z Hz. apply in_app_or in Hz. apply in_or_app. simpl. tauto.
    + rewrite <- app_assoc. simpl. apply incl_refl.
Qed.

Lemma prune_loop_pairwise (rest filtered : list OrderBlock) :
  ForallOrdPairs (fun a b => _obs_overlap a b = false) filtered ->
  ForallOrdPairs (fun a b => _obs_overlap a b = false)
                 (fold_left prune_step rest filtered).
Proof.
  revert filtered. induction rest as [|x rest IH]; intros filtered Hp; simpl.
  - exact Hp.
  - apply IH. unfold prune_step.
    destruct (existsb (fun e => _obs_overlap x e) filtered) eqn:He; [exact Hp|].
    apply ForallOrdPairs_snoc; [exact Hp|].
    apply Forall_forall. intros e Hin. rewrite _obs_overlap_sym.
    destruct (_obs_overlap x e) eqn:Hxe; [|reflexivity].
    assert (existsb (fun e => _obs_overlap x e) filtered = true)
      by (apply existsb_exists; exists e; split; assumption).
    congruence.
Qed.








End OrderBlockFacts.

(** ** liquidity.py *)

Section LiquidityFacts.
Import Liquidity.

(** When the loop merges a zone into the last merged one, the stronger of
    the two is what stays in the last slot (the earlier one on a tie). *)
Lemma merge_step_keeps_stronger (tolerance : Q) (merged : list LiquidityZone)
  (last_merged zone : LiquidityZone) :
  ~ lz_price last_merged == 0 ->
  rel_distance last_merged zone <= tolerance ->
  lz_zone_type zone = lz_zone_type last_merged ->
  exists kept,
    merge_step tolerance (merged ++ [last_merged]) zone = Ok (merged ++ [kept])
    /\ (kept = zone \/ kept = last_merged)
    /\ lz_strength zone <= lz_strength kept
    /\ lz_strength last_merged <= lz_strength kept.
Proof.
  intros Hz Hd Ht. unfold merge_step, rel_distance in *.
  rewrite rev_app_distr. change (rev [last_merged]) with [last_merged].
  cbn [app]. apply Qeq_bool_false in Hz. rewrite Hz.
  apply Qleb_le in Hd. rewrite Hd. rewrite Ht, String.eqb_refl. cbn [andb].
  destruct (Qgtb (lz_strength zone) (lz_strength last_merged)) eqn:Hs; qbool.
  - exists zone. unfold set_last. rewrite removelast_last.
    repeat split; try tauto; lra.
  - exists last_merged. repeat split; try tauto; lra.
Qed.

Lemma rel_distance_grows (x l z : LiquidityZone) :
  0 < lz_price x -> lz_price x <= lz_price l -> lz_price l <= lz_price z ->
  rel_distance x l <= rel_distance x z.
Proof.
  intros Hx Hxl Hlz. unfold rel_distance.
  rewrite !Qabs_pos by lra. unfold Qdiv.
  apply Qmult_le_compat_r; [lra|].
  apply Qlt_le_weak, Qinv_lt_0_compat, Hx.
Qed.

(** One step of the loop keeps the chain, for positive prices met in
    ascending order. *)
Lemma merge_step_chain (tol : Q) (merged prior : list LiquidityZone)
  (last_merged zone : LiquidityZone) :
  rev merged = last_merged :: prior ->
  Forall (fun z => 0 < lz_price z) merged ->
  lz_price last_merged <= lz_price zone ->
  apart_chain tol (rev merged) ->
  exists merged' last', exists prior',
    merge_step tol merged zone = Ok merged'
    /\ rev merged' = last' :: prior'
    /\ (last' = last_merged \/ last' = zone)
    /\ incl merged' (zone :: merged)
    /\ apart_chain tol (rev merged').
Proof.
  intros Hrev Hpos Hle Hch. unfold merge_step. rewrite Hrev.
  assert (Hlast : 0 < lz_price last_merged).
  { rewrite Forall_forall in Hpos. apply Hpos. apply in_rev. rewrite Hrev.
    left. reflexivity. }
  assert (Hnz : Qeq_bool (lz_price last_merged) 0 = false)
    by (apply Qeq_bool_false; lra).
  rewrite Hnz.
  destruct (Qleb _ tol && String.eqb _ _) eqn:Hclose.
  - apply andb_true_iff in Hclose. destruct Hclose as [Hd Ht].
    apply String.eqb_eq in Ht.
    destruct (Qgtb (lz_strength zone) (lz_strength last_merged)).
    + exists (set_last merged zone), zone, prior.
      assert (Hm : merged = rev prior ++ [last_merged]).
      { rewrite <- (rev_involutive merged), Hrev. reflexivity. }
      assert (Hset : set_last merged zone = rev prior ++ [zone]).
      { unfold set_last. rewrite Hm, removelast_last. reflexivity. }
      split; [reflexivity|]. rewrite Hset, rev_app_distr, rev_involutive.
      split; [reflexivity|]. split; [tauto|]. split.
      * intros z Hz. apply in_app_or in Hz. destruct Hz as [Hz|[<-|[]]].
        -- right. rewrite Hm. apply in_or_app. left. exact Hz.
        -- left. reflexivity.
      * simpl. rewrite Hrev in Hch. inversion Hch as [|y x l Hxy Hty Hrest]; subst.
        -- constructor.
        -- constructor; [lra| |exact Hrest].
           intros Hzx. rewrite Ht in Hzx. specialize (Hty Hzx).
           eapply Qlt_le_trans; [exact Hty|].
           apply rel_distance_grows; try assumption.
           rewrite Forall_forall in Hpos. apply Hpos. apply in_rev.
           rewrite Hrev. right. left. reflexivity.
    + exists merged, last_merged, prior.
      split; [reflexivity|]. split; [exact Hrev|]. split; [tauto|].
      split; [apply incl_tl, incl_refl | exact Hch].
  - exists (merged ++ [zone]), zone, (last_merged :: prior).
    split; [reflexivity|]. rewrite rev_app_distr, Hrev.
    split; [reflexivity|]. split; [tauto|]. split.
    + intros z Hz. apply in_app_or in Hz. simpl. simpl in Hz. tauto.
    + simpl. constructor; [exact Hle| |rewrite <- Hrev; exact Hch].
      intros Ht. apply andb_false_iff in Hclose. destruct Hclose as [Hd|Hn].
      * qbool. unfold rel_distance. lra.
      * rewrite Ht, String.eqb_refl in Hn. discriminate.
Qed.

Lemma merge_loop_chain (tol : Q) (rest merged prior : list LiquidityZone)
  (last_merged : LiquidityZone) :
  rev merged = last_merged :: prior ->
  Forall (fun z => 0 < lz_price z) (merged ++ rest) ->
  Forall (fun z => lz_price last_merged <= lz_price z) rest ->
  StronglySorted (fun a b => lz_price a <= lz_price b) rest ->
  apart_chain tol (rev merged) ->
  exists out, merge_loop tol merged rest = Ok out /\ apart_chain tol (rev out).
Proof.
  revert merged prior last_merged.
  induction rest as [|zone rest IH]; intros merged prior last_merged
    Hrev Hpos Hlast Hs Hch; simpl.
  - exists merged. split; [reflexivity | exact Hch].
  - inversion Hs as [|? ? Hs' Hz]; subst. inversion Hlast as [|? ? Hlz Hlast']; subst.
    apply Forall_app in Hpos. destruct Hpos as [Hpm Hpr].
    inversion Hpr as [|? ? Hpz Hpr']; subst.
    destruct (merge_step_chain tol merged prior last_merged zone Hrev Hpm Hlz Hch)
      as (merged' & last' & prior' & Hstep & Hrev' & Hwho & Hincl & Hch').
    rewrite Hstep. apply (IH merged' prior' last'); try assumption.
    + apply Forall_app. split; [|exact Hpr'].
      apply Forall_forall. intros z Hin. apply Hincl in Hin.
      destruct Hin as [<-|Hin]; [exact Hpz|].
      rewrite Forall_forall in Hpm. apply Hpm, Hin.
    + destruct Hwho as [->| ->]; [exact Hlast' | exact Hz].
Qed.

(** What the merging does guarantee: for positive prices it returns, and
    neighbouring zones of one type in the result are more than the tolerance
    apart. *)
Lemma merge_nearby_zones_neighbours (zones : list LiquidityZone) (tol : Q) :
  zones <> [] -> Forall (fun z => 0 < lz_price z) zones ->
  exists out, _merge_nearby_zones zones tol = Ok out
              /\ apart_chain tol (rev out).
Proof.
  intros Hne Hpos. unfold _merge_nearby_zones.
  set (before := fun y x : LiquidityZone => Qltb (lz_price y) (lz_price x)).
  assert (Hs : StronglySorted (fun a b => lz_price a <= lz_price b)
                 (sorted_by before zones)).
  { apply sorted_by_sorted.
    - intros a b c H1 H2. lra.
    - intros y x H. unfold before in H. qbool. lra.
    - apply ForallOrdPairs_all. intros a b H. unfold before in H. qbool. lra. }
  assert (Hp : Forall (fun z => 0 < lz_price z) (sorted_by before zones))
    by (apply sorted_by_Forall, Hpos).
  destruct (sorted_by before zones) as [|first rest] eqn:Hsorted.
  - exfalso. apply (sorted_by_nonempty before zones Hne). exact Hsorted.
  - inversion Hs; subst.
    apply (merge_loop_chain tol rest [first] [] first); try assumption.
    + reflexivity.
    + constructor.
Qed.

(** C8 at the failing input: a sell-side level priced between two buy-side
    levels keeps them from being compared, and both buy-side zones, 0.1 %
    apart, are in the merged result. *)
Theorem C8_close_zones_survive_merge :
  let a := mkLiquidityZone 100 "buy_side" 0.5 in
  let b := mkLiquidityZone 100.1 "buy_side" 0.6 in
  _merge_nearby_zones interleaved_zones default_tolerance
    = Ok [a; mkLiquidityZone 100.05 "sell_side" 0.7; b]
  /\ lz_zone_type a = lz_zone_type b
  /\ rel_distance a b <= default_tolerance.
Proof.
  cbv zeta. split; [reflexivity|]. split; [reflexivity|].
  unfold rel_distance, default_tolerance. simpl. apply Qle_bool_iff. reflexivity.
Qed.

End LiquidityFacts.

(** ** pre_market_routine.py: the scenarios *)

Section ScenarioFacts.
Import Routine.

(** *** Rounding to hundredths is monotone *)

Lemma round_half_even_bounds (x : Q) :
  (Qfloor x <= round_half_even x <= Qfloor x + 1)%Z.
Proof.
  unfold round_half_even.
  destruct (Qltb _ _); [lia|]. destruct (Qgtb _ _); [lia|].
  destruct (Z.even _); lia.
Qed.

Lemma round_half_even_mono (x y : Q) :
  x <= y -> (round_half_even x <= round_half_even y)%Z.
Proof.
  intros Hxy.
  pose proof (Qfloor_resp_le x y Hxy) as Hf.
  pose proof (round_half_even_bounds x) as Bx.
  pose proof (round_half_even_bounds y) as By.
  destruct (Z.eq_dec (Qfloor x) (Qfloor y)) as [E|N]; [|lia].
  unfold round_half_even in *. rewrite <- E in *.
  destruct (Qltb (x - inject_Z (Qfloor x)) (1 # 2)) eqn:X1; [lia|].
  destruct (Qgtb (x - inject_Z (Qfloor x)) (1 # 2)) eqn:X2.
  - assert (Hy1 : Qltb (y - inject_Z (Qfloor x)) (1 # 2) = false)
      by (apply Qltb_nlt; qbool; lra).
    assert (Hy2 : Qgtb (y - inject_Z (Qfloor x)) (1 # 2) = true)
      by (apply Qgtb_gt; qbool; lra).
    rewrite Hy1, Hy2. lia.
  - assert (Hy1 : Qltb (y - inject_Z (Qfloor x)) (1 # 2) = false)
      by (apply Qltb_nlt; qbool; lra).
    rewrite Hy1.
    destruct (Qgtb (y - inject_Z (Qfloor x)) (1 # 2)); [destruct (Z.even _); lia|].
    lia.
Qed.

Lemma round2_mono (x y : Q) : x <= y -> round2 x <= round2 y.
Proof.
  intros Hxy. unfold round2.
  assert (H : (round_half_even (x * 100) <= round_half_even (y * 100))%Z)
    by (apply round_half_even_mono; lra).
  rewrite Zle_Qle in H.
  apply Qmult_le_compat_r with (z := / 100) in H; [exact H|].
  apply Qlt_le_weak. reflexivity.
Qed.

(** *** Order facts on lists *)

Lemma StronglySorted_snoc {A : Type} (R : A -> A -> Prop) (l : list A) (x : A) :
  StronglySorted R l -> Forall (fun e => R e x) l -> StronglySorted R (l ++ [x]).
Proof.
  induction l as [|a l IH]; intros Hs Hf; simpl.
  - constructor; constructor.
  - inversion Hs as [|? ? Hs' Ha]; subst. inversion Hf as [|? ? Hax Hf']; subst.
    constructor; [apply IH; assumption|].
    apply Forall_app. split; [exact Ha|]. constructor; [exact Hax | constructor].
Qed.

Lemma StronglySorted_map {A B : Type} (R : A -> A -> Prop) (R' : B -> B -> Prop)
  (f : A -> B) (l : list A) :
  (forall a b, R a b -> R' (f a) (f b)) ->
  StronglySorted R l -> StronglySorted R' (map f l).
Proof.
  intros Hf Hs. induction Hs as [|a l Hs IH Ha]; simpl; constructor; [exact IH|].
  apply Forall_map. apply Forall_forall. intros b Hb.
  rewrite Forall_forall in Ha. apply Hf, Ha, Hb.
Qed.

Lemma StronglySorted_weaken {A : Type} (R R' : A -> A -> Prop) (l : list A) :
  (forall a b, R a b -> R' a b) -> StronglySorted R l -> StronglySorted R' l.
Proof.
  intros H Hs. rewrite <- (map_id l).
  apply StronglySorted_map with (R := R); assumption.
Qed.

(** *** Padding the ladder *)

Section Pad.
Variables (R : Q -> Q -> Prop) (B : Q -> Prop) (step : Q).
Hypothesis R_trans : forall a b c, R a b -> R b c -> R a c.
Hypothesis R_step : forall a, R a (a + step).
Hypothesis B_step : forall a, B a -> B (a + step).

Lemma all_before_next (l : list Q) :
  l <> [] -> StronglySorted R l -> Forall (fun e => R e (last l 0 + step)) l.
Proof.
  induction l as [|a l IH]; intros Hne Hs; [congruence|].
  inversion Hs as [|? ? Hs' Ha]; subst.
  destruct l as [|b l].
  - constructor; [apply R_step | constructor].
  - assert (Hl : Forall (fun e => R e (last (b :: l) 0 + step)) (b :: l))
      by (apply IH; [discriminate | exact Hs']).
    change (last (a :: b :: l) 0) with (last (b :: l) 0).
    constructor; [|exact Hl].
    inversion Ha; subst. inversion Hl; subst.
    eapply R_trans; eassumption.
Qed.

Lemma last_satisfies (l : list Q) : l <> [] -> Forall B l -> B (last l 0).
Proof.
  induction l as [|a l IH]; intros Hne Hf; [congruence|].
  inversion Hf; subst. destruct l as [|b l]; [assumption|].
  change (last (a :: b :: l) 0) with (last (b :: l) 0).
  apply IH; [discriminate | assumption].
Qed.

Lemma pad_targets_keeps (fuel : nat) (l : list Q) :
  l <> [] -> StronglySorted R l -> Forall B l ->
  StronglySorted R (pad_targets fuel step l)
  /\ Forall B (pad_targets fuel step l).
Proof.
  revert l. induction fuel as [|k IH]; intros l Hne Hs Hb; simpl; [tauto|].
  destruct (length l <? 3)%nat; [|tauto].
  apply IH.
  - destruct l; discriminate.
  - apply StronglySorted_snoc; [exact Hs | apply all_before_next; assumption].
  - apply Forall_app. split; [exact Hb|].
    constructor; [|constructor]. apply B_step, last_satisfies; assumption.
Qed.

End Pad.

Lemma pad_targets_length (step : Q) (l : list Q) :
  l <> [] -> (3 <= length (pad_targets 3 step l))%nat.
Proof.
  intros Hne. destruct l as [|a [|b [|c l]]]; [congruence| | |]; simpl; lia.
Qed.

(** *** Where the selected gap comes from *)

Lemma fold_pick_In {A : Type} (pick : A -> A -> bool) (r : list A) (a : A) :
  In (fold_left (fun best y => if pick y best then y else best) r a) (a :: r).
Proof.
  revert a. induction r as [|y r IH]; intros a; simpl; [tauto|].
  destruct (IH (if pick y a then y else a)) as [H|H].
  - destruct (pick y a); [right; left | left]; congruence.
  - tauto.
Qed.

Lemma max_by_In {A : Type} (key : A -> Q) (l : list A) (x : A) :
  max_by key l = Some x -> In x l.
Proof.
  destruct l as [|a r]; simpl; [discriminate|]. intros H. injection H as <-.
  apply (fold_pick_In (fun y best => Qgtb (key y) (key best))).
Qed.

Lemma min_by_In {A : Type} (key : A -> Q) (l : list A) (x : A) :
  min_by key l = Some x -> In x l.
Proof.
  destruct l as [|a r]; simpl; [discriminate|]. intros H. injection H as <-.
  apply (fold_pick_In (fun y best => Qltb (key y) (key best))).
Qed.

Lemma long_select_from_pool (price : Q) (dr : DealingRange) (fvgs : list FVG)
  (intraday : option (list FVG)) (f : FVG) :
  sel_fvg (long_select price dr fvgs intraday) = Some f ->
  In f (gap_pool fvgs intraday).
Proof.
  unfold long_select, gap_pool. intros H. apply in_or_app.
  destruct (filter (long_ideal price dr) fvgs) as [|g ideal] eqn:Hideal.
  - destruct (truthy_list intraday); [|discriminate].
    destruct (max_by _ _) as [n|] eqn:Hm; [|discriminate].
    injection H as <-. right. apply max_by_In in Hm.
    apply filter_In in Hm. tauto.
  - left.
    assert (Hsub : forall z, In z (g :: ideal) -> In z fvgs)
      by (intros z Hz; rewrite <- Hideal in Hz; apply filter_In in Hz; tauto).
    destruct (max_by fvg_high (filter fvg_mitigated (g :: ideal))) as [m|] eqn:Hm.
    + injection H as <-. apply max_by_In, filter_In in Hm. apply Hsub; tauto.
    + destruct (max_by fvg_high (g :: ideal)) as [m|] eqn:Hi; [|discriminate].
      injection H as <-. apply max_by_In in Hi. apply Hsub; exact Hi.
Qed.

Lemma short_select_from_pool (price : Q) (dr : DealingRange) (fvgs : list FVG)
  (intraday : option (list FVG)) (f : FVG) :
  sel_fvg (short_select price dr fvgs intraday) = Some f ->
  In f (gap_pool fvgs intraday).
Proof.
  unfold short_select, gap_pool. intros H. apply in_or_app.
  destruct (filter (short_ideal price dr) fvgs) as [|g ideal] eqn:Hideal.
  - destruct (truthy_list intraday); [|discriminate].
    destruct (min_by _ _) as [n|] eqn:Hm; [|discriminate].
    injection H as <-. right. apply min_by_In in Hm.
    apply filter_In in Hm. tauto.
  - left.
    assert (Hsub : forall z, In z (g :: ideal) -> In z fvgs)
      by (intros z Hz; rewrite <- Hideal in Hz; apply filter_In in Hz; tauto).
    destruct (min_by fvg_low (filter fvg_mitigated (g :: ideal))) as [m|] eqn:Hm.
    + injection H as <-. apply min_by_In, filter_In in Hm. apply Hsub; tauto.
    + destruct (min_by fvg_low (g :: ideal)) as [m|] eqn:Hi; [|discriminate].
      injection H as <-. apply min_by_In in Hi. apply Hsub; exact Hi.
Qed.

(** *** The stop lies on the far side of the entry zone *)

Lemma long_entry_risk (price : Q) (dr : DealingRange) (fvgs : list FVG)
  (sel : Selection) :
  (forall f, sel_fvg sel = Some f -> wf_gap f) ->
  en_stop_loss (long_entry price dr fvgs sel) < en_high (long_entry price dr fvgs sel).
Proof.
  intros Hwf. unfold long_entry.
  destruct (sel_fvg sel) as [f|].
  - specialize (Hwf f eq_refl). unfold wf_gap in Hwf. simpl. lra.
  - destruct (long_market_execution dr fvgs sel); simpl; lra.
Qed.

Lemma short_entry_risk (price : Q) (dr : DealingRange) (fvgs : list FVG)
  (sel : Selection) :
  (forall f, sel_fvg sel = Some f -> wf_gap f) ->
  en_low (short_entry price dr fvgs sel) < en_stop_loss (short_entry price dr fvgs sel).
Proof.
  intros Hwf. unfold short_entry.
  destruct (sel_fvg sel) as [f|].
  - specialize (Hwf f eq_refl). unfold wf_gap in Hwf. simpl. lra.
  - destruct (short_market_execution dr fvgs sel); simpl; lra.
Qed.

(** *** The ladder before rounding *)

Lemma ascending_sorted (l : list Q) : StronglySorted Qle (sorted_by Qltb l).
Proof.
  apply sorted_by_sorted.
  - intros a b c. apply Qle_trans.
  - intros y x H. qbool. lra.
  - apply ForallOrdPairs_all. intros a b H. qbool. lra.
Qed.

Lemma descending_sorted (l : list Q) :
  StronglySorted (fun a b => b <= a) (sorted_by Qgtb l).
Proof.
  apply sorted_by_sorted.
  - intros a b c H1 H2. lra.
  - intros y x H. qbool. lra.
  - apply ForallOrdPairs_all. intros a b H. qbool. lra.
Qed.

Ltac ord_pairs :=
  repeat first [ apply FOP_nil | apply FOP_cons | apply Forall_nil
               | apply Forall_cons ];
  intros; qbool; lra.

Lemma long_targets_weak (dr : DealingRange) (eh sl : Q) :
  sl < eh -> nondecreasing_from eh (long_targets dr eh sl)
             /\ Forall (fun t => eh < t) (long_targets dr eh sl).
Proof.
  intros Hrisk. unfold long_targets, nondecreasing_from.
  set (V := match filter _ _ with [] => _ | _ => _ end).
  assert (Hne : V <> []) by (unfold V; destruct (filter _ _); discriminate).
  assert (Hb : Forall (fun t => eh < t) V).
  { unfold V. destruct (filter _ _) eqn:Hf.
    - constructor; [lra | constructor].
    - rewrite <- Hf. apply Forall_forall. intros t Ht.
      apply filter_In in Ht. destruct Ht as [_ Ht]. qbool. exact Ht. }
  destruct (pad_targets_keeps Qle (fun t => eh < t) 1.0) with (fuel := 3%nat)
    (l := sorted_by Qltb V) as [Hs Hf].
  - intros a b c. apply Qle_trans.
  - intros a. lra.
  - intros a Ha. lra.
  - apply sorted_by_nonempty, Hne.
  - apply ascending_sorted.
  - apply sorted_by_Forall, Hb.
  - split; [|exact Hf]. split; [|split; [|exact Hs]].
    + apply pad_targets_length, sorted_by_nonempty, Hne.
    + revert Hf. apply Forall_impl. intros; lra.
Qed.

Lemma long_targets_strict (dr : DealingRange) (eh sl : Q) :
  dr_equilibrium dr < dr_premium dr -> dr_premium dr < dr_high dr ->
  StronglySorted Qlt (long_targets dr eh sl).
Proof.
  intros H1 H2. unfold long_targets.
  set (V := match filter _ _ with [] => _ | _ => _ end).
  assert (Hne : V <> []) by (unfold V; destruct (filter _ _); discriminate).
  apply (pad_targets_keeps Qlt (fun _ => True) 1.0); auto.
  - intros a b c. apply Qlt_trans.
  - intros a. lra.
  - apply sorted_by_nonempty, Hne.
  - apply sorted_by_sorted.
    + intros a b c. apply Qlt_trans.
    + intros y x H. qbool. exact H.
    + unfold V. simpl filter.
      destruct (Qgtb (dr_equilibrium dr) eh), (Qgtb (dr_premium dr) eh),
        (Qgtb (dr_high dr) eh); ord_pairs.
  - apply Forall_forall. auto.
Qed.

Lemma short_targets_weak (dr : DealingRange) (el sl : Q) :
  el < sl -> nonincreasing_from el (short_targets dr el sl)
             /\ Forall (fun t => t < el) (short_targets dr el sl).
Proof.
  intros Hrisk. unfold short_targets, nonincreasing_from.
  set (V := match filter _ _ with [] => _ | _ => _ end).
  assert (Hne : V <> []) by (unfold V; destruct (filter _ _); discriminate).
  assert (Hb : Forall (fun t => t < el) V).
  { unfold V. destruct (filter _ _) eqn:Hf.
    - constructor; [lra | constructor].
    - rewrite <- Hf. apply Forall_forall. intros t Ht.
      apply filter_In in Ht. destruct Ht as [_ Ht]. qbool. exact Ht. }
  destruct (pad_targets_keeps (fun a b => b <= a) (fun t => t < el) (- 1.0))
    with (fuel := 3%nat) (l := sorted_by Qgtb V) as [Hs Hf].
  - intros a b c H1 H2. lra.
  - intros a. lra.
  - intros a Ha. lra.
  - apply sorted_by_nonempty, Hne.
  - apply descending_sorted.
  - apply sorted_by_Forall, Hb.
  - split; [|exact Hf]. split; [|split; [|exact Hs]].
    + apply pad_targets_length, sorted_by_nonempty, Hne.
    + revert Hf. apply Forall_impl. intros; lra.
Qed.

Lemma short_targets_strict (dr : DealingRange) (el sl : Q) :
  dr_discount dr < dr_equilibrium dr -> dr_low dr < dr_discount dr ->
  StronglySorted (fun a b => b < a) (short_targets dr el sl).
Proof.
  intros H1 H2. unfold short_targets.
  set (V := match filter _ _ with [] => _ | _ => _ end).
  assert (Hne : V <> []) by (unfold V; destruct (filter _ _); discriminate).
  apply (pad_targets_keeps (fun a b => b < a) (fun _ => True) (- 1.0)); auto.
  - intros a b c Hab Hbc. lra.
  - intros a. lra.
  - apply sorted_by_nonempty, Hne.
  - apply sorted_by_sorted.
    + intros a b c Hab Hbc. lra.
    + intros y x H. qbool. exact H.
    + unfold V. simpl filter.
      destruct (Qltb (dr_equilibrium dr) el), (Qltb (dr_discount dr) el),
        (Qltb (dr_low dr) el); ord_pairs.
  - apply Forall_forall. auto.
Qed.

Lemma zones_ordered (dr : DealingRange) :
  zones_of dr -> dr_low dr < dr_high dr ->
  dr_low dr < dr_discount dr /\ dr_discount dr < dr_equilibrium dr
  /\ dr_equilibrium dr < dr_premium dr /\ dr_premium dr < dr_high dr.
Proof. unfold zones_of. intros (He & Hp & Hd) Hlt. repeat split; lra. Qed.

Lemma rounded_nondecreasing (bound : Q) (ts : list Q) :
  nondecreasing_from bound ts -> nondecreasing_from (round2 bound) (map round2 ts).
Proof.
  intros (Hlen & Hb & Hs). split; [rewrite length_map; exact Hlen|]. split.
  - apply Forall_map. revert Hb. apply Forall_impl. apply round2_mono.
  - revert Hs. apply StronglySorted_map. apply round2_mono.
Qed.

Lemma rounded_nonincreasing (bound : Q) (ts : list Q) :
  nonincreasing_from bound ts -> nonincreasing_from (round2 bound) (map round2 ts).
Proof.
  intros (Hlen & Hb & Hs). split; [rewrite length_map; exact Hlen|]. split.
  - apply Forall_map. revert Hb. apply Forall_impl. intros t. apply round2_mono.
  - revert Hs. apply StronglySorted_map. intros a b. apply round2_mono.
Qed.

Lemma not_strict_with_repeat (a : Q) (l1 l2 : list Q) (R : Q -> Q -> Prop) :
  ~ R a a -> ~ StronglySorted R (l1 ++ a :: a :: l2).
Proof.
  intros Hirr. induction l1 as [|x l1 IH]; simpl; intros Hs.
  - inversion Hs as [|? ? _ Hf]; subst. inversion Hf; subst. contradiction.
  - inversion Hs; subst. apply IH. assumption.
Qed.

(** C3, as the claim states it, fails on returned scenarios.  With a
    two-cent dealing range (100 to 100.02) and a reachable gap beyond it, the
    equilibrium and the next level round to the same cent, for the long and
    for the short scenario; with a dealing range whose high equals its low
    the three levels coincide before any rounding. *)
Lemma C3_targets_repeat :
  sc_targets (_build_long_scenario 100 NEUTRAL narrow_range [gap_below] None)
    = [100.01; 100.01; 100.02]
  /\ ~ StronglySorted Qlt
       (sc_targets (_build_long_scenario 100 NEUTRAL narrow_range [gap_below] None))
  /\ sc_targets (_build_short_scenario 100 NEUTRAL narrow_range [gap_above] None)
     = [100.01; 100.01; 100.00]
  /\ ~ StronglySorted (fun a b => b < a)
       (sc_targets (_build_short_scenario 100 NEUTRAL narrow_range [gap_above] None))
  /\ ~ StronglySorted Qlt
       (raw_targets (long_raw 99.5 NEUTRAL flat_range [gap_below] None)).
Proof.
  assert (Hirr : forall a : Q, ~ a < a) by (intros a H; lra).
  split; [vm_compute; reflexivity|]. split.
  { replace (sc_targets _) with ([] ++ 100.01 :: 100.01 :: [100.02])
      by (vm_compute; reflexivity).
    apply not_strict_with_repeat, Hirr. }
  split; [vm_compute; reflexivity|]. split.
  { replace (sc_targets _) with ([] ++ 100.01 :: 100.01 :: [100.00])
      by (vm_compute; reflexivity).
    apply not_strict_with_repeat, Hirr. }
  replace (raw_targets _) with [100.00; 100.000; 100]
      by (vm_compute; reflexivity).
  intros Hs. inversion Hs as [|? ? _ Hf]; subst. inversion Hf as [|? ? Hlt _]; subst.
  revert Hlt. apply Qle_not_lt. apply Qle_bool_iff. reflexivity.
Qed.

(** C3 (amended): for gaps with [low <= high], every long scenario has,
    before the final rounding, at least three targets in nondecreasing order,
    each strictly above the entry high, and, when the dealing range has
    [high > low] with its levels at 38.2 %, 50 % and 61.8 %, in strictly
    increasing order; the short scenario mirrors this below the entry low.
    The returned targets are those prices rounded to hundredths: at least
    three, in nondecreasing (short: nonincreasing) order, none below (short:
    above) the returned entry high (short: entry low). *)
Theorem C3_scenario_targets :
  forall (price : Q) (bias : BiasType) (dr : DealingRange) (fvgs : list FVG)
         (intraday : option (list FVG)),
    Forall wf_gap (gap_pool fvgs intraday) ->
    let rawL := long_raw price bias dr fvgs intraday in
    let rawS := short_raw price bias dr fvgs intraday in
    let scL := _build_long_scenario price bias dr fvgs intraday in
    let scS := _build_short_scenario price bias dr fvgs intraday in
    (nondecreasing_from (raw_entry_high rawL) (raw_targets rawL)
     /\ Forall (fun t => raw_entry_high rawL < t) (raw_targets rawL))
    /\ (nonincreasing_from (raw_entry_low rawS) (raw_targets rawS)
        /\ Forall (fun t => t < raw_entry_low rawS) (raw_targets rawS))
    /\ (zones_of dr -> dr_low dr < dr_high dr ->
        rising_above (raw_entry_high rawL) (raw_targets rawL)
        /\ falling_below (raw_entry_low rawS) (raw_targets rawS))
    /\ (sc_targets scL = map round2 (raw_targets rawL)
        /\ sc_entry_high scL = round2 (raw_entry_high rawL)
        /\ nondecreasing_from (sc_entry_high scL) (sc_targets scL))
    /\ (sc_targets scS = map round2 (raw_targets rawS)
        /\ sc_entry_low scS = round2 (raw_entry_low rawS)
        /\ nonincreasing_from (sc_entry_low scS) (sc_targets scS)).
Proof.
  intros price bias dr fvgs intraday Hwf rawL rawS scL scS.
  rewrite Forall_forall in Hwf.
  set (eL := long_entry price dr fvgs (long_select price dr fvgs intraday)).
  set (eS := short_entry price dr fvgs (short_select price dr fvgs intraday)).
  assert (HtL : raw_targets rawL = long_targets dr (en_high eL) (en_stop_loss eL))
    by reflexivity.
  assert (HtS : raw_targets rawS = short_targets dr (en_low eS) (en_stop_loss eS))
    by reflexivity.
  assert (HeL : raw_entry_high rawL = en_high eL) by reflexivity.
  assert (HeS : raw_entry_low rawS = en_low eS) by reflexivity.
  assert (HrL : en_stop_loss eL < en_high eL).
  { apply long_entry_risk. intros f Hf. apply Hwf.
    apply long_select_from_pool with (1 := Hf). }
  assert (HrS : en_low eS < en_stop_loss eS).
  { apply short_entry_risk. intros f Hf. apply Hwf.
    apply short_select_from_pool with (1 := Hf). }
  pose proof (long_targets_weak dr _ _ HrL) as [HwL HbL].
  pose proof (short_targets_weak dr _ _ HrS) as [HwS HbS].
  rewrite <- HtL, <- HeL in HwL, HbL. rewrite <- HtS, <- HeS in HwS, HbS.
  split; [split; assumption|]. split; [split; assumption|]. split.
  - intros Hz Hlt. destruct (zones_ordered dr Hz Hlt) as (Z1 & Z2 & Z3 & Z4).
    split.
    + split; [apply HwL|]. split; [exact HbL|].
      rewrite HtL. apply long_targets_strict; assumption.
    + split; [apply HwS|]. split; [exact HbS|].
      rewrite HtS. apply short_targets_strict; assumption.
  - split.
    + split; [reflexivity|]. split; [reflexivity|].
      apply (rounded_nondecreasing _ _ HwL).
    + split; [reflexivity|]. split; [reflexivity|].
      apply (rounded_nonincreasing _ _ HwS).
Qed.

Lemma C3_witness :
  Forall wf_gap (gap_pool [gap_below; gap_above] None)
  /\ rising_above
       (raw_entry_high (long_raw 104 BULLISH wide_range [gap_below; gap_above] None))
       (raw_targets (long_raw 104 BULLISH wide_range [gap_below; gap_above] None))
  /\ nondecreasing_from
       (sc_entry_high (_build_long_scenario 104 BULLISH wide_range
                         [gap_below; gap_above] None))
       (sc_targets (_build_long_scenario 104 BULLISH wide_range
                      [gap_below; gap_above] None)).
Proof.
  assert (Hwf : Forall wf_gap (gap_pool [gap_below; gap_above] None)).
  { repeat constructor; unfold wf_gap; simpl; apply Qle_bool_iff; reflexivity. }
  assert (Hz : zones_of wide_range).
  { unfold zones_of. simpl. repeat split; reflexivity. }
  assert (Hlt : dr_low wide_range < dr_high wide_range) by reflexivity.
  pose proof (C3_scenario_targets 104 BULLISH wide_range [gap_below; gap_above]
                None Hwf) as H.
  cbv zeta in H. destruct H as (_ & _ & Hstrict & (_ & _ & Hret) & _).
  split; [exact Hwf|]. split; [exact (proj1 (Hstrict Hz Hlt)) | exact Hret].
Defined.

End ScenarioFacts.

(** * Further properties *)

(** ** fvg.py *)

Section FvgMoreFacts.
Import Fvg FvgFilter.

Lemma emitted_gap_shape (df : list Bar) (lookback : Z) (f : FVG) :
  In f (detect_fvgs df lookback) ->
  fvg_low f < fvg_high f
  /\ fvg_gap_size f == fvg_high f - fvg_low f
  /\ 0 < fvg_gap_size f
  /\ (fvg_direction f = "bullish" \/ fvg_direction f = "bearish").
Proof.
  unfold detect_fvgs.
  destruct (length df <? 10)%nat; [contradiction|].
  intros Hin. apply in_scan in Hin. destruct Hin as (i & _ & Hf).
  destruct (fvg_at_inv _ _ _ Hf) as (c1 & c3 & _ & _ & [[Hlt Hs]|(_ & Hlt & Hs)]).
  - destruct Hs as (Hd & Hl & Hh & Hg & _). rewrite Hl, Hh, Hg.
    repeat split; try lra. left. exact Hd.
  - destruct Hs as (Hd & Hh & Hl & Hg & _). rewrite Hl, Hh, Hg.
    repeat split; try lra. right. exact Hd.
Qed.

(** X1: every gap the detector emits has its low edge strictly below its
    high edge, a size equal to their difference and hence positive, and a
    direction that is bullish or bearish. *)
Theorem X1_emitted_gap_shape :
  forall (df : list Bar) (lookback : Z) (f : FVG),
    In f (detect_fvgs df lookback) ->
    fvg_low f < fvg_high f
    /\ fvg_gap_size f == fvg_high f - fvg_low f
    /\ 0 < fvg_gap_size f
    /\ (fvg_direction f = "bullish" \/ fvg_direction f = "bearish").
Proof.
  intros df lookback f Hin.
  destruct (emitted_gap_shape df lookback f Hin) as (Hedges & Hsize & Hpos & Hdir).
  split; [exact Hedges|]. split; [exact Hsize|]. split; [exact Hpos | exact Hdir].
Qed.

Lemma X1_witness :
  exists f, In f (detect_fvgs padded_example_bars 100)
            /\ fvg_low f < fvg_high f /\ 0 < fvg_gap_size f.
Proof.
  eexists. split; [vm_compute; left; reflexivity|].
  assert (H : In (mkFVG 10.5 10 3 0.5 "bullish" false false false)
                 (detect_fvgs padded_example_bars 100))
    by (vm_compute; left; reflexivity).
  destruct (X1_emitted_gap_shape _ _ _ H) as (H1 & _ & H3 & _).
  split; [exact H1 | exact H3].
Defined.

Lemma df_tail_incl {A : Type} (n : Z) (df : list A) : incl (df_tail n df) df.
Proof.
  unfold df_tail. destruct (n =? 0)%Z; [intros x []|].
  destruct (0 <? n)%Z; intros x Hx;
    match type of Hx with In _ (skipn ?k _) =>
      rewrite <- (firstn_skipn k df); apply in_or_app; right; exact Hx end.
Qed.

Lemma df_tail_length {A : Type} (n : Z) (df : list A) :
  (length (df_tail n df) <= length df)%nat
  /\ ((0 <= n)%Z -> (length (df_tail n df) <= Z.to_nat n)%nat).
Proof.
  unfold df_tail. destruct (n =? 0)%Z eqn:E0; [simpl; split; lia|].
  destruct (0 <? n)%Z eqn:E1; rewrite length_skipn; split; lia.
Qed.

(** X2: when every row closes between its low and its high, a gap that is
    invalidated is also mitigated. *)
Theorem X2_invalidated_gap_is_mitigated :
  forall (df : list Bar) (lookback : Z) (f : FVG),
    Forall wf_bar df ->
    In f (detect_fvgs df lookback) ->
    fvg_invalidated f = true -> fvg_mitigated f = true.
Proof.
  intros df lookback f Hwf Hin Hinv.
  destruct (emitted_gap_shape df lookback f Hin) as (Hlt & _ & _ & Hdir).
  unfold detect_fvgs in Hin. destruct (length df <? 10)%nat; [contradiction|].
  apply in_scan in Hin. destruct Hin as (i & _ & Hf).
  pose proof (fvg_at_flags _ _ _ Hf) as (Hbull & Hbear & _ & _).
  assert (Hlater : forall c, In c (skipn (S i) (df_tail lookback df)) -> wf_bar c).
  { intros c Hc. rewrite Forall_forall in Hwf. apply Hwf.
    apply (df_tail_incl lookback). rewrite <- (firstn_skipn (S i) (df_tail lookback df)).
    apply in_or_app. right. exact Hc. }
  destruct Hdir as [Hd|Hd].
  - destruct (Hbull Hd) as [Hm Hi]. apply Hi in Hinv.
    destruct Hinv as (c & Hc & Hclose). apply Hm. exists c. split; [exact Hc|].
    destruct (Hlater c Hc) as [Hlc _]. lra.
  - destruct (Hbear Hd) as [Hm Hi]. apply Hi in Hinv.
    destruct Hinv as (c & Hc & Hclose). apply Hm. exists c. split; [exact Hc|].
    destruct (Hlater c Hc) as [_ Hch]. lra.
Qed.

Lemma X2_witness :
  fvg_mitigated (mkFVG 10.5 10 9 0.5 "bullish" true true true) = true.
Proof.
  apply (X2_invalidated_gap_is_mitigated gap_down_bars 100).
  - repeat constructor; simpl; apply Qle_bool_iff; reflexivity.
  - vm_compute. left. reflexivity.
  - reflexivity.
Defined.

Lemma flat_map_length_le {A B : Type} (g : A -> list B) (l : list A) :
  (forall a, length (g a) <= 1)%nat -> (length (flat_map g l) <= length l)%nat.
Proof.
  intros Hg. induction l as [|a l IH]; simpl; [lia|].
  rewrite length_app. specialize (Hg a). lia.
Qed.

(** X3: the detector emits at most one gap per row from the third row of
    the trimmed frame on, so at most [len - 2] gaps and, for a lookback
    [n >= 0], at most [n - 2]; a frame of fewer than ten rows or a lookback
    of 0, 1 or 2 gives none. *)
Theorem X3_gap_count_bounds :
  forall (df : list Bar) (lookback : Z),
    (length (detect_fvgs df lookback) <= length df - 2)%nat
    /\ ((0 <= lookback)%Z ->
        (length (detect_fvgs df lookback) <= Z.to_nat lookback - 2)%nat)
    /\ ((length df < 10)%nat \/ (0 <= lookback <= 2)%Z ->
        detect_fvgs df lookback = []).
Proof.
  intros df lookback.
  assert (Hscan : forall d, (length (scan d) <= length d - 2)%nat).
  { intros d. unfold scan.
    eapply Nat.le_trans; [apply flat_map_length_le|rewrite length_seq; lia].
    intros a. destruct (fvg_at d a); simpl; lia. }
  destruct (df_tail_length lookback df) as [Hl Hn].
  assert (H1 : (length (detect_fvgs df lookback) <= length df - 2)%nat).
  { unfold detect_fvgs. destruct (length df <? 10)%nat; [simpl; lia|].
    specialize (Hscan (df_tail lookback df)). lia. }
  assert (H2 : (0 <= lookback)%Z ->
               (length (detect_fvgs df lookback) <= Z.to_nat lookback - 2)%nat).
  { intros Hpos. unfold detect_fvgs. destruct (length df <? 10)%nat; [simpl; lia|].
    specialize (Hscan (df_tail lookback df)). specialize (Hn Hpos). lia. }
  split; [exact H1|]. split; [exact H2|].
  intros [Hshort|Hlb].
  - unfold detect_fvgs. apply Nat.ltb_lt in Hshort. rewrite Hshort. reflexivity.
  - assert (Hz : (length (detect_fvgs df lookback) <= 0)%nat)
      by (etransitivity; [apply H2; lia | lia]).
    destruct (detect_fvgs df lookback); [reflexivity | simpl in Hz; lia].
Qed.

Lemma X3_witness : detect_fvgs padded_example_bars 2 = [].
Proof.
  apply (proj2 (proj2 (X3_gap_count_bounds padded_example_bars 2%Z))).
  right. lia.
Defined.

Lemma filter_significant_ok (fvgs : list FVG) (min_size : Q) :
  Forall (fun f => ~ fvg_low f == 0) fvgs ->
  filter_significant_fvgs fvgs min_size
  = Ok (filter (fun f => Qgeb (fvg_gap_size f / fvg_low f) min_size) fvgs).
Proof.
  induction 1 as [|f l Hf _ IH]; simpl; [reflexivity|].
  apply Qeq_bool_false in Hf. rewrite Hf, IH.
  destruct (Qgeb _ _); reflexivity.
Qed.

Lemma filter_significant_raises (fvgs : list FVG) (min_size : Q) :
  Exists (fun f => fvg_low f == 0) fvgs ->
  filter_significant_fvgs fvgs min_size = Raise ZeroDivisionError.
Proof.
  induction 1 as [f l Hf|f l _ IH]; simpl.
  - apply Qeq_bool_iff in Hf. rewrite Hf. reflexivity.
  - destruct (Qeq_bool (fvg_low f) 0); [reflexivity|]. rewrite IH. reflexivity.
Qed.

(** X4: the significance filter raises ZeroDivisionError exactly when some
    gap has a zero low edge; otherwise it returns, in input order, the gaps
    with [gap_size / low >= min_size].  On the detector's output over rows
    with positive highs it never raises, and every gap it keeps has
    [gap_size >= min_size * low]. *)
Theorem X4_significance_filter :
  (forall (fvgs : list FVG) (min_size : Q),
      (Exists (fun f => fvg_low f == 0) fvgs ->
       filter_significant_fvgs fvgs min_size = Raise ZeroDivisionError)
      /\ (Forall (fun f => ~ fvg_low f == 0) fvgs ->
          filter_significant_fvgs fvgs min_size
          = Ok (filter (fun f => Qgeb (fvg_gap_size f / fvg_low f) min_size) fvgs)))
  /\ (forall (df : list Bar) (lookback : Z) (min_size : Q),
        Forall (fun c => 0 < bar_high c) df ->
        exists kept,
          filter_significant_fvgs (detect_fvgs df lookback) min_size = Ok kept
          /\ incl kept (detect_fvgs df lookback)
          /\ Forall (fun f => min_size * fvg_low f <= fvg_gap_size f) kept).
Proof.
  split.
  - intros fvgs min_size. split;
      [apply filter_significant_raises | apply filter_significant_ok].
  - intros df lookback min_size Hpos.
    assert (Hlow : Forall (fun f => 0 < fvg_low f) (detect_fvgs df lookback)).
    { apply Forall_forall. intros f Hin. unfold detect_fvgs in Hin.
      destruct (length df <? 10)%nat; [contradiction|].
      apply in_scan in Hin. destruct Hin as (i & _ & Hf).
      destruct (fvg_at_inv _ _ _ Hf) as (c1 & c3 & H1 & H3 & Hc).
      rewrite Forall_forall in Hpos.
      assert (P1 : 0 < bar_high c1)
        by (apply Hpos, (df_tail_incl lookback), (nth_error_In _ _ H1)).
      assert (P3 : 0 < bar_high c3)
        by (apply Hpos, (df_tail_incl lookback), (nth_error_In _ _ H3)).
      destruct Hc as [[_ Hs]|(_ & _ & Hs)].
      - destruct Hs as (_ & Hl & _). rewrite Hl. exact P1.
      - destruct Hs as (_ & _ & Hl & _). rewrite Hl. exact P3. }
    eexists. split.
    + apply filter_significant_ok. revert Hlow. apply Forall_impl.
      intros f Hf Hz. rewrite Hz in Hf. revert Hf. apply Qlt_irrefl.
    + split.
      * intros f Hf. apply filter_In in Hf. tauto.
      * apply Forall_forall. intros f Hf. apply filter_In in Hf.
        destruct Hf as [Hin Hge]. qbool. rewrite Forall_forall in Hlow.
        specialize (Hlow f Hin).
        apply Qmult_le_r with (z := fvg_low f) in Hge; [|exact Hlow].
        unfold Qdiv in Hge. rewrite <- Qmult_assoc in Hge.
        rewrite (Qmult_comm (/ fvg_low f)), Qmult_inv_r, Qmult_1_r in Hge; [exact Hge|].
        intros Hz. rewrite Hz in Hlow. revert Hlow. apply Qlt_irrefl.
Qed.

Lemma X4_witness :
  exists kept,
    filter_significant_fvgs (detect_fvgs padded_example_bars 100) 0.001 = Ok kept
    /\ incl kept (detect_fvgs padded_example_bars 100)
    /\ Forall (fun f => 0.001 * fvg_low f <= fvg_gap_size f) kept.
Proof.
  apply (proj2 X4_significance_filter padded_example_bars 100%Z 0.001).
  repeat constructor.
Defined.

End FvgMoreFacts.

(** ** structure.py *)

Section StructureMoreFacts.
Import Structure StructureBos.

Lemma slice_In {A : Type} (a b : nat) (l : list A) (y : A) :
  In y (slice a b l) <-> exists j, (a <= j < b)%nat /\ nth_error l j = Some y.
Proof.
  unfold slice. split.
  - intros H. apply In_nth_error in H. destruct H as (k & Hk).
    rewrite nth_error_firstn in Hk.
    destruct (k <? b - a)%nat eqn:E; [|discriminate].
    apply Nat.ltb_lt in E. rewrite nth_error_skipn in Hk.
    exists (a + k)%nat. split; [lia | exact Hk].
  - intros (j & Hj & Hy). apply nth_error_In with (n := (j - a)%nat).
    rewrite nth_error_firstn.
    assert (E : (j - a <? b - a)%nat = true) by (apply Nat.ltb_lt; lia).
    rewrite E, nth_error_skipn. replace (a + (j - a))%nat with j by lia. exact Hy.
Qed.

Lemma is_swing_high (window : nat) (data : list Q) (i : nat) (x : Q) :
  (window <= i)%nat -> nth_error data i = Some x ->
  is_swing "high" window data i = true <->
  (forall j y, (i - window <= j <= i + window)%nat ->
               nth_error data j = Some y -> y <= x).
Proof.
  intros Hw Hx. unfold is_swing. simpl String.eqb. cbv iota.
  rewrite (nth_error_nth _ _ 0 Hx).
  rewrite andb_true_iff, !forallb_forall. split.
  - intros [Hb Ha] j y Hj Hy.
    destruct (Nat.lt_trichotomy j i) as [Hlt|[->|Hgt]].
    + apply Qgeb_ge, Hb, slice_In. exists j. split; [lia | exact Hy].
    + rewrite Hx in Hy. injection Hy as ->. apply Qle_refl.
    + apply Qgeb_ge, Ha, slice_In. exists j. split; [lia | exact Hy].
  - intros H. split; intros y Hy; apply slice_In in Hy;
      destruct Hy as (j & Hj & Hy); apply Qgeb_ge, (H j y); try lia; exact Hy.
Qed.

Lemma is_swing_low (mode : string) (window : nat) (data : list Q) (i : nat)
  (x : Q) :
  mode <> "high" ->
  (window <= i)%nat -> nth_error data i = Some x ->
  is_swing mode window data i = true <->
  (forall j y, (i - window <= j <= i + window)%nat ->
               nth_error data j = Some y -> x <= y).
Proof.
  intros Hm Hw Hx. unfold is_swing. apply String.eqb_neq in Hm. rewrite Hm.
  rewrite (nth_error_nth _ _ 0 Hx).
  rewrite andb_true_iff, !forallb_forall. split.
  - intros [Hb Ha] j y Hj Hy.
    destruct (Nat.lt_trichotomy j i) as [Hlt|[->|Hgt]].
    + apply Qleb_le, Hb, slice_In. exists j. split; [lia | exact Hy].
    + rewrite Hx in Hy. injection Hy as ->. apply Qle_refl.
    + apply Qleb_le, Ha, slice_In. exists j. split; [lia | exact Hy].
  - intros H. split; intros y Hy; apply slice_In in Hy;
      destruct Hy as (j & Hj & Hy); apply Qleb_le, (H j y); try lia; exact Hy.
Qed.

Lemma swings_In (data : list Q) (mode : string) (window : nat) (x : Q) :
  In x (_identify_swings data mode window) <->
  exists i, (window <= i < length data - window)%nat
            /\ nth_error data i = Some x
            /\ is_swing mode window data i = true.
Proof.
  unfold _identify_swings. rewrite in_flat_map. split.
  - intros (i & Hi & Hx). apply in_seq in Hi.
    destruct (is_swing mode window data i) eqn:Hs; [|contradiction].
    destruct Hx as [<-|[]]. exists i. split; [lia|]. split; [|exact Hs].
    apply nth_error_nth'. lia.
  - intros (i & Hi & Hx & Hs). exists i. split; [apply in_seq; lia|].
    rewrite Hs. left. apply nth_error_nth. exact Hx.
Qed.

Lemma swing_highs_local_max (data : list Q) (window : nat) (x : Q) :
  In x (_identify_swings data "high" window) <->
  exists i, local_max window data i x.
Proof.
  rewrite swings_In. unfold local_max.
  split; intros (i & Hi & Hx & Hs); exists i; (split; [exact Hi|]);
    (split; [exact Hx|]); apply (is_swing_high window data i x); try assumption; lia.
Qed.

Lemma swing_lows_local_min (data : list Q) (mode : string) (window : nat) (x : Q) :
  mode <> "high" ->
  In x (_identify_swings data mode window) <->
  exists i, local_min window data i x.
Proof.
  intros Hm. rewrite swings_In. unfold local_min.
  split; intros (i & Hi & Hx & Hs); exists i; (split; [exact Hi|]);
    (split; [exact Hx|]); apply (is_swing_low mode window data i x);
    try assumption; lia.
Qed.

(** X5: the swing scanner returns exactly the values that are a maximum
    (mode ["high"]) or a minimum (any other mode) of the [2*window + 1] rows
    centred on a row that has [window] rows on both sides; a series shorter
    than [2*window + 1] has no swing. *)
Theorem X5_swings_are_local_extrema :
  forall (data : list Q) (window : nat),
    (forall x, In x (_identify_swings data "high" window) <->
               exists i, local_max window data i x)
    /\ (forall mode x, mode <> "high" ->
          (In x (_identify_swings data mode window) <->
           exists i, local_min window data i x))
    /\ (forall mode, (length data < 2 * window + 1)%nat ->
          _identify_swings data mode window = []).
Proof.
  intros data window. split; [|split].
  - intros x. apply swing_highs_local_max.
  - intros mode x Hm. apply swing_lows_local_min. exact Hm.
  - intros mode Hshort. unfold _identify_swings.
    replace (length data - window - window)%nat with 0%nat by lia. reflexivity.
Qed.

Lemma X5_witness :
  _identify_swings [1; 2; 3; 2; 1] "low" 3 = [].
Proof.
  apply (proj2 (proj2 (X5_swings_are_local_extrema [1; 2; 3; 2; 1] 3))).
  simpl. lia.
Defined.

Lemma rev_head_In {A : Type} (l : list A) (x : A) (r : list A) :
  rev l = x :: r -> In x l.
Proof. intros H. apply in_rev. rewrite H. left. reflexivity. Qed.

(** X6: a break of structure is reported only for a frame of at least 20
    rows that has both a swing high and a swing low; the flag is true exactly
    when the direction is not ["none"]; a bullish break means the last close
    is above a local maximum of the highs, a bearish one that it is below a
    local minimum of the lows. *)
Theorem X6_break_of_structure :
  forall df : list Bar,
    let r := detect_break_of_structure df in
    ((length df < 20)%nat -> r = (false, "none"))
    /\ (_identify_swings (map bar_high df) "high" 5 = []
        \/ _identify_swings (map bar_low df) "low" 5 = [] -> r = (false, "none"))
    /\ (r = (true, "bullish") \/ r = (true, "bearish") \/ r = (false, "none"))
    /\ (r = (true, "bullish") ->
        exists i x, local_max 5 (map bar_high df) i x
                    /\ x < last (map bar_close df) 0)
    /\ (r = (true, "bearish") ->
        exists i x, local_min 5 (map bar_low df) i x
                    /\ last (map bar_close df) 0 < x).
Proof.
  intros df r. unfold r, detect_break_of_structure.
  destruct (length df <? 20)%nat eqn:Hlen.
  { repeat split; try tauto; discriminate. }
  apply Nat.ltb_ge in Hlen.
  destruct (rev (_identify_swings (map bar_high df) "high" 5))
    as [|sh hs] eqn:Hh.
  { repeat split; try tauto; try discriminate; lia. }
  destruct (rev (_identify_swings (map bar_low df) "low" 5))
    as [|sl ls] eqn:Hl.
  { repeat split; try tauto; try discriminate; lia. }
  assert (Hne : _identify_swings (map bar_high df) "high" 5 = []
                \/ _identify_swings (map bar_low df) "low" 5 = [] -> False).
  { intros [E|E]; rewrite E in *; discriminate. }
  apply rev_head_In in Hh. apply rev_head_In in Hl.
  apply swing_highs_local_max in Hh.
  apply swing_lows_local_min in Hl; [|discriminate].
  destruct (Qgtb _ sh) eqn:E1.
  - qbool. repeat split; try tauto; try discriminate; try lia.
    intros _. destruct Hh as (i & Hi). exists i, sh. tauto.
  - destruct (Qltb _ sl) eqn:E2.
    + qbool. repeat split; try tauto; try discriminate; try lia.
      intros _. destruct Hl as (i & Hi). exists i, sl. tauto.
    + repeat split; try tauto; try discriminate; lia.
Qed.

Lemma X6_witness :
  detect_break_of_structure (flat_bars 19) = (false, "none").
Proof.
  apply (proj1 (X6_break_of_structure (flat_bars 19))). simpl. lia.
Defined.

End StructureMoreFacts.

(** ** liquidity.py *)

Section LiquidityMoreFacts.
Import Liquidity LiquidityDetect.

Lemma ratio_nonneg (a b : nat) :
  0 <= inject_Z (Z.of_nat a) / inject_Z (Z.of_nat b).
Proof.
  unfold Qdiv. apply Qmult_le_0_compat.
  - change 0 with (inject_Z 0). rewrite <- Zle_Qle. lia.
  - apply Qinv_le_0_compat. change 0 with (inject_Z 0). rewrite <- Zle_Qle. lia.
Qed.

Lemma strength_bounds (has_volume : bool) (df : list Bar) (idx : nat)
  (price : Q) (price_type : string) :
  df <> [] ->
  exists s, _calculate_liquidity_strength has_volume df idx price price_type = Ok s
            /\ 0.3 <= s /\ s <= 1.
Proof.
  intros Hne. unfold _calculate_liquidity_strength.
  destruct df as [|c df']; [congruence|].
  set (df := c :: df').
  pose proof (ratio_nonneg idx (length df)) as Hr.
  set (recency := inject_Z (Z.of_nat idx) / inject_Z (Z.of_nat (length df))) in *.
  eexists. split; [reflexivity|].
  destruct (3 <=? _)%nat; [|destruct (_ =? 2)%nat];
    (destruct (has_volume && (idx <? length df)%nat);
     [destruct (Qgtb _ _)|]);
    match goal with |- context [Qltb 1.0 ?e] =>
      destruct (Qltb 1.0 e) eqn:E; qbool; split; lra end.
Qed.

(** X7: the strength of a liquidity level lies between 0.3 and 1 for every
    non-empty frame, index, price and price type, so the zone constructor's
    0..1 validation never rejects it; on an empty frame the computation
    raises ZeroDivisionError. *)
Theorem X7_liquidity_strength_bounds :
  forall (has_volume : bool) (df : list Bar) (idx : nat) (price : Q)
         (price_type : string),
    (df = [] ->
     _calculate_liquidity_strength has_volume df idx price price_type
     = Raise ZeroDivisionError)
    /\ (df <> [] ->
        exists s,
          _calculate_liquidity_strength has_volume df idx price price_type = Ok s
          /\ 0.3 <= s /\ s <= 1).
Proof.
  intros has_volume df idx price price_type. split.
  - intros ->. reflexivity.
  - apply strength_bounds.
Qed.

Lemma X7_witness :
  exists s,
    _calculate_liquidity_strength true (zigzag_bars 24) 7 103 "high" = Ok s
    /\ 0.3 <= s /\ s <= 1.
Proof.
  apply (proj2 (X7_liquidity_strength_bounds true (zigzag_bars 24) 7 103 "high")).
  discriminate.
Defined.

(** *** Merging: what survives *)

Lemma merge_step_cover (tol : Q) (merged : list LiquidityZone)
  (zone : LiquidityZone) (merged' : list LiquidityZone) :
  merge_step tol merged zone = Ok merged' ->
  zones_covered merged' (zone :: merged)
  /\ incl merged' (zone :: merged)
  /\ (length merged' <= S (length merged))%nat
  /\ merged' <> [].
Proof.
  unfold merge_step.
  destruct (rev merged) as [|last_merged prior] eqn:Hrev; [discriminate|].
  assert (Hm : merged = rev prior ++ [last_merged]).
  { rewrite <- (rev_involutive merged), Hrev. reflexivity. }
  destruct (Qeq_bool (lz_price last_merged) 0); [discriminate|].
  destruct (Qleb _ tol && String.eqb _ _) eqn:Hclose.
  - apply andb_true_iff in Hclose. destruct Hclose as [_ Ht].
    apply String.eqb_eq in Ht.
    destruct (Qgtb (lz_strength zone) (lz_strength last_merged)) eqn:Hs; qbool;
      intros H; injection H as <-.
    + unfold set_last. rewrite Hm, removelast_last. repeat split.
      * intros z [<-|Hz].
        -- exists zone. split; [apply in_or_app; right; left; reflexivity|].
           split; [reflexivity | apply Qle_refl].
        -- apply in_app_or in Hz. destruct Hz as [Hz|[<-|[]]].
           ++ exists z. split; [apply in_or_app; left; exact Hz|].
              split; [reflexivity | apply Qle_refl].
           ++ exists zone. split; [apply in_or_app; right; left; reflexivity|].
              split; [exact Ht | lra].
      * intros z Hz. apply in_app_or in Hz. destruct Hz as [Hz|[<-|[]]].
        -- right. apply in_or_app. left. exact Hz.
        -- left. reflexivity.
      * rewrite !length_app. simpl. lia.
      * destruct (rev prior); discriminate.
    + repeat split.
      * intros z [<-|Hz].
        -- exists last_merged. split; [rewrite Hm; apply in_or_app; right; left; reflexivity|].
           split; [symmetry; exact Ht | lra].
        -- exists z. split; [exact Hz|]. split; [reflexivity | apply Qle_refl].
      * apply incl_tl, incl_refl.
      * lia.
      * rewrite Hm. destruct (rev prior); discriminate.
  - intros H. injection H as <-. repeat split.
    + intros z Hz. exists z. split.
      * destruct Hz as [<-|Hz]; apply in_or_app; [right; left; reflexivity | left; exact Hz].
      * split; [reflexivity | apply Qle_refl].
    + intros z Hz. apply in_app_or in Hz. simpl in *. tauto.
    + rewrite length_app. simpl. lia.
    + destruct merged; discriminate.
Qed.

Lemma zones_covered_trans (a b c : list LiquidityZone) :
  zones_covered a b -> zones_covered b c -> zones_covered a c.
Proof.
  intros Hab Hbc z Hz. destruct (Hbc z Hz) as (k & Hk & Ht & Hs).
  destruct (Hab k Hk) as (k' & Hk' & Ht' & Hs').
  exists k'. split; [exact Hk'|]. split; [congruence | lra].
Qed.

Lemma merge_loop_cover (tol : Q) (rest merged out : list LiquidityZone) :
  merge_loop tol merged rest = Ok out ->
  merged <> [] ->
  zones_covered out (merged ++ rest)
  /\ incl out (merged ++ rest)
  /\ (length out <= length merged + length rest)%nat
  /\ out <> [].
Proof.
  revert merged. induction rest as [|zone rest IH]; intros merged H Hne; simpl in H.
  - injection H as <-. rewrite app_nil_r. repeat split; try assumption.
    + intros z Hz. exists z. split; [exact Hz|]. split; [reflexivity | apply Qle_refl].
    + apply incl_refl.
    + lia.
  - destruct (merge_step tol merged zone) as [merged'|] eqn:Hstep; [|discriminate].
    destruct (merge_step_cover _ _ _ _ Hstep) as (Hc & Hi & Hl & Hn).
    destruct (IH merged' H Hn) as (Hc' & Hi' & Hl' & Hn').
    repeat split; try assumption.
    + apply zones_covered_trans with (merged' ++ rest); [exact Hc'|].
      intros z Hz. apply in_app_or in Hz.
      destruct Hz as [Hz|[<-|Hz]].
      * destruct (Hc z (or_intror Hz)) as (k & Hk & Hrest).
        exists k. split; [apply in_or_app; left; exact Hk | exact Hrest].
      * destruct (Hc zone (or_introl eq_refl)) as (k & Hk & Hrest).
        exists k. split; [apply in_or_app; left; exact Hk | exact Hrest].
      * exists z. split; [apply in_or_app; right; exact Hz|].
        split; [reflexivity | apply Qle_refl].
    + intros z Hz. apply Hi' in Hz. apply in_app_or in Hz. apply in_or_app.
      destruct Hz as [Hz|Hz]; [|right; right; exact Hz].
      apply Hi in Hz. destruct Hz as [<-|Hz]; [right; left; reflexivity | left; exact Hz].
    + simpl. lia.
Qed.

Lemma merge_cover (zones : list LiquidityZone) (tol : Q)
  (out : list LiquidityZone) :
  _merge_nearby_zones zones tol = Ok out ->
  zones_covered out zones /\ incl out zones
  /\ (length out <= length zones)%nat /\ (zones <> [] -> out <> []).
Proof.
  unfold _merge_nearby_zones.
  set (before := fun y x : LiquidityZone => Qltb (lz_price y) (lz_price x)).
  pose proof (sorted_by_length before zones) as Hlen.
  assert (Hin : forall z, In z (sorted_by before zones) <-> In z zones)
    by (intros z; apply sorted_by_In).
  destruct (sorted_by before zones) as [|first rest].
  - intros H. injection H as <-. simpl in Hlen.
    destruct zones; [|discriminate].
    split; [intros z []|]. split; [apply incl_refl|].
    split; [simpl; lia | intros Hc; congruence].
  - intros H. apply merge_loop_cover in H; [|discriminate].
    destruct H as (Hc & Hi & Hl & Hn). simpl in *. repeat split.
    + intros z Hz. apply Hc. apply Hin in Hz. exact Hz.
    + intros z Hz. apply Hin, Hi, Hz.
    + lia.
    + intros _. exact Hn.
Qed.

(** X8: when the merging returns, its result consists of input zones, is no
    longer than the input and is empty only for an empty input, and every
    input zone is matched in it by a zone of the same type that is at least
    as strong. *)
Theorem X8_merge_keeps_the_strong :
  forall (zones : list LiquidityZone) (tolerance : Q) (out : list LiquidityZone),
    _merge_nearby_zones zones tolerance = Ok out ->
    zones_covered out zones
    /\ incl out zones
    /\ (length out <= length zones)%nat
    /\ (zones <> [] -> out <> []).
Proof.
  intros zones tolerance out H.
  destruct (merge_cover zones tolerance out H) as (Hc & Hi & Hl & Hn).
  split; [exact Hc|]. split; [exact Hi|]. split; [exact Hl | exact Hn].
Qed.

Lemma X8_witness :
  zones_covered
    [ mkLiquidityZone 100 "buy_side" 0.5;
      mkLiquidityZone 100.05 "sell_side" 0.7;
      mkLiquidityZone 100.1 "buy_side" 0.6 ]
    interleaved_zones.
Proof.
  apply (X8_merge_keeps_the_strong interleaved_zones default_tolerance).
  reflexivity.
Defined.

Lemma merge_raises_on_zero (first zone : LiquidityZone)
  (rest : list LiquidityZone) (tol : Q) :
  lz_price first == 0 ->
  merge_loop tol [first] (zone :: rest) = Raise ZeroDivisionError.
Proof.
  intros Hz. simpl. unfold merge_step. simpl.
  apply Qeq_bool_iff in Hz. rewrite Hz. reflexivity.
Qed.

(** X9: for zones with positive prices the merging returns, and in its
    result, read from the highest price down, prices do not increase and two
    neighbouring zones of one type are more than the tolerance apart,
    relative to the lower price; an empty input gives an empty result. *)
Theorem X9_merged_neighbours_apart :
  forall (zones : list LiquidityZone) (tolerance : Q),
    (zones = [] -> _merge_nearby_zones zones tolerance = Ok [])
    /\ (zones <> [] -> Forall (fun z => 0 < lz_price z) zones ->
        exists out, _merge_nearby_zones zones tolerance = Ok out
                    /\ apart_chain tolerance (rev out)).
Proof.
  intros zones tolerance. split.
  - intros ->. reflexivity.
  - intros Hne Hpos.
    destruct (merge_nearby_zones_neighbours zones tolerance Hne Hpos)
      as (out & Hout & Hch).
    exists out. split; [exact Hout | exact Hch].
Qed.

Lemma X9_witness :
  exists out, _merge_nearby_zones interleaved_zones default_tolerance = Ok out
              /\ apart_chain default_tolerance (rev out).
Proof.
  apply (proj2 (X9_merged_neighbours_apart interleaved_zones default_tolerance)).
  - discriminate.
  - repeat constructor.
Defined.

End LiquidityMoreFacts.

(** *** The detector as a whole *)

Section LiquidityDetectFacts.
Import Liquidity LiquidityDetect.

Lemma swing_points_level (data : list Q) (mode : string) (window i : nat) (p : Q) :
  In (i, p) (_find_swing_points data mode window) ->
  (window <= i < length data - window)%nat /\ nth_error data i = Some p.
Proof.
  unfold _find_swing_points. rewrite in_flat_map.
  intros (k & Hk & Hin). apply in_seq in Hk.
  destruct (Structure.is_swing mode window data k); [|contradiction].
  destruct Hin as [Hin|[]]. injection Hin as <- <-.
  split; [lia|]. apply nth_error_nth'. lia.
Qed.

Lemma equal_levels_level (data : list Q) (tol : Q) (i : nat) (p : Q) :
  In (i, p) (_find_equal_levels data tol) ->
  (5 <= i < length data - 5)%nat /\ nth_error data i = Some p.
Proof.
  unfold _find_equal_levels. rewrite in_flat_map.
  intros (k & Hk & Hin). apply in_seq in Hk.
  destruct (existsb _ _); [|contradiction].
  destruct Hin as [Hin|[]]. injection Hin as <- <-.
  split; [lia|]. apply nth_error_nth'. lia.
Qed.

Lemma zones_of_levels_ok (has_volume : bool) (df : list Bar)
  (zone_type price_type : string) (bonus : bool) (levels : list (nat * Q)) :
  exists zones,
    zones_of_levels has_volume df zone_type price_type bonus levels = Ok zones
    /\ Forall (fun z => lz_zone_type z = zone_type
                        /\ 0.3 <= lz_strength z /\ lz_strength z <= 1
                        /\ exists i, In (i, lz_price z) levels) zones.
Proof.
  induction levels as [|[idx price] rest IH]; simpl.
  - exists []. split; [reflexivity | constructor].
  - destruct IH as (zones & Hz & Hall).
    assert (Hall' : Forall (fun z => lz_zone_type z = zone_type
                        /\ 0.3 <= lz_strength z /\ lz_strength z <= 1
                        /\ exists i, In (i, lz_price z) ((idx, price) :: rest)) zones).
    { revert Hall. apply Forall_impl. intros z (H1 & H2 & H3 & i & Hi).
      repeat split; try assumption. exists i. right. exact Hi. }
    destruct (idx <? length df)%nat eqn:Hidx.
    + assert (Hne : df <> []).
      { apply Nat.ltb_lt in Hidx. destruct df; [simpl in Hidx; lia | discriminate]. }
      destruct (strength_bounds has_volume df idx price price_type Hne)
        as (s & Hs & Hlo & Hhi).
      rewrite Hs, Hz. eexists. split; [reflexivity|].
      constructor; [|exact Hall']. simpl.
      split; [reflexivity|]. split; [|split].
      * destruct bonus; [destruct (Qltb 1.0 (s + 0.2)); lra | exact Hlo].
      * destruct bonus; [destruct (Qltb 1.0 (s + 0.2)) eqn:E; qbool; lra | exact Hhi].
      * exists idx. left. reflexivity.
    + exists zones. split; [exact Hz | exact Hall'].
Qed.

Lemma column_entry {A : Type} (f : A -> Q) (df : list A) (i : nat) (p : Q) :
  nth_error (map f df) i = Some p -> exists c, In c df /\ p = f c.
Proof.
  rewrite nth_error_map. destruct (nth_error df i) as [c|] eqn:Hc; [|discriminate].
  intros H. injection H as <-. exists c. split; [|reflexivity].
  apply nth_error_In with (n := i). exact Hc.
Qed.

Lemma collect_zones_ok (has_volume : bool) (df : list Bar) :
  exists zones, collect_zones has_volume df = Ok zones
                /\ Forall (zone_of_frame df) zones.
Proof.
  unfold collect_zones.
  destruct (zones_of_levels_ok has_volume df "buy_side" "high" false
              (_find_swing_points (map bar_high df) "high" 5)) as (z1 & E1 & H1).
  destruct (zones_of_levels_ok has_volume df "sell_side" "low" false
              (_find_swing_points (map bar_low df) "low" 5)) as (z2 & E2 & H2).
  destruct (zones_of_levels_ok has_volume df "buy_side" "high" true
              (_find_equal_levels (map bar_high df) 0.001)) as (z3 & E3 & H3).
  destruct (zones_of_levels_ok has_volume df "sell_side" "low" true
              (_find_equal_levels (map bar_low df) 0.001)) as (z4 & E4 & H4).
  rewrite E1, E2, E3, E4. eexists. split; [reflexivity|].
  repeat (apply Forall_app; split).
  - revert H1. apply Forall_impl. intros z (Ht & Hlo & Hhi & i & Hi).
    split; [exact Hlo|]. split; [exact Hhi|]. left. split; [exact Ht|].
    apply swing_points_level in Hi. destruct Hi as [_ Hi].
    apply column_entry in Hi. exact Hi.
  - revert H2. apply Forall_impl. intros z (Ht & Hlo & Hhi & i & Hi).
    split; [exact Hlo|]. split; [exact Hhi|]. right. split; [exact Ht|].
    apply swing_points_level in Hi. destruct Hi as [_ Hi].
    apply column_entry in Hi. exact Hi.
  - revert H3. apply Forall_impl. intros z (Ht & Hlo & Hhi & i & Hi).
    split; [exact Hlo|]. split; [exact Hhi|]. left. split; [exact Ht|].
    apply equal_levels_level in Hi. destruct Hi as [_ Hi].
    apply column_entry in Hi. exact Hi.
  - revert H4. apply Forall_impl. intros z (Ht & Hlo & Hhi & i & Hi).
    split; [exact Hlo|]. split; [exact Hhi|]. right. split; [exact Ht|].
    apply equal_levels_level in Hi. destruct Hi as [_ Hi].
    apply column_entry in Hi. exact Hi.
Qed.

Lemma zone_of_frame_tail (df : list Bar) (lookback : Z) (z : LiquidityZone) :
  zone_of_frame (df_tail lookback df) z -> zone_of_frame df z.
Proof.
  intros (Hlo & Hhi & [[Ht (c & Hc & Hp)]|[Ht (c & Hc & Hp)]]);
    (split; [exact Hlo|]); (split; [exact Hhi|]); [left | right];
    (split; [exact Ht|]); exists c; (split; [|exact Hp]);
    apply (df_tail_incl lookback); exact Hc.
Qed.

Lemma strength_descending (zones : list LiquidityZone) :
  StronglySorted (fun a b => lz_strength b <= lz_strength a)
    (sorted_by (fun y x => Qgtb (lz_strength y) (lz_strength x)) zones).
Proof.
  apply sorted_by_sorted.
  - intros a b c H1 H2. lra.
  - intros y x H. qbool. lra.
  - apply ForallOrdPairs_all. intros a b H. qbool. lra.
Qed.

(** X10: the liquidity detector returns an empty list below 20 rows;
    whenever it returns, its zones come in order of decreasing strength,
    each a buy-side zone at some row's high or a sell-side zone at some
    row's low with a strength between 0.3 and 1; and it does return when all
    highs and lows of the frame are positive. *)
Theorem X10_liquidity_zones :
  forall (has_volume : bool) (df : list Bar) (lookback : Z),
    ((length df < 20)%nat ->
     detect_liquidity_zones has_volume df lookback = Ok [])
    /\ (forall zones,
          detect_liquidity_zones has_volume df lookback = Ok zones ->
          StronglySorted (fun a b => lz_strength b <= lz_strength a) zones
          /\ Forall (zone_of_frame df) zones)
    /\ (Forall (fun c => 0 < bar_low c /\ 0 < bar_high c) df ->
        exists zones, detect_liquidity_zones has_volume df lookback = Ok zones).
Proof.
  intros has_volume df lookback. unfold detect_liquidity_zones.
  destruct (length df <? 20)%nat eqn:Hlen.
  { split; [reflexivity|]. split.
    - intros zones H. injection H as <-. split; constructor.
    - intros _. exists []. reflexivity. }
  apply Nat.ltb_ge in Hlen. split; [lia|].
  destruct (collect_zones_ok has_volume (df_tail lookback df)) as (zs & Hzs & Hall).
  rewrite Hzs. split.
  - intros zones H.
    destruct (_merge_nearby_zones zs default_tolerance) as [merged|] eqn:Hm;
      [|discriminate].
    injection H as <-. split; [apply strength_descending|].
    apply sorted_by_Forall. apply merge_cover in Hm. destruct Hm as (_ & Hi & _).
    apply Forall_forall. intros z Hz. apply zone_of_frame_tail with lookback.
    rewrite Forall_forall in Hall. apply Hall, Hi, Hz.
  - intros Hpos. destruct zs as [|z0 zs'].
    + eexists. reflexivity.
    + destruct (merge_nearby_zones_neighbours (z0 :: zs') default_tolerance)
        as (out & Hout & _); [discriminate| |rewrite Hout; eexists; reflexivity].
      revert Hall. apply Forall_impl. intros z Hz.
      apply zone_of_frame_tail in Hz. rewrite Forall_forall in Hpos.
      destruct Hz as (_ & _ & [[_ (c & Hc & ->)]|[_ (c & Hc & ->)]]);
        apply Hpos in Hc; tauto.
Qed.

Lemma X10_witness :
  exists zones, detect_liquidity_zones true (zigzag_bars 24) 100 = Ok zones.
Proof.
  apply (proj2 (proj2 (X10_liquidity_zones true (zigzag_bars 24) 100%Z))).
  unfold zigzag_bars. apply Forall_map. apply Forall_forall. intros i _.
  destruct (Nat.even i); split; reflexivity.
Defined.

End LiquidityDetectFacts.

(** ** order_blocks.py: detection *)

Section OrderBlockDetectFacts.
Import OrderBlocks OrderBlockDetect.

Lemma fold_sum_nonneg (xs : list Q) (acc : Q) :
  Forall (fun x => 0 <= x) xs -> 0 <= acc -> 0 <= fold_left Qplus xs acc.
Proof.
  revert acc. induction xs as [|x xs IH]; intros acc Hall Hacc; simpl; [exact Hacc|].
  inversion Hall; subst. apply IH; [assumption | lra].
Qed.

Lemma series_mean_nonneg (xs : list Q) :
  Forall (fun x => 0 <= x) xs -> 0 <= LiquidityDetect.series_mean xs.
Proof.
  intros Hall. unfold LiquidityDetect.series_mean, Qdiv.
  apply Qmult_le_0_compat.
  - apply fold_sum_nonneg; [exact Hall | apply Qle_refl].
  - apply Qinv_le_0_compat. change 0 with (inject_Z 0). rewrite <- Zle_Qle. lia.
Qed.

Lemma slice_incl {A : Type} (a b : nat) (l : list A) : incl (slice a b l) l.
Proof.
  intros y Hy. apply slice_In in Hy. destruct Hy as (j & _ & Hj).
  apply nth_error_In with (n := j). exact Hj.
Qed.

Lemma rolling_mean_body (df : list Bar) (i : nat) :
  rolling_mean 20 (map body_size df) i = NaN
  \/ (19 <= i)%nat /\ exists a, rolling_mean 20 (map body_size df) i = Fin a
                                 /\ 0 <= a.
Proof.
  unfold rolling_mean. destruct (i + 1 <? 20)%nat eqn:E; [left; reflexivity|].
  apply Nat.ltb_ge in E. right. split; [lia|]. eexists. split; [reflexivity|].
  apply series_mean_nonneg. apply Forall_forall. intros y Hy.
  apply slice_incl, in_map_iff in Hy. destruct Hy as (c & <- & _).
  apply Qabs_nonneg.
Qed.

Lemma scale_by_positive (inf : npfloat) (x : Q) :
  0 < x -> np_scale_inf inf x = inf.
Proof. intros H. unfold np_scale_inf. apply Qltb_lt in H. rewrite H. reflexivity. Qed.

Lemma ratio_above (b r t : Q) :
  0 < b -> ~ r == 0 -> t < b / r -> 0 <= t -> 0 < r.
Proof.
  intros Hb Hr Ht Ht0.
  destruct (Qlt_le_dec 0 r) as [Hpos|Hneg]; [exact Hpos|].
  exfalso.
  assert (H1 : 0 <= (b / r) * (- r)) by (apply Qmult_le_0_compat; lra).
  assert (H2 : (b / r) * (- r) == - b) by (field; exact Hr).
  rewrite H2 in H1. lra.
Qed.

(** The strength of a candle that passed both tests, whatever the zero
    cases of the two divisions. *)
Lemma strong_candle_strength (c : Bar) (a : Q) :
  0 <= a ->
  np_gt (Fin (body_size c)) (np_mul (Fin a) (Fin 1.5)) = true ->
  np_gt (body_ratio c) (Fin 0.6) = true ->
  exists s, raw_strength c (Fin a) = Fin s /\ 0.63 < s /\ s <= 1.
Proof.
  intros Ha Hstrong Hdir. simpl in Hstrong. qbool.
  assert (Hb : 0 < body_size c) by lra.
  unfold raw_strength, body_ratio in *. unfold np_div in *.
  destruct (Qeq_bool a 0) eqn:Ea; destruct (Qeq_bool (candle_range c) 0) eqn:Er;
    rewrite ?(scale_by_positive PInf _ Hb) in *.
  - exists 1.0. split; [reflexivity|]. split; lra.
  - exists 1.0. split; [reflexivity|]. split; lra.
  - exists 1.0. split; [reflexivity|]. split; lra.
  - simpl in Hdir. qbool.
    assert (Hr : 0 < candle_range c)
      by (apply (ratio_above (body_size c) _ 0.6); try assumption; lra).
    assert (Hapos : 0 < a).
    { destruct (Qeq_dec a 0) as [E|E]; [contradiction|].
      apply Qle_lteq in Ha. destruct Ha as [Ha|Ha]; [exact Ha|].
      symmetry in Ha. contradiction. }
    assert (Hq : 1.5 < body_size c / a).
    { apply Qlt_shift_div_l; [exact Hapos | lra]. }
    set (q1 := body_size c / a) in *. set (q2 := body_size c / candle_range c) in *.
    simpl. unfold py_min, np_lt, np_gt.
    destruct (Qgtb _ _) eqn:E; qbool.
    + exists 1.0. split; [reflexivity|]. split; lra.
    + eexists. split; [reflexivity|]. split; lra.
Qed.

Lemma order_block_at_valid (df : list Bar) (i : nat) :
  order_block_at df i = None
  \/ exists ob, order_block_at df i = Some (Valid ob)
                /\ (19 <= i)%nat /\ block_of_frame df ob.
Proof.
  unfold order_block_at.
  destruct (nth_error df i) as [c|] eqn:Hc; [|left; reflexivity].
  cbv zeta.
  destruct (np_gt (Fin (body_size c)) _) eqn:Hstrong; [|left; reflexivity].
  destruct (np_gt (body_ratio c) _) eqn:Hdir; [|left; reflexivity].
  cbn [andb negb].
  match goal with |- context [negb ?b] => destruct b; [|left; reflexivity] end.
  cbn [negb]. right.
  destruct (rolling_mean_body df i) as [Hnan|(Hi & a & Hav & Ha)].
  { rewrite Hnan in Hstrong. discriminate. }
  rewrite Hav in *.
  destruct (strong_candle_strength c a Ha Hstrong Hdir) as (s & Hs & Hlo & Hhi).
  rewrite Hs. unfold make_order_block.
  assert (Hok : Qleb 0 s && Qleb s 1 = true).
  { apply andb_true_iff. split; apply Qleb_le; lra. }
  rewrite Hok. eexists. split; [reflexivity|]. split; [exact Hi|].
  unfold block_of_frame. simpl. split; [exact Hlo|]. split; [exact Hhi|]. split.
  - destruct (Qgtb (bar_close c) (bar_open c)); tauto.
  - exists c. split; [apply nth_error_In with (n := i); exact Hc|]. tauto.
Qed.

Lemma collect_blocks_valid (df : list Bar) (rows : list nat) :
  exists obs, collect_blocks df rows = Valid obs
              /\ Forall (block_of_frame df) obs
              /\ (Forall (fun i => (i < 19)%nat) rows -> obs = []).
Proof.
  induction rows as [|i rows IH]; simpl.
  - exists []. split; [reflexivity|]. split; [constructor | reflexivity].
  - destruct IH as (obs & Hobs & Hall & Hearly).
    destruct (order_block_at_valid df i) as [Hnone|(ob & Hob & Hi & Hb)].
    + rewrite Hnone. exists obs. split; [exact Hobs|]. split; [exact Hall|].
      intros Hr. inversion Hr; subst. apply Hearly. assumption.
    + rewrite Hob, Hobs. exists (ob :: obs). split; [reflexivity|].
      split; [constructor; assumption|].
      intros Hr. inversion Hr; subst. lia.
Qed.

Lemma remove_overlapping_facts (order_blocks : list OrderBlock) :
  ForallOrdPairs (fun a b => disjoint_ranges a b)
                 (_remove_overlapping_obs order_blocks)
  /\ incl (_remove_overlapping_obs order_blocks) order_blocks.
Proof.
  set (sorted_obs :=
         sorted_by (fun y x => Qgtb (ob_strength y) (ob_strength x)) order_blocks).
  assert (Hkept : _remove_overlapping_obs order_blocks
                  = fold_left prune_step sorted_obs []).
  { unfold _remove_overlapping_obs, sorted_obs. destruct order_blocks; reflexivity. }
  rewrite Hkept. split.
  - apply ForallOrdPairs_impl with (P := fun a b => _obs_overlap a b = false).
    + intros a b. apply no_overlap_disjoint.
    + apply prune_loop_pairwise. constructor.
  - intros z Hz. apply prune_loop_from_input in Hz. simpl in Hz.
    unfold sorted_obs in Hz. apply sorted_by_In in Hz. exact Hz.
Qed.

(** X11: the order-block detector never fails the 0..1 validation of the
    strength field.  Every block it returns carries the high, low and time
    stamp of a row of the frame, a direction bullish or bearish and a
    strength above 0.63 and at most 1; the returned blocks have pairwise
    disjoint price ranges; and a frame of fewer than 25 rows yields none,
    because the 20-row average is undefined before row 19 and five later
    rows are required. *)
Theorem X11_order_blocks :
  forall (df : list Bar) (lookback : Z),
    exists obs,
      detect_order_blocks df lookback = Valid obs
      /\ Forall (block_of_frame df) obs
      /\ ForallOrdPairs (fun a b => disjoint_ranges a b) obs
      /\ ((length df < 25)%nat -> obs = []).
Proof.
  intros df lookback. unfold detect_order_blocks.
  destruct (length df <? 20)%nat eqn:Hlen.
  { exists []. split; [reflexivity|]. split; [constructor|]. split; [constructor | reflexivity]. }
  set (d := df_tail lookback df).
  destruct (collect_blocks_valid d (seq 10 (length d - 5 - 10)))
    as (obs & Hobs & Hall & Hearly).
  rewrite Hobs. exists (_remove_overlapping_obs obs).
  destruct (remove_overlapping_facts obs) as [Hpair Hincl].
  split; [reflexivity|]. split; [|split; [exact Hpair|]].
  - apply Forall_forall. intros ob Hob. apply Hincl in Hob.
    rewrite Forall_forall in Hall. destruct (Hall ob Hob) as (H1 & H2 & H3 & c & Hc & Hrest).
    split; [exact H1|]. split; [exact H2|]. split; [exact H3|].
    exists c. split; [apply (df_tail_incl lookback); exact Hc | exact Hrest].
  - intros Hshort. rewrite Hearly; [reflexivity|].
    apply Forall_forall. intros i Hi. apply in_seq in Hi.
    pose proof (proj1 (df_tail_length lookback df)) as Hd. fold d in Hd. lia.
Qed.

Lemma X11_witness :
  exists obs,
    detect_order_blocks impulse_bars 100 = Valid obs
    /\ Forall (block_of_frame impulse_bars) obs
    /\ ForallOrdPairs (fun a b => disjoint_ranges a b) obs
    /\ ((length impulse_bars < 25)%nat -> obs = []).
Proof. exact (X11_order_blocks impulse_bars 100). Defined.

End OrderBlockDetectFacts.

(** ** analyzer.py *)

Section AnalyzerFacts.
Import Routine Analyzer.

Lemma np_gt_nan_r (a : npfloat) : np_gt a NaN = false.
Proof. destruct a; reflexivity. Qed.

Lemma np_gt_asym (a b : npfloat) : np_gt a b = true -> np_gt b a = false.
Proof.
  destruct a, b; simpl; try discriminate; try reflexivity.
  intros H. apply Qgtb_ngt. qbool. lra.
Qed.

Lemma ma_exclusive (b : BiasInputs) : ma_bullish b = true -> ma_bearish b = false.
Proof.
  unfold ma_bullish, ma_bearish, np_lt. intros H. apply andb_true_iff in H.
  destruct H as [H _]. rewrite (np_gt_asym _ _ H). reflexivity.
Qed.

Lemma swings_exclusive (b : BiasInputs) :
  swings_bullish b = true -> swings_bearish b = false.
Proof.
  unfold swings_bullish, swings_bearish, np_lt. intros H. apply andb_true_iff in H.
  destruct H as [H _]. rewrite (np_gt_asym _ _ H). reflexivity.
Qed.

Lemma momentum_exclusive (b : BiasInputs) :
  momentum_bullish b = true -> momentum_bearish b = false.
Proof.
  unfold momentum_bullish, momentum_bearish, np_lt.
  destruct (price_change b); simpl; try discriminate; intros H;
    try reflexivity.
  apply Qgtb_ngt. qbool. lra.
Qed.

(** The decision of [_determine_bias] in terms of the six tests. *)
Lemma bias_cases (l : list Bar) :
  (20 <= length l)%nat ->
  let b := bias_inputs l in
  let bias := _determine_bias (Some l) in
  (ma_bullish b = true -> swings_bullish b = true -> bias = BULLISH)
  /\ (ma_bearish b = true -> swings_bearish b = true -> bias = BEARISH)
  /\ (bias = BULLISH -> ma_bullish b = true \/ swings_bullish b = true)
  /\ (bias = BEARISH -> ma_bearish b = true \/ swings_bearish b = true)
  /\ (ma_bullish b = false -> ma_bearish b = false ->
      swings_bullish b = false -> swings_bearish b = false -> bias = NEUTRAL).
Proof.
  intros Hlen b bias. unfold bias, _determine_bias.
  assert (E : (length l <? 20)%nat = false) by (apply Nat.ltb_ge; lia).
  rewrite E. fold b. unfold bias_scores.
  pose proof (ma_exclusive b) as M. pose proof (swings_exclusive b) as S.
  pose proof (momentum_exclusive b) as P.
  destruct (ma_bullish b), (ma_bearish b), (swings_bullish b), (swings_bearish b),
    (momentum_bullish b), (momentum_bearish b);
    try (specialize (M eq_refl); discriminate M);
    try (specialize (S eq_refl); discriminate S);
    try (specialize (P eq_refl); discriminate P);
    cbn; repeat split; intros; try reflexivity; try discriminate; tauto.
Qed.

Lemma short_frame_inputs (l : list Bar) :
  (20 <= length l <= 20)%nat ->
  swings_bullish (bias_inputs l) = false /\ swings_bearish (bias_inputs l) = false.
Proof.
  intros Hlen. unfold swings_bullish, swings_bearish, np_lt, bias_inputs.
  cbn [recent_high recent_low prev_high prev_low].
  replace (length l - 40)%nat with 0%nat by lia.
  replace (length l - 20)%nat with 0%nat by lia.
  change (slice 0 0 (map bar_high l)) with (@nil Q).
  change (slice 0 0 (map bar_low l)) with (@nil Q).
  cbn [np_max np_min]. rewrite !np_gt_nan_r.
  destruct (np_max _), (np_min _); split; reflexivity.
Qed.

Lemma no_sma_50 (l : list Bar) :
  (1 <= length l < 50)%nat ->
  ma_bullish (bias_inputs l) = false /\ ma_bearish (bias_inputs l) = false.
Proof.
  intros Hlen. unfold ma_bullish, ma_bearish, np_lt, bias_inputs.
  cbn [sma_20 sma_50 current_price].
  assert (E : rolling_mean 50 (map bar_close l) (length l - 1) = NaN).
  { unfold rolling_mean.
    assert (E : (length l - 1 + 1 <? 50)%nat = true) by (apply Nat.ltb_lt; lia).
    rewrite E. reflexivity. }
  rewrite E, np_gt_nan_r. cbn [np_gt]. rewrite !andb_false_r.
  split; reflexivity.
Qed.

(** X12: the bias is NEUTRAL when no frame is given or it has at most 20
    rows.  From 20 rows on: if the moving-average test and the swing test
    favour the same side, that side is the bias whatever the momentum; a
    non-neutral bias always has one of these two tests on its side, so
    momentum alone never decides; and below 50 rows the moving-average test
    is off, so a non-neutral bias rests on the swing test. *)
Theorem X12_bias_decision :
  (forall df : option (list Bar),
      (df = None \/ exists l, df = Some l /\ (length l <= 20)%nat) ->
      _determine_bias df = NEUTRAL)
  /\ (forall l : list Bar,
        (20 <= length l)%nat ->
        let b := bias_inputs l in
        let bias := _determine_bias (Some l) in
        (ma_bullish b = true -> swings_bullish b = true -> bias = BULLISH)
        /\ (ma_bearish b = true -> swings_bearish b = true -> bias = BEARISH)
        /\ (bias = BULLISH -> ma_bullish b = true \/ swings_bullish b = true)
        /\ (bias = BEARISH -> ma_bearish b = true \/ swings_bearish b = true)
        /\ ((length l < 50)%nat ->
            (bias = BULLISH -> swings_bullish b = true)
            /\ (bias = BEARISH -> swings_bearish b = true))).
Proof.
  split.
  - intros df [->|(l & -> & Hlen)]; [reflexivity|].
    destruct (Nat.lt_ge_cases (length l) 20) as [Hlt|Hge].
    + unfold _determine_bias. apply Nat.ltb_lt in Hlt. rewrite Hlt. reflexivity.
    + destruct (bias_cases l Hge) as (_ & _ & _ & _ & Hn).
      destruct (short_frame_inputs l) as [S1 S2]; [lia|].
      destruct (no_sma_50 l) as [M1 M2]; [lia|].
      apply Hn; assumption.
  - intros l Hlen b bias.
    destruct (bias_cases l Hlen) as (H1 & H2 & H3 & H4 & _).
    fold b in H1, H2, H3, H4. fold bias in H1, H2, H3, H4.
    split; [exact H1|]. split; [exact H2|]. split; [exact H3|]. split; [exact H4|].
    intros Hshort. destruct (no_sma_50 l) as [M1 M2]; [lia|]. fold b in M1, M2.
    split; intros Hb.
    + destruct (H3 Hb) as [E|E]; [congruence | exact E].
    + destruct (H4 Hb) as [E|E]; [congruence | exact E].
Qed.

Lemma X12_witness :
  _determine_bias (Some (rising_bars 20)) = NEUTRAL.
Proof.
  apply (proj1 X12_bias_decision). right.
  exists (rising_bars 20). split; [reflexivity|]. simpl. lia.
Defined.

End AnalyzerFacts.

Section AnalyzerRangeFacts.
Import Routine Analyzer.

Lemma fold_max_ge (r : list Q) (x : Q) :
  x <= (fold_left (fun m y => if Qgtb y m then y else m) r x)
  /\ forall y, In y r -> y <= (fold_left (fun m y => if Qgtb y m then y else m) r x).
Proof.
  revert x. induction r as [|z r IH]; intros x; simpl.
  - split; [apply Qle_refl | intros y []].
  - destruct (Qgtb z x) eqn:E; qbool;
      [destruct (IH z) as [H1 H2] | destruct (IH x) as [H1 H2]];
      (split; [lra|]); intros y [<-|Hy]; try lra; apply H2; exact Hy.
Qed.

Lemma fold_min_le (r : list Q) (x : Q) :
  (fold_left (fun m y => if Qltb y m then y else m) r x) <= x
  /\ forall y, In y r -> (fold_left (fun m y => if Qltb y m then y else m) r x) <= y.
Proof.
  revert x. induction r as [|z r IH]; intros x; simpl.
  - split; [apply Qle_refl | intros y []].
  - destruct (Qltb z x) eqn:E; qbool;
      [destruct (IH z) as [H1 H2] | destruct (IH x) as [H1 H2]];
      (split; [lra|]); intros y [<-|Hy]; try lra; apply H2; exact Hy.
Qed.

Lemma series_max_ge (xs : list Q) (y : Q) :
  In y xs -> y <= Structure.series_max xs.
Proof.
  destruct xs as [|x r]; [intros []|]. unfold Structure.series_max.
  destruct (fold_max_ge r x) as [H1 H2]. intros [<-|Hy]; [exact H1 | apply H2, Hy].
Qed.

Lemma series_min_le (xs : list Q) (y : Q) :
  In y xs -> Structure.series_min xs <= y.
Proof.
  destruct xs as [|x r]; [intros []|]. unfold Structure.series_min.
  destruct (fold_min_le r x) as [H1 H2]. intros [<-|Hy]; [exact H1 | apply H2, Hy].
Qed.

Lemma series_max_In (xs : list Q) : xs <> [] -> In (Structure.series_max xs) xs.
Proof.
  destruct xs as [|x r]; [congruence|]. intros _. unfold Structure.series_max.
  apply (fold_pick_In (fun y m => Qgtb y m)).
Qed.

Lemma series_min_In (xs : list Q) : xs <> [] -> In (Structure.series_min xs) xs.
Proof.
  destruct xs as [|x r]; [congruence|]. intros _. unfold Structure.series_min.
  apply (fold_pick_In (fun y m => Qltb y m)).
Qed.

Lemma df_tail_nonempty {A : Type} (n : Z) (df : list A) :
  (0 < n)%Z -> df <> [] -> df_tail n df <> [].
Proof.
  intros Hn Hne. unfold df_tail.
  assert (E0 : (n =? 0)%Z = false) by lia. assert (E1 : (0 <? n)%Z = true) by lia.
  rewrite E0, E1. intros H. apply (f_equal (@length A)) in H.
  rewrite length_skipn in H. destruct df as [|c df]; [congruence|].
  cbn [length] in H. lia.
Qed.

Lemma calculate_zones_ascending (high low : Q) (src : string) :
  low <= high -> levels_ascending (calculate_zones high low src).
Proof. intros H. unfold levels_ascending, calculate_zones. simpl. repeat split; lra. Qed.

(** X13: the analyzer's dealing range exists exactly from 50 rows on; it
    spans every row of the last 50 (no low below its low, no high above its
    high), its bounds are a high and a low of rows of the frame, and when
    rows have [low <= high] its low does not exceed its high.  Used by step 3
    as the fallback source it yields a range labelled ["htf"] whose discount,
    equilibrium and premium lie in ascending order between low and high. *)
Theorem X13_analyzer_dealing_range :
  forall df : list Bar,
    (_find_dealing_range df = None <-> (length df < 50)%nat)
    /\ (forall high low,
          _find_dealing_range df = Some (high, low) ->
          (forall c, In c (df_tail 50 df) -> low <= bar_low c /\ bar_high c <= high)
          /\ (exists c, In c df /\ high = bar_high c)
          /\ (exists c, In c df /\ low = bar_low c)
          /\ (Forall (fun c => bar_low c <= bar_high c) df ->
              low <= high
              /\ forall today_ny recent,
                   exists dr,
                     _step3_dealing_range None today_ny (Some (high, low)) recent
                     = Some dr
                     /\ dr_source dr = "htf" /\ dr_high dr = high
                     /\ dr_low dr = low /\ levels_ascending dr)).
Proof.
  intros df. unfold _find_dealing_range.
  destruct (length df <? 50)%nat eqn:Hlen.
  { apply Nat.ltb_lt in Hlen. split; [tauto | discriminate]. }
  apply Nat.ltb_ge in Hlen. split; [split; [discriminate | lia]|].
  intros high low H. injection H as <- <-.
  set (recent := df_tail 50 df).
  assert (Hne : recent <> []).
  { apply df_tail_nonempty; [lia|]. destruct df; [simpl in Hlen; lia | discriminate]. }
  assert (Hspan : forall c, In c recent ->
            Structure.series_min (map bar_low recent) <= bar_low c
            /\ bar_high c <= Structure.series_max (map bar_high recent)).
  { intros c Hc. split; [apply series_min_le | apply series_max_ge];
      apply in_map; exact Hc. }
  split; [exact Hspan|].
  assert (Hh : exists c, In c recent
                 /\ Structure.series_max (map bar_high recent) = bar_high c).
  { assert (Hin : In (Structure.series_max (map bar_high recent)) (map bar_high recent))
      by (apply series_max_In; destruct recent; [congruence | discriminate]).
    apply in_map_iff in Hin. destruct Hin as (c & Hc & Hin). exists c. split; congruence. }
  assert (Hl : exists c, In c recent
                 /\ Structure.series_min (map bar_low recent) = bar_low c).
  { assert (Hin : In (Structure.series_min (map bar_low recent)) (map bar_low recent))
      by (apply series_min_In; destruct recent; [congruence | discriminate]).
    apply in_map_iff in Hin. destruct Hin as (c & Hc & Hin). exists c. split; congruence. }
  split; [|split].
  - destruct Hh as (c & Hc & E). exists c. split; [apply (df_tail_incl 50), Hc | exact E].
  - destruct Hl as (c & Hc & E). exists c. split; [apply (df_tail_incl 50), Hc | exact E].
  - intros Hwf.
    assert (Hle : Structure.series_min (map bar_low recent)
                  <= Structure.series_max (map bar_high recent)).
    { destruct Hl as (c & Hc & E). destruct (Hspan c Hc) as [_ Hhi].
      rewrite Forall_forall in Hwf. specialize (Hwf c (df_tail_incl 50 df c Hc)).
      rewrite E. lra. }
    split; [exact Hle|]. intros today_ny recent'.
    eexists. split; [reflexivity|]. split; [reflexivity|].
    split; [reflexivity|]. split; [reflexivity|].
    apply calculate_zones_ascending. exact Hle.
Qed.

Lemma X13_witness : _find_dealing_range (rising_bars 49) = None.
Proof.
  apply (proj2 (proj1 (X13_analyzer_dealing_range (rising_bars 49)))).
  simpl. lia.
Defined.







End AnalyzerRangeFacts.

(** ** pre_market_routine.py: sweeps, day type, confidence *)

Section SessionFacts.
Import Routine RoutineSession.










End SessionFacts.

Section DayTypeFacts.
Import Routine RoutineSession.




(** X17: the routine's confidence is the base 0.5 plus the four stated
    adjustments, always between 0.35 and 1, so the final clamp to [[0, 1]]
    never changes it; it reaches 1 only for a non-neutral bias on a trend
    day with more than two order blocks and at least one sweep. *)
Theorem X17_routine_confidence :
  forall (bias : BiasType) (day_type : string) (order_blocks : list OrderBlock)
         (swept : list SweepDict),
    let c := _calculate_confidence bias day_type order_blocks swept in
    c == 0.5 + (if negb (bias_eqb bias NEUTRAL) then 0.2 else 0)
           + (if String.eqb day_type "trend" then 0.15
              else if String.eqb day_type "consolidation" then - 0.15 else 0)
           + (if (2 <? length order_blocks)%nat then 0.1 else 0)
           + (if (0 <? length swept)%nat then 0.05 else 0)
    /\ 0.35 <= c /\ c <= 1
    /\ (c == 1 -> bias <> NEUTRAL /\ day_type = "trend"
                  /\ (2 < length order_blocks)%nat /\ swept <> []).
Proof.
  intros bias day_type order_blocks swept c. unfold c.
  unfold _calculate_confidence, py_min_q, py_max_q.
  destruct bias; cbn [negb bias_eqb];
    destruct (String.eqb day_type "trend") eqn:Ed;
    destruct (String.eqb day_type "consolidation") eqn:Ec;
    destruct (2 <? length order_blocks)%nat eqn:Eo;
    destruct (0 <? length swept)%nat eqn:Es;
    (split; [vm_compute; reflexivity|]);
    (split; [vm_compute; discriminate|]);
    (split; [vm_compute; discriminate|]);
    intros H1; try (exfalso; revert H1; vm_compute; discriminate);
    (split; [discriminate|]);
    (split; [apply String.eqb_eq; exact Ed|]);
    (split; [apply Nat.ltb_lt; exact Eo|]);
    destruct swept; discriminate.
Qed.

Lemma X17_witness :
  _calculate_confidence BULLISH "trend" OrderBlocks.example_blocks
    [mkSweepDict "BSL" "Asian High" (Some 101.5)] == 1
  /\ BULLISH <> NEUTRAL.
Proof.
  assert (H : _calculate_confidence BULLISH "trend" OrderBlocks.example_blocks
                [mkSweepDict "BSL" "Asian High" (Some 101.5)] == 1)
    by reflexivity.
  split; [exact H|].
  exact (proj1 (proj2 (proj2 (proj2
           (X17_routine_confidence BULLISH "trend" OrderBlocks.example_blocks
              [mkSweepDict "BSL" "Asian High" (Some 101.5)]))) H)).
Defined.

End DayTypeFacts.

(** ** pre_market_routine.py: more on the scenarios *)

Section ScenarioMoreFacts.
Import Routine.

Lemma long_entry_order (price : Q) (dr : DealingRange) (fvgs : list FVG)
  (sel : Selection) :
  (forall f, sel_fvg sel = Some f -> wf_gap f) ->
  let e := long_entry price dr fvgs sel in
  en_stop_loss e < en_low e /\ en_low e <= en_high e
  /\ 1 <= en_high e - en_stop_loss e.
Proof.
  intros Hwf e. unfold e, long_entry.
  destruct (sel_fvg sel) as [f|].
  - specialize (Hwf f eq_refl). unfold wf_gap in Hwf. simpl. repeat split; lra.
  - destruct (long_market_execution dr fvgs sel); simpl; repeat split; lra.
Qed.

Lemma short_entry_order (price : Q) (dr : DealingRange) (fvgs : list FVG)
  (sel : Selection) :
  (forall f, sel_fvg sel = Some f -> wf_gap f) ->
  let e := short_entry price dr fvgs sel in
  en_low e <= en_high e /\ en_high e < en_stop_loss e
  /\ 1 <= en_stop_loss e - en_low e.
Proof.
  intros Hwf e. unfold e, short_entry.
  destruct (sel_fvg sel) as [f|].
  - specialize (Hwf f eq_refl). unfold wf_gap in Hwf. simpl. repeat split; lra.
  - destruct (short_market_execution dr fvgs sel); simpl; repeat split; lra.
Qed.

(** X18: for gaps with [low <= high], in every stage of the builder the
    long scenario's stop lies strictly below its entry zone and at least one
    point below the zone's high, with [entry_low <= entry_high]; the short
    scenario's stop lies strictly above its zone and at least one point
    above the zone's low.  After rounding the same order holds weakly. *)
Theorem X18_stop_beyond_entry_zone :
  forall (price : Q) (bias : BiasType) (dr : DealingRange) (fvgs : list FVG)
         (intraday : option (list FVG)),
    Forall wf_gap (gap_pool fvgs intraday) ->
    let rawL := long_raw price bias dr fvgs intraday in
    let rawS := short_raw price bias dr fvgs intraday in
    let scL := _build_long_scenario price bias dr fvgs intraday in
    let scS := _build_short_scenario price bias dr fvgs intraday in
    (raw_stop_loss rawL < raw_entry_low rawL
     /\ raw_entry_low rawL <= raw_entry_high rawL
     /\ 1 <= raw_entry_high rawL - raw_stop_loss rawL)
    /\ (raw_entry_low rawS <= raw_entry_high rawS
        /\ raw_entry_high rawS < raw_stop_loss rawS
        /\ 1 <= raw_stop_loss rawS - raw_entry_low rawS)
    /\ (sc_stop_loss scL <= sc_entry_low scL /\ sc_entry_low scL <= sc_entry_high scL)
    /\ (sc_entry_low scS <= sc_entry_high scS
        /\ sc_entry_high scS <= sc_stop_loss scS).
Proof.
  intros price bias dr fvgs intraday Hwf rawL rawS scL scS.
  rewrite Forall_forall in Hwf.
  assert (HL : forall f, sel_fvg (long_select price dr fvgs intraday) = Some f ->
                         wf_gap f)
    by (intros f Hf; apply Hwf, long_select_from_pool with (1 := Hf)).
  assert (HS : forall f, sel_fvg (short_select price dr fvgs intraday) = Some f ->
                         wf_gap f)
    by (intros f Hf; apply Hwf, short_select_from_pool with (1 := Hf)).
  pose proof (long_entry_order price dr fvgs _ HL) as (L1 & L2 & L3).
  pose proof (short_entry_order price dr fvgs _ HS) as (S1 & S2 & S3).
  split; [repeat split; assumption|]. split; [repeat split; assumption|].
  split; split; apply round2_mono; try assumption; apply Qlt_le_weak; assumption.
Qed.

Lemma X18_witness :
  raw_stop_loss (long_raw 100 NEUTRAL narrow_range [gap_below] None)
  < raw_entry_low (long_raw 100 NEUTRAL narrow_range [gap_below] None).
Proof.
  apply (X18_stop_beyond_entry_zone 100 NEUTRAL narrow_range [gap_below] None).
  repeat constructor. unfold wf_gap. simpl. apply Qle_bool_iff. reflexivity.
Defined.

(** *** Grading *)

Lemma ratio_below_one (a r : Q) : 0 < r -> (a / r < 1 <-> a < r).
Proof.
  intros Hr.
  assert (Hne : ~ r == 0) by (intros E; rewrite E in Hr; revert Hr; apply Qlt_irrefl).
  assert (Ha : a == a / r * r) by (field; exact Hne).
  split; intros H.
  - apply (proj2 (Qmult_lt_r _ _ r Hr)) in H. lra.
  - apply Qlt_shift_div_r; [exact Hr | lra].
Qed.

Lemma ratio_positive (a r : Q) : 0 < r -> 0 < a -> 0 < a / r.
Proof. intros Hr Ha. apply Qlt_shift_div_l; [exact Hr | lra]. Qed.

Lemma ratio_mono (a b r : Q) : 0 < r -> a <= b -> a / r <= b / r.
Proof.
  intros Hr Hab. unfold Qdiv. apply Qmult_le_compat_r; [exact Hab|].
  apply Qinv_le_0_compat. lra.
Qed.

(** The grading on a positive risk, a positive first reward and a second
    reward that is no smaller. *)
Lemma grade_facts (risk first second : Q) (is_continuation : bool) (q : string) :
  0 < risk -> 0 < first -> first <= second -> In q ["A"; "B"; "C"; "C+"] ->
  let g := grade risk first (Some second) is_continuation q in
  In (fst g) setup_grades
  /\ 0 < snd g
  /\ (fst g = "INVALID" <-> snd g < 1)
  /\ (fst g = "INVALID" <-> first < risk)
  /\ (fst g <> "INVALID" -> fst g <> "C-" -> 1.5 <= snd g)
  /\ (fst g <> "INVALID" -> fst g <> "C-" -> is_continuation = true ->
      1.5 <= first / risk).
Proof.
  intros Hr Hf Hs Hq g.
  pose proof (ratio_positive first risk Hr Hf) as Ha.
  pose proof (ratio_mono first second risk Hr Hs) as Hab.
  pose proof (ratio_below_one first risk Hr) as H1.
  unfold g, grade. clear g. cbv zeta.
  destruct (Qgtb risk 0) eqn:E; [|qbool; lra]. clear E.
  remember (first / risk) as a eqn:Ea in *. remember (second / risk) as b eqn:Eb in *.
  cbn [andb].
  destruct (Qltb a 1.0) eqn:E1; [|destruct (Qltb a 2.0) eqn:E2;
    [destruct (Qltb b 1.5) eqn:E3|]];
    destruct is_continuation; cbn [andb fst snd];
    simpl in Hq; destruct Hq as [<-|[<-|[<-|[<-|[]]]]];
    cbn [String.eqb Ascii.eqb Bool.eqb negb fst snd] in *;
    try (destruct (Qltb a 1.5) eqn:E4); cbn [fst snd];
    try rewrite <- Ea; try rewrite <- Eb;
    qbool; unfold setup_grades;
    (split; [simpl; tauto|]); (split; [lra|]);
    (split; [split; [try discriminate; intros; lra | intros; try reflexivity; lra]|]);
    (split; [split; [try discriminate; intros; apply H1; lra | intros HH; apply H1 in HH; try reflexivity; lra]|]);
    (split; intros; try congruence; try lra).
Qed.

Lemma long_select_quality (price : Q) (dr : DealingRange) (fvgs : list FVG)
  (intraday : option (list FVG)) :
  In (en_quality (long_entry price dr fvgs (long_select price dr fvgs intraday)))
     ["A"; "B"; "C"; "C+"].
Proof.
  unfold long_entry.
  assert (Hq : In (sel_setup_quality (long_select price dr fvgs intraday))
                  ["A"; "B"; "C"; "C+"]).
  { unfold long_select. destruct (filter (long_ideal price dr) fvgs).
    - destruct (truthy_list intraday); [|simpl; tauto].
      destruct (max_by _ _); simpl; tauto.
    - destruct (max_by _ _); [simpl; tauto|].
      destruct (max_by _ _); simpl; tauto. }
  destruct (sel_fvg _); [exact Hq|].
  destruct (long_market_execution _ _ _); [simpl; tauto | exact Hq].
Qed.

Lemma short_select_quality (price : Q) (dr : DealingRange) (fvgs : list FVG)
  (intraday : option (list FVG)) :
  In (en_quality (short_entry price dr fvgs (short_select price dr fvgs intraday)))
     ["A"; "B"; "C"; "C+"].
Proof.
  unfold short_entry.
  assert (Hq : In (sel_setup_quality (short_select price dr fvgs intraday))
                  ["A"; "B"; "C"; "C+"]).
  { unfold short_select. destruct (filter (short_ideal price dr) fvgs).
    - destruct (truthy_list intraday); [|simpl; tauto].
      destruct (min_by _ _); simpl; tauto.
    - destruct (min_by _ _); [simpl; tauto|].
      destruct (min_by _ _); simpl; tauto. }
  destruct (sel_fvg _); [exact Hq|].
  destruct (short_market_execution _ _ _); [simpl; tauto | exact Hq].
Qed.

(** The first two rungs of a weakly rising ladder above [eh]. *)
Lemma rising_first_two (eh : Q) (ts : list Q) :
  nondecreasing_from eh ts -> Forall (fun t => eh < t) ts ->
  (1 <? length ts)%nat = true
  /\ 0 < nth 0 ts 0 - eh /\ nth 0 ts 0 - eh <= nth 1 ts 0 - eh.
Proof.
  intros (Hlen & _ & Hs) Hf.
  destruct ts as [|t0 [|t1 ts]]; simpl in Hlen; try lia.
  split; [reflexivity|]. simpl.
  inversion Hf as [|? ? H0 _]; subst.
  inversion Hs as [|? ? _ Hall]; subst.
  inversion Hall as [|? ? H01 _]; subst. split; lra.
Qed.

Lemma falling_first_two (el : Q) (ts : list Q) :
  nonincreasing_from el ts -> Forall (fun t => t < el) ts ->
  (1 <? length ts)%nat = true
  /\ 0 < el - nth 0 ts 0 /\ el - nth 0 ts 0 <= el - nth 1 ts 0.
Proof.
  intros (Hlen & _ & Hs) Hf.
  destruct ts as [|t0 [|t1 ts]]; simpl in Hlen; try lia.
  split; [reflexivity|]. simpl.
  inversion Hf as [|? ? H0 _]; subst.
  inversion Hs as [|? ? _ Hall]; subst.
  inversion Hall as [|? ? H01 _]; subst. split; lra.
Qed.

(** X19: for gaps with [low <= high], the grade of a long or short scenario
    is one of A, B, C+, C, C-, INVALID; the reported risk/reward is positive;
    the grade is INVALID exactly when the reported risk/reward is below 1,
    which is exactly when the reward to the first target is smaller than the
    risk; and a grade other than INVALID and C- comes with a risk/reward of
    at least 1.5. *)
Theorem X19_scenario_grading :
  forall (price : Q) (bias : BiasType) (dr : DealingRange) (fvgs : list FVG)
         (intraday : option (list FVG)),
    Forall wf_gap (gap_pool fvgs intraday) ->
    let rawL := long_raw price bias dr fvgs intraday in
    let rawS := short_raw price bias dr fvgs intraday in
    (In (raw_setup_quality rawL) setup_grades
     /\ 0 < raw_rr rawL
     /\ (raw_setup_quality rawL = "INVALID" <-> raw_rr rawL < 1)
     /\ (raw_setup_quality rawL = "INVALID" <->
         nth 0 (raw_targets rawL) 0 - raw_entry_high rawL
         < raw_entry_high rawL - raw_stop_loss rawL)
     /\ (raw_setup_quality rawL <> "INVALID" -> raw_setup_quality rawL <> "C-" ->
         1.5 <= raw_rr rawL))
    /\ (In (raw_setup_quality rawS) setup_grades
        /\ 0 < raw_rr rawS
        /\ (raw_setup_quality rawS = "INVALID" <-> raw_rr rawS < 1)
        /\ (raw_setup_quality rawS = "INVALID" <->
            raw_entry_low rawS - nth 0 (raw_targets rawS) 0
            < raw_stop_loss rawS - raw_entry_low rawS)
        /\ (raw_setup_quality rawS <> "INVALID" -> raw_setup_quality rawS <> "C-" ->
            1.5 <= raw_rr rawS)).
Proof.
  intros price bias dr fvgs intraday Hwf rawL rawS.
  rewrite Forall_forall in Hwf. split.
  - assert (HL : forall f, sel_fvg (long_select price dr fvgs intraday) = Some f ->
                           wf_gap f)
      by (intros f Hf; apply Hwf, long_select_from_pool with (1 := Hf)).
    pose proof (long_entry_risk price dr fvgs _ HL) as Hrisk.
    destruct (long_targets_weak dr _ _ Hrisk) as [Hnd Hab].
    destruct (rising_first_two _ _ Hnd Hab) as (Hlen & H0 & H01).
    unfold rawL, long_raw.
    cbn [raw_setup_quality raw_rr raw_targets raw_entry_high raw_stop_loss].
    rewrite Hlen.
    destruct (grade_facts _ _ _
                (sel_is_continuation (long_select price dr fvgs intraday)) _
                (proj1 (Qlt_minus_iff _ _) Hrisk) H0 H01
                (long_select_quality price dr fvgs intraday))
      as (G1 & G2 & G3 & G4 & G5 & _).
    repeat split; try assumption; try apply G3; try apply G4.
  - assert (HS : forall f, sel_fvg (short_select price dr fvgs intraday) = Some f ->
                           wf_gap f)
      by (intros f Hf; apply Hwf, short_select_from_pool with (1 := Hf)).
    pose proof (short_entry_risk price dr fvgs _ HS) as Hrisk.
    destruct (short_targets_weak dr _ _ Hrisk) as [Hnd Hab].
    destruct (falling_first_two _ _ Hnd Hab) as (Hlen & H0 & H01).
    unfold rawS, short_raw.
    cbn [raw_setup_quality raw_rr raw_targets raw_entry_low raw_stop_loss].
    rewrite Hlen.
    destruct (grade_facts _ _ _
                (sel_is_continuation (short_select price dr fvgs intraday)) _
                (proj1 (Qlt_minus_iff _ _) Hrisk) H0 H01
                (short_select_quality price dr fvgs intraday))
      as (G1 & G2 & G3 & G4 & G5 & _).
    repeat split; try assumption; try apply G3; try apply G4.
Qed.

Lemma X19_witness :
  raw_setup_quality (long_raw 100 NEUTRAL narrow_range [gap_below] None) = "INVALID"
  <-> raw_rr (long_raw 100 NEUTRAL narrow_range [gap_below] None) < 1.
Proof.
  apply (X19_scenario_grading 100 NEUTRAL narrow_range [gap_below] None).
  repeat constructor. unfold wf_gap. simpl. apply Qle_bool_iff. reflexivity.
Defined.

(** *** Which gap the builder selects *)

Lemma fold_max_key {A : Type} (key : A -> Q) (r : list A) (a : A) :
  let x := fold_left (fun best y => if Qgtb (key y) (key best) then y else best) r a in
  key a <= key x /\ forall y, In y r -> key y <= key x.
Proof.
  revert a. induction r as [|y r IH]; intros a; simpl.
  - split; [lra | tauto].
  - destruct (Qgtb (key y) (key a)) eqn:E; qbool.
    + destruct (IH y) as [H1 H2]. split; [lra|].
      intros z [<-|Hz]; [exact H1 | apply H2, Hz].
    + destruct (IH a) as [H1 H2]. split; [exact H1|].
      intros z [<-|Hz]; [lra | apply H2, Hz].
Qed.

Lemma fold_min_key {A : Type} (key : A -> Q) (r : list A) (a : A) :
  let x := fold_left (fun best y => if Qltb (key y) (key best) then y else best) r a in
  key x <= key a /\ forall y, In y r -> key x <= key y.
Proof.
  revert a. induction r as [|y r IH]; intros a; simpl.
  - split; [lra | tauto].
  - destruct (Qltb (key y) (key a)) eqn:E; qbool.
    + destruct (IH y) as [H1 H2]. split; [lra|].
      intros z [<-|Hz]; [exact H1 | apply H2, Hz].
    + destruct (IH a) as [H1 H2]. split; [exact H1|].
      intros z [<-|Hz]; [lra | apply H2, Hz].
Qed.

Lemma max_by_ge {A : Type} (key : A -> Q) (l : list A) (x : A) :
  max_by key l = Some x -> forall y, In y l -> key y <= key x.
Proof.
  destruct l as [|a r]; simpl; [discriminate|]. intros H. injection H as <-.
  destruct (fold_max_key key r a) as [H1 H2].
  intros y [<-|Hy]; [exact H1 | apply H2, Hy].
Qed.

Lemma min_by_le {A : Type} (key : A -> Q) (l : list A) (x : A) :
  min_by key l = Some x -> forall y, In y l -> key x <= key y.
Proof.
  destruct l as [|a r]; simpl; [discriminate|]. intros H. injection H as <-.
  destruct (fold_min_key key r a) as [H1 H2].
  intros y [<-|Hy]; [exact H1 | apply H2, Hy].
Qed.

Lemma max_by_None {A : Type} (key : A -> Q) (l : list A) :
  max_by key l = None -> l = [].
Proof. destruct l; [reflexivity | discriminate]. Qed.

Lemma min_by_None {A : Type} (key : A -> Q) (l : list A) :
  min_by key l = None -> l = [].
Proof. destruct l; [reflexivity | discriminate]. Qed.

Lemma reachable_spec (target price : Q) :
  _is_statistically_reachable target price adr = true
  <-> Qabs (target - price) <= 2.5.
Proof.
  unfold _is_statistically_reachable, adr.
  change (Qleb 5.0 0) with false. cbv iota.
  destruct (Qgtb (Qabs (target - price)) (5.0 * 0.5)) eqn:E; qbool;
    split; intros H; try discriminate; try reflexivity; lra.
Qed.

Lemma long_ideal_spec (price : Q) (dr : DealingRange) (f : FVG) :
  long_ideal price dr f = true <-> long_candidate price dr f.
Proof.
  unfold long_ideal, long_candidate.
  rewrite !andb_true_iff, negb_true_iff, String.eqb_eq, reachable_spec.
  split.
  - intros [[[H1 H2] H3] H4]. qbool. tauto.
  - intros (H1 & H2 & H3 & H4). repeat split; try assumption.
    apply Qltb_lt. exact H3.
Qed.

Lemma short_ideal_spec (price : Q) (dr : DealingRange) (f : FVG) :
  short_ideal price dr f = true <-> short_candidate price dr f.
Proof.
  unfold short_ideal, short_candidate.
  rewrite !andb_true_iff, negb_true_iff, String.eqb_eq, reachable_spec.
  split.
  - intros [[[H1 H2] H3] H4]. qbool. tauto.
  - intros (H1 & H2 & H3 & H4). repeat split; try assumption.
    apply Qgtb_gt. exact H3.
Qed.

Lemma long_continuation_spec (price : Q) (f : FVG) :
  String.eqb (fvg_direction f) "bullish" && negb (fvg_invalidated f)
  && Qltb (fvg_high f) price = true <-> long_continuation price f.
Proof.
  unfold long_continuation.
  rewrite !andb_true_iff, negb_true_iff, String.eqb_eq.
  split.
  - intros [[H1 H2] H3]. qbool. tauto.
  - intros (H1 & H2 & H3). repeat split; try assumption. apply Qltb_lt. exact H3.
Qed.

Lemma short_continuation_spec (price : Q) (f : FVG) :
  String.eqb (fvg_direction f) "bearish" && negb (fvg_invalidated f)
  && Qgtb (fvg_low f) price = true <-> short_continuation price f.
Proof.
  unfold short_continuation.
  rewrite !andb_true_iff, negb_true_iff, String.eqb_eq.
  split.
  - intros [[H1 H2] H3]. qbool. tauto.
  - intros (H1 & H2 & H3). repeat split; try assumption. apply Qgtb_gt. exact H3.
Qed.

Lemma filter_nil_none {A : Type} (p : A -> bool) (l : list A) :
  filter p l = [] -> forall x, In x l -> p x = false.
Proof.
  intros H x Hx. destruct (p x) eqn:E; [|reflexivity].
  assert (Hin : In x (filter p l)) by (apply filter_In; tauto).
  rewrite H in Hin. destruct Hin.
Qed.

Lemma truthy_list_false (intraday : option (list FVG)) :
  truthy_list intraday = false -> intraday_list intraday = [].
Proof. destruct intraday as [[|]|]; simpl; congruence. Qed.

(** X20: which gap the long builder selects.  A gap selected outside
    continuation mode is an ideal candidate of the HTF list (bullish, not
    invalidated, below equilibrium, within 2.5 points of the price), graded
    A, mitigated whenever any ideal candidate is, and with the highest high
    among the ideal candidates of its own mitigation state.  A gap selected
    in continuation mode is graded B and is the highest bullish,
    un-invalidated intraday gap below the price, and then no HTF gap is an
    ideal candidate.  No gap is selected exactly when there is neither an
    ideal candidate nor a continuation candidate. *)
Theorem X20_long_selection :
  forall (price : Q) (dr : DealingRange) (fvgs : list FVG)
         (intraday : option (list FVG)),
    let sel := long_select price dr fvgs intraday in
    (forall g, sel_fvg sel = Some g ->
       if sel_is_continuation sel then
         (forall f, In f fvgs -> ~ long_candidate price dr f)
         /\ In g (intraday_list intraday) /\ long_continuation price g
         /\ (forall f, In f (intraday_list intraday) -> long_continuation price f ->
                       fvg_high f <= fvg_high g)
         /\ sel_setup_quality sel = "B"
       else
         In g fvgs /\ long_candidate price dr g
         /\ (forall f, In f fvgs -> long_candidate price dr f ->
               (fvg_mitigated f = true -> fvg_mitigated g = true)
               /\ (fvg_mitigated f = fvg_mitigated g -> fvg_high f <= fvg_high g))
         /\ sel_setup_quality sel = "A")
    /\ (sel_fvg sel = None <->
        (forall f, In f fvgs -> ~ long_candidate price dr f)
        /\ (forall f, In f (intraday_list intraday) -> ~ long_continuation price f)).
Proof.
  intros price dr fvgs intraday sel. unfold sel, long_select. clear sel.
  destruct (filter (long_ideal price dr) fvgs) as [|i0 ideal] eqn:Hideal.
  - pose proof (filter_nil_none _ _ Hideal) as Hno.
    assert (Hnone : forall f, In f fvgs -> ~ long_candidate price dr f).
    { intros f Hf Hc. apply long_ideal_spec in Hc. rewrite (Hno f Hf) in Hc.
      discriminate. }
    destruct (truthy_list intraday) eqn:Ht.
    + fold (intraday_list intraday).
      destruct (max_by _ _) as [n|] eqn:Hm.
      * split.
        -- intros g Hg. simpl in Hg. injection Hg as <-. simpl.
           pose proof (max_by_In _ _ _ Hm) as Hin. apply filter_In in Hin.
           destruct Hin as [Hin Hc]. apply long_continuation_spec in Hc.
           repeat split; try assumption; try apply Hc.
           intros f Hf Hfc. apply (max_by_ge _ _ _ Hm).
           apply filter_In. split; [exact Hf|]. apply long_continuation_spec, Hfc.
        -- simpl. split; [discriminate|]. intros [_ H].
           apply max_by_In, filter_In in Hm. destruct Hm as [Hin Hc].
           apply long_continuation_spec in Hc. destruct (H n Hin Hc).
      * split; [simpl; discriminate|]. simpl. split; [|reflexivity].
        intros _. split; [exact Hnone|]. intros f Hf Hc.
        apply max_by_None in Hm. apply long_continuation_spec in Hc.
        rewrite (filter_nil_none _ _ Hm f Hf) in Hc. discriminate.
    + split; [simpl; discriminate|]. simpl. split; [|reflexivity].
      intros _. split; [exact Hnone|].
      rewrite (truthy_list_false _ Ht). intros f [].
  - assert (Hsub : forall z, In z (i0 :: ideal) <->
                             In z fvgs /\ long_candidate price dr z).
    { intros z. rewrite <- Hideal, filter_In, long_ideal_spec. tauto. }
    destruct (max_by fvg_high (filter fvg_mitigated (i0 :: ideal))) as [m|] eqn:Hm.
    + split.
      * intros g Hg. simpl in Hg. injection Hg as <-. simpl.
        pose proof (max_by_In _ _ _ Hm) as Hin. apply filter_In in Hin.
        destruct Hin as [Hin Hmit]. apply Hsub in Hin. destruct Hin as [Hin Hc].
        repeat split; try assumption; try apply Hc.
        -- intros _. exact Hmit.
        -- intros Hfm. apply (max_by_ge _ _ _ Hm). apply filter_In.
           split; [apply Hsub; tauto | congruence].
      * simpl. split; [discriminate|]. intros [H _].
        apply max_by_In, filter_In in Hm. destruct Hm as [Hin _].
        apply Hsub in Hin. destruct (H m); tauto.
    + apply max_by_None in Hm.
      destruct (max_by fvg_high (i0 :: ideal)) as [m|] eqn:Hi; [|discriminate].
      split.
      * intros g Hg. simpl in Hg. injection Hg as <-. simpl.
        pose proof (max_by_In _ _ _ Hi) as Hin. apply Hsub in Hin.
        destruct Hin as [Hin Hc].
        repeat split; try assumption; try apply Hc.
        -- intros Hfm.
           assert (Hf : In f (i0 :: ideal)) by (apply Hsub; tauto).
           rewrite (filter_nil_none _ _ Hm f Hf) in Hfm. discriminate.
        -- intros _. apply (max_by_ge _ _ _ Hi). apply Hsub; tauto.
      * simpl. split; [discriminate|]. intros [H _].
        apply max_by_In in Hi. apply Hsub in Hi. destruct (H m); tauto.
Qed.

(** X21: which gap the short builder selects, mirrored on the gap's low
    edge.  A gap selected outside continuation mode is an ideal candidate of
    the HTF list (bearish, not invalidated, low above equilibrium, low within
    2.5 points of the price), graded A, mitigated whenever any ideal
    candidate is, and with the lowest low among the ideal candidates of its
    own mitigation state.  A gap selected in continuation mode is graded B
    and is the lowest bearish, un-invalidated intraday gap above the price,
    and then no HTF gap is an ideal candidate.  No gap is selected exactly
    when there is neither an ideal candidate nor a continuation candidate. *)
Theorem X21_short_selection :
  forall (price : Q) (dr : DealingRange) (fvgs : list FVG)
         (intraday : option (list FVG)),
    let sel := short_select price dr fvgs intraday in
    (forall g, sel_fvg sel = Some g ->
       if sel_is_continuation sel then
         (forall f, In f fvgs -> ~ short_candidate price dr f)
         /\ In g (intraday_list intraday) /\ short_continuation price g
         /\ (forall f, In f (intraday_list intraday) -> short_continuation price f ->
                       fvg_low g <= fvg_low f)
         /\ sel_setup_quality sel = "B"
       else
         In g fvgs /\ short_candidate price dr g
         /\ (forall f, In f fvgs -> short_candidate price dr f ->
               (fvg_mitigated f = true -> fvg_mitigated g = true)
               /\ (fvg_mitigated f = fvg_mitigated g -> fvg_low g <= fvg_low f))
         /\ sel_setup_quality sel = "A")
    /\ (sel_fvg sel = None <->
        (forall f, In f fvgs -> ~ short_candidate price dr f)
        /\ (forall f, In f (intraday_list intraday) -> ~ short_continuation price f)).
Proof.
  intros price dr fvgs intraday sel. unfold sel, short_select. clear sel.
  destruct (filter (short_ideal price dr) fvgs) as [|i0 ideal] eqn:Hideal.
  - pose proof (filter_nil_none _ _ Hideal) as Hno.
    assert (Hnone : forall f, In f fvgs -> ~ short_candidate price dr f).
    { intros f Hf Hc. apply short_ideal_spec in Hc. rewrite (Hno f Hf) in Hc.
      discriminate. }
    destruct (truthy_list intraday) eqn:Ht.
    + fold (intraday_list intraday).
      destruct (min_by _ _) as [n|] eqn:Hm.
      * split.
        -- intros g Hg. simpl in Hg. injection Hg as <-. simpl.
           pose proof (min_by_In _ _ _ Hm) as Hin. apply filter_In in Hin.
           destruct Hin as [Hin Hc]. apply short_continuation_spec in Hc.
           repeat split; try assumption; try apply Hc.
           intros f Hf Hfc. apply (min_by_le _ _ _ Hm).
           apply filter_In. split; [exact Hf|]. apply short_continuation_spec, Hfc.
        -- simpl. split; [discriminate|]. intros [_ H].
           apply min_by_In, filter_In in Hm. destruct Hm as [Hin Hc].
           apply short_continuation_spec in Hc. destruct (H n Hin Hc).
      * split; [simpl; discriminate|]. simpl. split; [|reflexivity].
        intros _. split; [exact Hnone|]. intros f Hf Hc.
        apply min_by_None in Hm. apply short_continuation_spec in Hc.
        rewrite (filter_nil_none _ _ Hm f Hf) in Hc. discriminate.
    + split; [simpl; discriminate|]. simpl. split; [|reflexivity].
      intros _. split; [exact Hnone|].
      rewrite (truthy_list_false _ Ht). intros f [].
  - assert (Hsub : forall z, In z (i0 :: ideal) <->
                             In z fvgs /\ short_candidate price dr z).
    { intros z. rewrite <- Hideal, filter_In, short_ideal_spec. tauto. }
    destruct (min_by fvg_low (filter fvg_mitigated (i0 :: ideal))) as [m|] eqn:Hm.
    + split.
      * intros g Hg. simpl in Hg. injection Hg as <-. simpl.
        pose proof (min_by_In _ _ _ Hm) as Hin. apply filter_In in Hin.
        destruct Hin as [Hin Hmit]. apply Hsub in Hin. destruct Hin as [Hin Hc].
        repeat split; try assumption; try apply Hc.
        -- intros _. exact Hmit.
        -- intros Hfm. apply (min_by_le _ _ _ Hm). apply filter_In.
           split; [apply Hsub; tauto | congruence].
      * simpl. split; [discriminate|]. intros [H _].
        apply min_by_In, filter_In in Hm. destruct Hm as [Hin _].
        apply Hsub in Hin. destruct (H m); tauto.
    + apply min_by_None in Hm.
      destruct (min_by fvg_low (i0 :: ideal)) as [m|] eqn:Hi; [|discriminate].
      split.
      * intros g Hg. simpl in Hg. injection Hg as <-. simpl.
        pose proof (min_by_In _ _ _ Hi) as Hin. apply Hsub in Hin.
        destruct Hin as [Hin Hc].
        repeat split; try assumption; try apply Hc.
        -- intros Hfm.
           assert (Hf : In f (i0 :: ideal)) by (apply Hsub; tauto).
           rewrite (filter_nil_none _ _ Hm f Hf) in Hfm. discriminate.
        -- intros _. apply (min_by_le _ _ _ Hi). apply Hsub; tauto.
      * simpl. split; [discriminate|]. intros [H _].
        apply min_by_In in Hi. apply Hsub in Hi. destruct (H m); tauto.
Qed.

End ScenarioMoreFacts.

(** ** pre_market_routine.py: step 6 on the analyzer's output *)

Section PlanFacts.
Import Routine RoutinePlan.

Lemma detected_filled_flag (df : list Bar) (lookback : Z) (f : FVG) :
  In f (Fvg.detect_fvgs df lookback) -> fvg_filled f = fvg_invalidated f.
Proof.
  unfold Fvg.detect_fvgs. destruct (length df <? 10)%nat; [contradiction|].
  intros Hin. apply in_scan in Hin. destruct Hin as (i & _ & Hf).
  apply fvg_at_flags in Hf. apply Hf.
Qed.

Lemma firstn_incl_In {A : Type} (n : nat) (l : list A) (x : A) :
  In x (firstn n l) -> In x l.
Proof.
  intros H. rewrite <- (firstn_skipn n l). apply in_or_app. left. exact H.
Qed.

Lemma analysis_fvgs_open (df : list Bar) (f : FVG) :
  In f (analysis_fvgs df) -> open_gap f.
Proof.
  unfold analysis_fvgs, FvgFilter.analyzer_fvgs.
  destruct df as [|c df]; [contradiction|]. intros Hin.
  apply firstn_incl_In, filter_In in Hin. destruct Hin as [Hin Hf].
  apply negb_true_iff in Hf.
  pose proof (detected_filled_flag _ _ _ Hin) as Hfl.
  destruct (detect_fvgs_wf _ _ _ Hin) as (Hlt & _).
  unfold open_gap. repeat split; [exact Hf | congruence | exact Hlt].
Qed.

Lemma analysis_fvgs_length (df : list Bar) : (length (analysis_fvgs df) <= 5)%nat.
Proof.
  unfold analysis_fvgs, FvgFilter.analyzer_fvgs.
  destruct df; [simpl; lia | apply firstn_le_length].
Qed.

Lemma long_quality_graded (price : Q) (bias : BiasType) (dr : DealingRange)
  (fvgs : list FVG) (intraday : option (list FVG)) :
  (forall f, In f (gap_pool fvgs intraday) -> wf_gap f) ->
  In (sc_setup_quality (_build_long_scenario price bias dr fvgs intraday))
     setup_grades.
Proof.
  intros Hwf.
  assert (HL : forall f, sel_fvg (long_select price dr fvgs intraday) = Some f ->
                         wf_gap f)
    by (intros f Hf; apply Hwf, long_select_from_pool with (1 := Hf)).
  pose proof (long_entry_risk price dr fvgs _ HL) as Hrisk.
  destruct (long_targets_weak dr _ _ Hrisk) as [Hnd Hab].
  destruct (rising_first_two _ _ Hnd Hab) as (Hlen & H0 & H01).
  unfold _build_long_scenario, finalize. cbn [sc_setup_quality].
  unfold long_raw. cbn [raw_setup_quality]. rewrite Hlen.
  apply (grade_facts _ _ _
           (sel_is_continuation (long_select price dr fvgs intraday)) _
           (proj1 (Qlt_minus_iff _ _) Hrisk) H0 H01
           (long_select_quality price dr fvgs intraday)).
Qed.

Lemma short_quality_graded (price : Q) (bias : BiasType) (dr : DealingRange)
  (fvgs : list FVG) (intraday : option (list FVG)) :
  (forall f, In f (gap_pool fvgs intraday) -> wf_gap f) ->
  In (sc_setup_quality (_build_short_scenario price bias dr fvgs intraday))
     setup_grades.
Proof.
  intros Hwf.
  assert (HS : forall f, sel_fvg (short_select price dr fvgs intraday) = Some f ->
                         wf_gap f)
    by (intros f Hf; apply Hwf, short_select_from_pool with (1 := Hf)).
  pose proof (short_entry_risk price dr fvgs _ HS) as Hrisk.
  destruct (short_targets_weak dr _ _ Hrisk) as [Hnd Hab].
  destruct (falling_first_two _ _ Hnd Hab) as (Hlen & H0 & H01).
  unfold _build_short_scenario, finalize. cbn [sc_setup_quality].
  unfold short_raw. cbn [raw_setup_quality]. rewrite Hlen.
  apply (grade_facts _ _ _
           (sel_is_continuation (short_select price dr fvgs intraday)) _
           (proj1 (Qlt_minus_iff _ _) Hrisk) H0 H01
           (short_select_quality price dr fvgs intraday)).
Qed.

(** X22: step 6 on the analyzer's output, for any daily, 5-minute and
    15-minute frames.  The pool handed to the builders holds at most ten
    gaps, each unfilled, not invalidated and with [low < high], so the
    builders' own "not invalidated" tests always pass there.  Both returned
    scenarios are well formed without further assumptions: the long one has
    [stop <= entry low <= entry high], at least three targets in
    nondecreasing order none below the entry high, and a grade among A, B,
    C+, C, C-, INVALID; the short one mirrors this. *)
Theorem X22_trade_plan_pipeline :
  forall (bias : BiasType) (dr : DealingRange) (df_1d df df_15m : list Bar)
         (cutoff_ny : option Z),
    let htf_fvgs := analysis_fvgs df_1d in
    let intraday_fvgs := analysis_fvgs df_15m in
    let plan := _step6_trade_plan bias dr htf_fvgs df df_15m cutoff_ny in
    ((length (intraday_fvgs ++ htf_fvgs) <= 10)%nat
     /\ Forall open_gap (intraday_fvgs ++ htf_fvgs))
    /\ (sc_stop_loss (fst plan) <= sc_entry_low (fst plan)
        /\ sc_entry_low (fst plan) <= sc_entry_high (fst plan)
        /\ nondecreasing_from (sc_entry_high (fst plan)) (sc_targets (fst plan))
        /\ In (sc_setup_quality (fst plan)) setup_grades)
    /\ (sc_entry_low (snd plan) <= sc_entry_high (snd plan)
        /\ sc_entry_high (snd plan) <= sc_stop_loss (snd plan)
        /\ nonincreasing_from (sc_entry_low (snd plan)) (sc_targets (snd plan))
        /\ In (sc_setup_quality (snd plan)) setup_grades).
Proof.
  intros bias dr df_1d df df_15m cutoff_ny htf_fvgs intraday_fvgs plan.
  assert (Hopen : Forall open_gap (intraday_fvgs ++ htf_fvgs)).
  { apply Forall_app. split; apply Forall_forall; intros f Hf;
      apply analysis_fvgs_open in Hf; exact Hf. }
  split.
  { split; [|exact Hopen]. rewrite length_app.
    pose proof (analysis_fvgs_length df_1d). pose proof (analysis_fvgs_length df_15m).
    unfold htf_fvgs, intraday_fvgs. lia. }
  set (price := current_price df cutoff_ny).
  set (all_fvgs := intraday_fvgs ++ htf_fvgs).
  assert (Hwf : forall f, In f (gap_pool all_fvgs (Some intraday_fvgs)) -> wf_gap f).
  { unfold gap_pool, all_fvgs. rewrite Forall_forall in Hopen.
    intros f Hf. apply in_app_or in Hf.
    assert (Hin : In f (intraday_fvgs ++ htf_fvgs))
      by (destruct Hf as [Hf|Hf]; [exact Hf | apply in_or_app; left; exact Hf]).
    destruct (Hopen f Hin) as (_ & _ & Hlt). unfold wf_gap. lra. }
  split.
  - assert (HL : forall f, sel_fvg (long_select price dr all_fvgs (Some intraday_fvgs))
                           = Some f -> wf_gap f)
      by (intros f Hf; apply Hwf, long_select_from_pool with (1 := Hf)).
    pose proof (long_entry_order price dr all_fvgs _ HL) as (L1 & L2 & L3).
    pose proof (long_entry_risk price dr all_fvgs _ HL) as Hrisk.
    destruct (long_targets_weak dr _ _ Hrisk) as [Hnd Hab].
    split; [apply round2_mono, Qlt_le_weak, L1|].
    split; [apply round2_mono, L2|].
    split; [apply rounded_nondecreasing, Hnd|].
    apply long_quality_graded. exact Hwf.
  - assert (HS : forall f, sel_fvg (short_select price dr all_fvgs (Some intraday_fvgs))
                           = Some f -> wf_gap f)
      by (intros f Hf; apply Hwf, short_select_from_pool with (1 := Hf)).
    pose proof (short_entry_order price dr all_fvgs _ HS) as (S1 & S2 & S3).
    pose proof (short_entry_risk price dr all_fvgs _ HS) as Hrisk.
    destruct (short_targets_weak dr _ _ Hrisk) as [Hnd Hab].
    split; [apply round2_mono, S1|].
    split; [apply round2_mono, Qlt_le_weak, S2|].
    split; [apply rounded_nonincreasing, Hnd|].
    apply short_quality_graded. exact Hwf.
Qed.

(** *** The validator on a built scenario *)

Lemma long_status_cases (eh el sl inv p : Q) :
  sl <= el -> el <= eh ->
  let st := Coach.spec_status "long" eh el sl inv p in
  (st = "INVALIDATED" <-> p <= inv \/ p <= sl)
  /\ (st = "WAITING" <-> eh < p /\ inv < p)
  /\ (st = "ACTIVE" <-> sl < p /\ p <= eh /\ inv < p).
Proof.
  intros H1 H2. unfold Coach.spec_status.
  change (String.eqb "long" "long") with true. cbv iota.
  destruct (Qleb p inv) eqn:E1; destruct (Qleb p sl) eqn:E2; cbn [orb];
    try (qbool; repeat split; intros; try discriminate; try reflexivity;
         try tauto; lra).
  destruct (Qleb el p) eqn:E3; destruct (Qleb p eh) eqn:E4; cbn [andb];
    try destruct (Qgtb p eh) eqn:E5; qbool;
    repeat split; intros; try discriminate; try reflexivity;
    try lra; try (exfalso; lra);
    match goal with
    | H : _ \/ _ |- _ => destruct H; exfalso; lra
    | H : _ /\ _ |- _ => exfalso; lra
    | _ => idtac
    end.
Qed.

Lemma short_status_cases (eh el sl inv p : Q) :
  el <= eh -> eh <= sl ->
  let st := Coach.spec_status "short" eh el sl inv p in
  (st = "INVALIDATED" <-> inv <= p \/ sl <= p)
  /\ (st = "WAITING" <-> p < el /\ p < inv)
  /\ (st = "ACTIVE" <-> el <= p /\ p < sl /\ p < inv).
Proof.
  intros H1 H2. unfold Coach.spec_status.
  change (String.eqb "short" "long") with false. cbv iota.
  destruct (Qgeb p inv) eqn:E1; destruct (Qgeb p sl) eqn:E2; cbn [orb];
    try (qbool; repeat split; intros; try discriminate; try reflexivity;
         try tauto; lra).
  destruct (Qleb el p) eqn:E3; destruct (Qleb p eh) eqn:E4; cbn [andb];
    try destruct (Qltb p el) eqn:E5; qbool;
    repeat split; intros; try discriminate; try reflexivity;
    try lra; try (exfalso; lra);
    match goal with
    | H : _ \/ _ |- _ => destruct H; exfalso; lra
    | H : _ /\ _ |- _ => exfalso; lra
    | _ => idtac
    end.
Qed.

(** X23: the validator on a scenario the builders returned (gaps with
    [low <= high]), at any later price.  When the rounded entry high, entry
    low and stop are non-zero the validator returns a status, and because
    the stop lies beyond the entry zone the statuses partition the price
    axis: a long plan is INVALIDATED exactly at or below the higher of stop
    and invalidation, WAITING exactly above the entry high (and above the
    invalidation), and ACTIVE exactly between the stop and the entry high,
    which includes the stretch below the zone; the short plan mirrors
    this. *)
Theorem X23_built_plan_status :
  forall (price : Q) (bias : BiasType) (dr : DealingRange) (fvgs : list FVG)
         (intraday : option (list FVG)) (p : Q),
    Forall wf_gap (gap_pool fvgs intraday) ->
    let scL := _build_long_scenario price bias dr fvgs intraday in
    let scS := _build_short_scenario price bias dr fvgs intraday in
    (~ sc_entry_high scL == 0 -> ~ sc_entry_low scL == 0 ->
     ~ sc_stop_loss scL == 0 ->
     exists st msg,
       Coach._validate_plan_status (Some (stored_plan scL)) p "long" = Ok (st, msg)
       /\ (st = "INVALIDATED" <-> p <= sc_invalidation scL \/ p <= sc_stop_loss scL)
       /\ (st = "WAITING" <-> sc_entry_high scL < p /\ sc_invalidation scL < p)
       /\ (st = "ACTIVE" <->
           sc_stop_loss scL < p /\ p <= sc_entry_high scL /\ sc_invalidation scL < p))
    /\ (~ sc_entry_high scS == 0 -> ~ sc_entry_low scS == 0 ->
        ~ sc_stop_loss scS == 0 ->
        exists st msg,
          Coach._validate_plan_status (Some (stored_plan scS)) p "short" = Ok (st, msg)
          /\ (st = "INVALIDATED" <-> sc_invalidation scS <= p \/ sc_stop_loss scS <= p)
          /\ (st = "WAITING" <-> p < sc_entry_low scS /\ p < sc_invalidation scS)
          /\ (st = "ACTIVE" <->
              sc_entry_low scS <= p /\ p < sc_stop_loss scS /\ p < sc_invalidation scS)).
Proof.
  intros price bias dr fvgs intraday p Hwf scL scS.
  rewrite Forall_forall in Hwf.
  assert (HL : forall f, sel_fvg (long_select price dr fvgs intraday) = Some f ->
                         wf_gap f)
    by (intros f Hf; apply Hwf, long_select_from_pool with (1 := Hf)).
  assert (HS : forall f, sel_fvg (short_select price dr fvgs intraday) = Some f ->
                         wf_gap f)
    by (intros f Hf; apply Hwf, short_select_from_pool with (1 := Hf)).
  pose proof (long_entry_order price dr fvgs _ HL) as (L1 & L2 & _).
  pose proof (short_entry_order price dr fvgs _ HS) as (S1 & S2 & _).
  split; intros Heh Hel Hsl.
  - destruct (validate_full_plan (stored_plan scL) "long" _ _ _ _ p
                eq_refl eq_refl eq_refl Heh Hel Hsl) as [msg Hv].
    eexists. exists msg. split; [exact Hv|].
    apply long_status_cases.
    + apply round2_mono, Qlt_le_weak, L1.
    + apply round2_mono, L2.
  - destruct (validate_full_plan (stored_plan scS) "short" _ _ _ _ p
                eq_refl eq_refl eq_refl Heh Hel Hsl) as [msg Hv].
    eexists. exists msg. split; [exact Hv|].
    apply short_status_cases.
    + apply round2_mono, S1.
    + apply round2_mono, Qlt_le_weak, S2.
Qed.

Lemma X23_witness :
  exists st msg,
    Coach._validate_plan_status
      (Some (stored_plan (_build_long_scenario 100 NEUTRAL narrow_range [gap_below] None)))
      99.7 "long" = Ok (st, msg)
    /\ (st = "ACTIVE" <->
        sc_stop_loss (_build_long_scenario 100 NEUTRAL narrow_range [gap_below] None) < 99.7
        /\ 99.7 <= sc_entry_high (_build_long_scenario 100 NEUTRAL narrow_range [gap_below] None)
        /\ sc_invalidation (_build_long_scenario 100 NEUTRAL narrow_range [gap_below] None) < 99.7).
Proof.
  destruct (proj1 (X23_built_plan_status 100 NEUTRAL narrow_range [gap_below] None 99.7
              ltac:(repeat constructor; unfold wf_gap; simpl; apply Qle_bool_iff;
                    reflexivity)))
    as (st & msg & Hv & _ & _ & Ha).
  - vm_compute. discriminate.
  - vm_compute. discriminate.
  - vm_compute. discriminate.
  - exists st, msg. split; [exact Hv | exact Ha].
Defined.

End PlanFacts.

(** ** langchain/coach.py: the context cache *)

Section CacheFacts.
Import CoachCache.
Context {Meta : Type}.
Implicit Types cache : context_cache Meta.
Implicit Types section entry : ContextSection Meta.

Lemma dict_get_set_same (key : string) (section : ContextSection Meta) cache :
  dict_get key (dict_set key section cache) = Some section.
Proof.
  unfold dict_get. induction cache as [|[k v] rest IH]; simpl.
  - rewrite String.eqb_refl. reflexivity.
  - destruct (String.eqb k key) eqn:E; simpl.
    + rewrite String.eqb_refl. reflexivity.
    + rewrite E. exact IH.
Qed.

Lemma dict_get_set_other (key key' : string) (section : ContextSection Meta) cache :
  key' <> key -> dict_get key' (dict_set key section cache) = dict_get key' cache.
Proof.
  intros Hne. unfold dict_get. induction cache as [|[k v] rest IH]; simpl.
  - destruct (String.eqb key key') eqn:E; [|reflexivity].
    apply String.eqb_eq in E. congruence.
  - destruct (String.eqb k key) eqn:E; simpl.
    + apply String.eqb_eq in E. subst k.
      destruct (String.eqb key key') eqn:E'; [|reflexivity].
      apply String.eqb_eq in E'. congruence.
    + destruct (String.eqb k key'); [reflexivity | exact IH].
Qed.

Lemma dict_get_pop_same (key : string) cache :
  dict_get key (dict_pop key cache) = None.
Proof.
  unfold dict_get, dict_pop. induction cache as [|[k v] rest IH]; simpl;
    [reflexivity|].
  destruct (String.eqb k key) eqn:E; simpl; [exact IH|]. rewrite E. exact IH.
Qed.

Lemma dict_get_pop_other (key key' : string) cache :
  key' <> key -> dict_get key' (dict_pop key cache) = dict_get key' cache.
Proof.
  intros Hne. unfold dict_get, dict_pop.
  induction cache as [|[k v] rest IH]; simpl; [reflexivity|].
  destruct (String.eqb k key) eqn:E; simpl.
  - apply String.eqb_eq in E. subst k.
    destruct (String.eqb key key') eqn:E'; [|exact IH].
    apply String.eqb_eq in E'. congruence.
  - destruct (String.eqb k key'); [reflexivity | exact IH].
Qed.

Lemma stale_test (utcnow : Z) entry :
  (timedelta_seconds CONTEXT_CACHE_TTL_SECONDS <? utcnow - cs_generated_at entry)%Z
  = false <-> fresh utcnow entry.
Proof.
  unfold fresh, timedelta_seconds, CONTEXT_CACHE_TTL_SECONDS.
  rewrite Z.ltb_ge. reflexivity.
Qed.

(** What a lookup does, by the state of the entry under its key. *)
Lemma get_cached_cases cache (utcnow : Z) (session_id identifier : string) :
  let key := _cache_key session_id identifier in
  let r := _get_cached_section cache utcnow session_id identifier in
  match dict_get key cache with
  | None => r = (None, cache)
  | Some entry =>
      (fresh utcnow entry /\ r = (Some entry, cache))
      \/ (~ fresh utcnow entry /\ r = (None, dict_pop key cache))
  end.
Proof.
  intros key r. unfold r, _get_cached_section. fold key.
  destruct (dict_get key cache) as [entry|]; [|reflexivity].
  destruct (_ <? _)%Z eqn:E.
  - right. split; [|reflexivity]. intros Hf. apply stale_test in Hf. congruence.
  - left. split; [apply stale_test, E | reflexivity].
Qed.

(** X24: the context cache.  A lookup returns an entry only if it is the one
    stored under the key and at most 60 seconds old (an entry exactly
    60 seconds old is still served), and then leaves the cache unchanged; a
    lookup that finds an older entry returns nothing and removes it, so no
    later lookup finds it, whatever the clock says; a lookup never changes
    what is stored under another key.  A stored section is what the next
    lookup under the same session and identifier returns while it is fresh,
    and storing does not change other keys. *)
Theorem X24_context_cache :
  forall cache (utcnow : Z) (session_id identifier : string),
    let key := _cache_key session_id identifier in
    let r := _get_cached_section cache utcnow session_id identifier in
    (forall entry, fst r = Some entry ->
       dict_get key cache = Some entry /\ fresh utcnow entry /\ snd r = cache)
    /\ (forall entry, dict_get key cache = Some entry ->
          (utcnow - cs_generated_at entry = 60 * 1000000)%Z -> fst r = Some entry)
    /\ (forall entry, dict_get key cache = Some entry -> ~ fresh utcnow entry ->
          fst r = None
          /\ forall later, fst (_get_cached_section (snd r) later session_id identifier)
                           = None)
    /\ (forall key', key' <> key -> dict_get key' (snd r) = dict_get key' cache)
    /\ (forall section later,
          let stored := _store_section cache session_id identifier section in
          (fresh later section ->
           _get_cached_section stored later session_id identifier
           = (Some section, stored))
          /\ (forall key', key' <> key -> dict_get key' stored = dict_get key' cache)).
Proof.
  intros cache utcnow session_id identifier key r.
  pose proof (get_cached_cases cache utcnow session_id identifier) as Hc.
  fold key in Hc. fold r in Hc. cbv zeta in Hc.
  split; [|split; [|split; [|split]]].
  - intros entry Hr. destruct (dict_get key cache) as [e|].
    + destruct Hc as [[Hf ->]|[_ ->]]; simpl in Hr; [|discriminate].
      injection Hr as <-. simpl. tauto.
    + rewrite Hc in Hr. discriminate.
  - intros entry He Hage. rewrite He in Hc.
    destruct Hc as [[_ ->]|[Hn _]]; [reflexivity|].
    exfalso. apply Hn. unfold fresh. lia.
  - intros entry He Hn. rewrite He in Hc.
    destruct Hc as [[Hf _]|[_ ->]]; [contradiction|]. simpl. split; [reflexivity|].
    intros later. unfold _get_cached_section. fold key.
    rewrite dict_get_pop_same. reflexivity.
  - intros key' Hne. destruct (dict_get key cache) as [e|].
    + destruct Hc as [[_ ->]|[_ ->]]; simpl; [reflexivity|].
      apply dict_get_pop_other, Hne.
    + rewrite Hc. reflexivity.
  - intros section later stored. split.
    + intros Hf. unfold _get_cached_section. fold key. unfold stored, _store_section.
      fold key. rewrite dict_get_set_same.
      apply stale_test in Hf. rewrite Hf. reflexivity.
    + intros key' Hne. unfold stored, _store_section. fold key.
      apply dict_get_set_other, Hne.
Qed.

(** X25: get-or-build.  While the cached entry is fresh it is returned, the
    builder's result plays no part and the cache is unchanged.  On a miss
    (no entry, or one older than 60 seconds) the builder's section is
    returned and stored, so a lookup finds it as long as it is fresh; a
    builder that returns nothing leaves nothing under the key: negative
    results are not cached. *)
Theorem X25_get_or_build_section :
  forall cache (utcnow : Z) (session_id identifier : string)
         (builder : unit -> option (ContextSection Meta)),
    let key := _cache_key session_id identifier in
    let r := _get_or_build_section cache utcnow session_id identifier builder in
    (forall entry, dict_get key cache = Some entry -> fresh utcnow entry ->
       r = (Some entry, cache))
    /\ ((dict_get key cache = None
         \/ exists entry, dict_get key cache = Some entry /\ ~ fresh utcnow entry) ->
        fst r = builder tt
        /\ dict_get key (snd r) = builder tt
        /\ (forall section later, builder tt = Some section -> fresh later section ->
              fst (_get_cached_section (snd r) later session_id identifier)
              = Some section))
    /\ (forall key', key' <> key -> dict_get key' (snd r) = dict_get key' cache).
Proof.
  intros cache utcnow session_id identifier builder key r.
  pose proof (get_cached_cases cache utcnow session_id identifier) as Hc.
  fold key in Hc. cbv zeta in Hc. unfold r, _get_or_build_section. clear r.
  assert (Hlater : forall c section later,
            fresh later section ->
            fst (_get_cached_section (dict_set key section c) later
                                     session_id identifier) = Some section).
  { intros c section later Hf. unfold _get_cached_section. fold key.
    rewrite dict_get_set_same. apply stale_test in Hf. rewrite Hf. reflexivity. }
  destruct (dict_get key cache) as [e|] eqn:He.
  - destruct Hc as [[Hf ->]|[Hn ->]].
    + split; [intros entry Hentry _; congruence|]. split; [|reflexivity].
      intros [Hnone|(entry & Hentry & Hstale)]; [discriminate|].
      injection Hentry as <-. contradiction.
    + split; [intros entry Hentry Hf; injection Hentry as <-; contradiction|].
      unfold _store_section. fold key.
      destruct (builder tt) as [s|]; cbn [fst snd].
      * split.
        -- intros _. split; [reflexivity|]. split; [apply dict_get_set_same|].
           intros section later Hs Hf. injection Hs as <-. apply Hlater, Hf.
        -- intros key' Hne. rewrite dict_get_set_other by exact Hne.
           apply dict_get_pop_other, Hne.
      * split.
        -- intros _. split; [reflexivity|]. split; [apply dict_get_pop_same|].
           intros section later Hs. discriminate.
        -- intros key' Hne. apply dict_get_pop_other, Hne.
  - rewrite Hc. split; [intros entry Hentry; discriminate|].
    unfold _store_section. fold key.
    destruct (builder tt) as [s|]; cbn [fst snd].
    + split.
      * intros _. split; [reflexivity|]. split; [apply dict_get_set_same|].
        intros section later Hs Hf. injection Hs as <-. apply Hlater, Hf.
      * intros key' Hne. apply dict_get_set_other, Hne.
    + split.
      * intros _. split; [reflexivity|]. split; [exact He|].
        intros section later Hs. discriminate.
      * intros key' Hne. reflexivity.
Qed.

(** *** Cache keys *)

Lemma append_colon_inj (s1 s2 i1 i2 : string) :
  colon_free s1 = true -> colon_free s2 = true ->
  (s1 ++ ":" ++ i1)%string = (s2 ++ ":" ++ i2)%string -> s1 = s2 /\ i1 = i2.
Proof.
  revert s2. induction s1 as [|c1 r1 IH]; intros [|c2 r2] H1 H2 E; simpl in *.
  - injection E as ->. tauto.
  - injection E as <- _. apply andb_true_iff in H2. destruct H2 as [H2 _].
    discriminate.
  - injection E as -> _. apply andb_true_iff in H1. destruct H1 as [H1 _].
    discriminate.
  - injection E as -> E. apply andb_true_iff in H1, H2.
    destruct (IH r2) as [-> ->]; tauto.
Qed.

(** X26: cache keys.  Two (session, identifier) pairs whose session ids hold
    no colon get the same key only if they are the same pair.  With a colon
    in a session id the key no longer tells the pairs apart: session
    [s ++ ":" ++ t] with identifier [i] and session [s] with identifier
    [t ++ ":" ++ i] share their key, so a fresh section stored for the one is
    returned to a lookup of the other. *)
Theorem X26_cache_key :
  (forall (s1 s2 i1 i2 : string),
      colon_free s1 = true -> colon_free s2 = true ->
      _cache_key s1 i1 = _cache_key s2 i2 -> s1 = s2 /\ i1 = i2)
  /\ (forall (s t i : string),
        _cache_key (s ++ ":" ++ t) i = _cache_key s (t ++ ":" ++ i))
  /\ (forall cache (s t i : string) section (utcnow : Z),
        fresh utcnow section ->
        fst (_get_cached_section
               (_store_section cache (s ++ ":" ++ t) i section)
               utcnow s (t ++ ":" ++ i))
        = Some section).
Proof.
  assert (Hassoc : forall s t i : string,
            _cache_key (s ++ ":" ++ t) i = _cache_key s (t ++ ":" ++ i)).
  { intros s t i. unfold _cache_key. induction s as [|c r IH]; simpl.
    - reflexivity.
    - f_equal. exact IH. }
  split; [|split].
  - intros s1 s2 i1 i2 H1 H2 E. apply append_colon_inj; assumption.
  - exact Hassoc.
  - intros cache s t i section utcnow Hf.
    unfold _get_cached_section, _store_section. rewrite Hassoc.
    rewrite dict_get_set_same. apply stale_test in Hf. rewrite Hf. reflexivity.
Qed.

End CacheFacts.

Lemma X24_witness :
  CoachCache._get_cached_section
    (CoachCache._store_section [] "s1" "trades:2024-01-02" CoachCache.example_section)
    70000000 "s1" "trades:2024-01-02"
  = (Some CoachCache.example_section,
     CoachCache._store_section [] "s1" "trades:2024-01-02" CoachCache.example_section).
Proof.
  apply (proj1 (proj2 (proj2 (proj2 (proj2
           (X24_context_cache [] 0 "s1" "trades:2024-01-02"))))
           CoachCache.example_section 70000000%Z)).
  unfold fresh. simpl. lia.
Defined.

Lemma X25_witness :
  CoachCache._get_or_build_section
    [("s1:trades:2024-01-02", CoachCache.example_section)] 70000000 "s1"
    "trades:2024-01-02" (fun _ => None)
  = (Some CoachCache.example_section,
     [("s1:trades:2024-01-02", CoachCache.example_section)]).
Proof.
  apply (proj1 (X25_get_or_build_section
                  [("s1:trades:2024-01-02", CoachCache.example_section)]
                  70000000%Z "s1" "trades:2024-01-02" (fun _ => None))).
  - reflexivity.
  - unfold fresh. simpl. lia.
Defined.

Lemma X26_witness :
  fst (CoachCache._get_cached_section
         (CoachCache._store_section [] "a:b" "c" CoachCache.example_section)
         70000000 "a" "b:c")
  = Some CoachCache.example_section.
Proof.
  apply (proj2 (proj2 (@X26_cache_key unit)) [] "a" "b" "c"
               CoachCache.example_section 70000000%Z).
  unfold fresh. simpl. lia.
Defined.

(** ** pre_market_routine.py: range helpers *)

Section HelperFacts.
Import Routine RoutineSession RoutineHelpers.

(** X27: the intraday range, for a day with [low <= high].  In either
    direction the range is not inverted, contains the day's low and high, and
    has its discount, equilibrium and premium in ascending order between its
    low and high, at the same fractions as the zones of step 3.  A long range
    tops out at the day's high and reaches down to the anchor; any other
    direction bottoms out at the day's low and reaches up to the anchor.
    When the anchor lies within the day's range the direction makes no
    difference: the range is the day's range. *)
Theorem X27_intraday_range :
  forall (anchor high low : Q) (direction : string),
    low <= high ->
    let r := _calculate_intraday_range anchor high low direction in
    (ir_low r <= ir_discount r /\ ir_discount r <= ir_equilibrium r
     /\ ir_equilibrium r <= ir_premium r /\ ir_premium r <= ir_high r)
    /\ (ir_low r <= low /\ high <= ir_high r)
    /\ (ir_equilibrium r == dr_equilibrium (calculate_zones (ir_high r) (ir_low r) "")
        /\ ir_premium r == dr_premium (calculate_zones (ir_high r) (ir_low r) "")
        /\ ir_discount r == dr_discount (calculate_zones (ir_high r) (ir_low r) ""))
    /\ (direction = "long" -> ir_high r = high /\ ir_low r <= anchor)
    /\ (direction <> "long" -> ir_low r = low /\ anchor <= ir_high r)
    /\ (low <= anchor -> anchor <= high -> ir_high r == high /\ ir_low r == low).
Proof.
  intros anchor high low direction Hlh r. unfold r, _calculate_intraday_range.
  unfold py_min_q, py_max_q, calculate_zones.
  destruct (String.eqb direction "long") eqn:Ed.
  - apply String.eqb_eq in Ed.
    destruct (Qltb low anchor) eqn:E; qbool; cbn [ir_high ir_low ir_equilibrium
      ir_premium ir_discount dr_equilibrium dr_premium dr_discount];
      repeat split; intros; try congruence; try reflexivity; try lra.
  - apply String.eqb_neq in Ed.
    destruct (Qgtb high anchor) eqn:E; qbool; cbn [ir_high ir_low ir_equilibrium
      ir_premium ir_discount dr_equilibrium dr_premium dr_discount];
      repeat split; intros; try congruence; try reflexivity; try lra.
Qed.

Lemma X27_witness :
  ir_high (_calculate_intraday_range 101 105 100 "long") == 105
  /\ ir_low (_calculate_intraday_range 101 105 100 "long") == 100.
Proof.
  apply (X27_intraday_range 101 105 100 "long"); lra.
Defined.

(** *** The average daily range *)

Lemma fold_sum_bounds (xs : list Q) (acc lo hi : Q) :
  Forall (fun x => lo <= x /\ x <= hi) xs ->
  acc + inject_Z (Z.of_nat (length xs)) * lo <= fold_left Qplus xs acc
  /\ fold_left Qplus xs acc <= acc + inject_Z (Z.of_nat (length xs)) * hi.
Proof.
  revert acc. induction xs as [|x xs IH]; intros acc Hall.
  - cbn [fold_left length Z.of_nat]. change (inject_Z 0) with 0. split; lra.
  - inversion Hall as [|? ? [Hlo Hhi] Hrest]; subst.
    destruct (IH (acc + x) Hrest) as [I1 I2].
    cbn [fold_left length]. rewrite Nat2Z.inj_succ. unfold Z.succ.
    rewrite inject_Z_plus. set (N := inject_Z (Z.of_nat (length xs))) in *.
    change (inject_Z 1) with 1. split; lra.
Qed.

Lemma series_mean_bounds (xs : list Q) (lo hi : Q) :
  xs <> [] -> Forall (fun x => lo <= x /\ x <= hi) xs ->
  lo <= LiquidityDetect.series_mean xs /\ LiquidityDetect.series_mean xs <= hi.
Proof.
  intros Hne Hall. unfold LiquidityDetect.series_mean, LiquidityDetect.series_sum.
  destruct (fold_sum_bounds xs 0 lo hi Hall) as [H1 H2].
  assert (Hn : 0 < inject_Z (Z.of_nat (length xs))).
  { change 0 with (inject_Z 0). rewrite <- Zlt_Qlt.
    destruct xs; [congruence | simpl; lia]. }
  split.
  - apply Qle_shift_div_l; [exact Hn | lra].
  - apply Qle_shift_div_r; [exact Hn | lra].
Qed.

(** X28: the average daily range.  On a frame shorter than the period it is
    0, and with an ADR of 0 the reachability test accepts every target.  For
    a period of at least one row and a frame that long it is a finite number
    lying between any two bounds that hold for the ranges [high - low] of the
    last [period] rows, so it is not negative when those rows have
    [low <= high]; with such a positive ADR a target is reachable exactly
    when it is within half of it from the price.  For a period of 0 the
    result is NaN. *)
Theorem X28_average_daily_range :
  forall (df_daily : list Bar) (period : Z),
    ((Z.of_nat (length df_daily) < period)%Z ->
       _calculate_adr df_daily period = Fin 0.0
       /\ forall target price, _is_statistically_reachable target price 0.0 = true)
    /\ ((1 <= period <= Z.of_nat (length df_daily))%Z ->
        exists a, _calculate_adr df_daily period = Fin a
          /\ (forall lo hi,
                (forall c, In c (df_tail period df_daily) ->
                           lo <= bar_high c - bar_low c /\ bar_high c - bar_low c <= hi) ->
                lo <= a /\ a <= hi)
          /\ ((forall c, In c (df_tail period df_daily) -> bar_low c <= bar_high c) ->
              0 <= a)
          /\ (0 < a -> forall target price,
                _is_statistically_reachable target price a = true
                <-> Qabs (target - price) <= a * 0.5))
    /\ (period = 0%Z -> _calculate_adr df_daily period = NaN).
Proof.
  intros df_daily period. unfold _calculate_adr. split; [|split].
  - intros Hlt. apply Z.ltb_lt in Hlt. rewrite Hlt. split; [reflexivity|].
    intros target price. reflexivity.
  - intros [H1 H2].
    destruct (Z.of_nat (length df_daily) <? period)%Z eqn:E;
      [apply Z.ltb_lt in E; lia|].
    assert (Hne : df_tail period df_daily <> []).
    { apply df_tail_nonempty; [lia|]. destruct df_daily; [simpl in H2; lia | discriminate]. }
    set (tail := df_tail period df_daily) in *.
    assert (Hmap : map (fun c => bar_high c - bar_low c) tail <> [])
      by (destruct tail; [congruence | discriminate]).
    unfold np_mean.
    destruct (map (fun c => bar_high c - bar_low c) tail) as [|x xs] eqn:Em;
      [congruence|].
    eexists. split; [reflexivity|].
    assert (Hb : forall lo hi,
               (forall c, In c tail ->
                          lo <= bar_high c - bar_low c /\ bar_high c - bar_low c <= hi) ->
               lo <= LiquidityDetect.series_mean (x :: xs)
               /\ LiquidityDetect.series_mean (x :: xs) <= hi).
    { intros lo hi Hall. apply series_mean_bounds; [discriminate|].
      rewrite <- Em. apply Forall_forall. intros y Hy.
      apply in_map_iff in Hy. destruct Hy as (c & <- & Hc). apply Hall, Hc. }
    split; [exact Hb|]. split.
    + intros Hwf. apply series_mean_nonneg. rewrite <- Em.
      apply Forall_forall. intros y Hy. apply in_map_iff in Hy.
      destruct Hy as (c & <- & Hc). specialize (Hwf c Hc). lra.
    + intros Hpos target price. unfold _is_statistically_reachable.
      destruct (Qleb _ 0) eqn:E0; [qbool; lra|].
      destruct (Qgtb _ _) eqn:E1; qbool; split; intros H; try discriminate;
        try reflexivity; lra.
  - intros ->. destruct (Z.of_nat (length df_daily) <? 0)%Z eqn:E;
      [apply Z.ltb_lt in E; lia|]. reflexivity.
Qed.

Lemma X28_witness :
  exists a, _calculate_adr daily_rows 3 = Fin a
    /\ (forall lo hi,
          (forall c, In c (df_tail 3 daily_rows) ->
                     lo <= bar_high c - bar_low c /\ bar_high c - bar_low c <= hi) ->
          lo <= a /\ a <= hi)
    /\ ((forall c, In c (df_tail 3 daily_rows) -> bar_low c <= bar_high c) -> 0 <= a)
    /\ (0 < a -> forall target price,
          _is_statistically_reachable target price a = true
          <-> Qabs (target - price) <= a * 0.5).
Proof.
  apply (proj1 (proj2 (X28_average_daily_range daily_rows 3))).
  simpl. lia.
Defined.

End HelperFacts.

(** ** analyzer.py: the confidence score *)

Section ConfidenceFacts.
Import Routine AnalyzerConfidence.




End ConfidenceFacts.
